(** * Worker-side orchestration of seyfert: [src/client/workerclient.ts]

    A shallow embedding of [WorkerClient]: the shard registry, the
    readiness set [__handleGuilds], the pending-call table [promises],
    the manager-message router [handleManagerMessages] and the packet
    dispatcher [onPacket]; followed by the properties of the worker
    protocol that are stated about them.

    Conventions of the embedding.
    - The class instance is a record [WorkerClient.t]; every method takes
      the instance and returns the new instance together with the list of
      calls it made on its collaborators (an [Effect] trace, in program
      order).  Collaborators (event handler, cache, collectors, the shard
      connection, the logger) are external: a call on one of them is
      recorded, it neither fails nor re-enters the worker.
    - An [async] handler is entered when its message or packet is taken
      and runs up to its first [await] at once.  Every handler but one has
      taken its decisions by then: what it does after an [await] does not
      depend on the fields of the instance modelled here, and its calls
      are listed together, in program order, where it is entered.  The
      exception is the [READY] case of [onPacket], which tests the
      readiness set and the registry after each of its three awaits; it is
      given await by await ([onReady_enter], [onReady_resume]) and
      scheduled by [turn], which lets any other event come between two of
      its parts.  [onReady], [step] and [run] are the schedule in which
      every handler finishes before the next event is taken
      ([run_is_turns]).
    - A callable evaluated for [EXECUTE_EVAL] is user code like the event
      handlers: [js_eval] gives the result of awaiting it, and what it
      does to the instance it is handed is not part of the embedding.
    - [setTimeout]/[clearTimeout] are modelled by a timer list and a
      logical clock in milliseconds; a [Promise] is a cell that is settled
      at most once.
    - [randomUUID] is an oracle: the list of the values it will return. *)

From Stdlib Require Import Floats.PrimFloat Numbers.Cyclic.Int63.Uint63.
From Stdlib Require Import ZArith NArith Ascii String.
From stdpp Require Import gmap strings list.

Local Open Scope string_scope.
Local Open Scope list_scope.

(** ** JavaScript values and numbers *)

(** The values that travel in [response]/[result] fields and that a
    callable may return or throw. *)
Inductive Value :=
| VUndefined
| VBool (b : bool)
| VNumber (n : Z)
| VString (s : string)
| VError (message : string).

(** Opaque wire payloads (gateway packets bodies, presence, shard info). *)
Definition Payload := string.

(** [ToInt32] of an integral number: wrap-around into [-2^31, 2^31). *)
Definition ToInt32 (z : Z) : Z := ((z + 2 ^ 31) mod 2 ^ 32 - 2 ^ 31)%Z.

(** The [&] operator on two integral numbers. *)
Definition js_band (a b : Z) : Z := Z.land (ToInt32 a) (ToInt32 b).

(** Truthiness of a [string | undefined]. *)
Definition truthy (o : option string) : bool :=
  match o with
  | Some (String _ _) => true
  | Some EmptyString => false
  | None => false
  end.

(** Truthiness of a value. *)
Definition truthy_value (v : Value) : bool :=
  match v with
  | VUndefined => false
  | VBool b => b
  | VNumber n => negb (Z.eqb n 0)
  | VString s => negb (String.eqb s EmptyString)
  | VError _ => true
  end.

(** [s.split(sep)[0]]: the characters before the first separator. *)
Fixpoint split_first (sep : ascii) (s : string) : string :=
  match s with
  | EmptyString => EmptyString
  | String c s' => if Ascii.eqb c sep then EmptyString else String c (split_first sep s')
  end.

(** ** [Map<number, V>]: insertion-ordered, keys unique *)

Module JsMap.
Section Ops.
Context {V : Type}.

Fixpoint get (k : Z) (m : list (Z * V)) : option V :=
  match m with
  | [] => None
  | (k', v) :: m' => if Z.eqb k k' then Some v else get k m'
  end.

(** [set] keeps the position of an existing key and appends a new one. *)
Fixpoint set (k : Z) (v : V) (m : list (Z * V)) : list (Z * V) :=
  match m with
  | [] => [(k, v)]
  | (k', v') :: m' => if Z.eqb k k' then (k, v) :: m' else (k', v') :: set k v m'
  end.

Definition keys (m : list (Z * V)) : list Z := map fst m.
Definition values (m : list (Z * V)) : list V := map snd m.
Definition size (m : list (Z * V)) : nat := length m.

(** [m.forEach(f)] where [f] updates an accumulator. *)
Definition forEach {A : Type} (f : A -> V -> A) (m : list (Z * V)) (acc : A) : A :=
  fold_left (fun a kv => f a (snd kv)) m acc.
End Ops.
End JsMap.

(** ** The connection object, as far as the worker reads and writes it *)

Module Shard.
Record Options := {
  token : string;
  intents : Z;
  info : Payload;
  compress : bool;
  presence : option Payload
}.

Record t := {
  id : Z;
  isOpen : bool;
  latency : float;
  resumable : bool;
  data_session_id : option string;
  options : Options
}.

(** [shard.options.presence = p] *)
Definition set_presence (p : Payload) (s : t) : t :=
  {| id := id s; isOpen := isOpen s; latency := latency s;
     resumable := resumable s; data_session_id := data_session_id s;
     options := {| token := token (options s); intents := intents (options s);
                   info := info (options s); compress := compress (options s);
                   presence := Some p |} |}.
End Shard.

Module WorkerShardInfo.
Record t := {
  open : bool;
  shardId : Z;
  latency : float;
  resumable : bool
}.
End WorkerShardInfo.

(** [generateShardInfo] *)
Definition generateShardInfo (shard : Shard.t) : WorkerShardInfo.t :=
  {| WorkerShardInfo.open := Shard.isOpen shard;
     WorkerShardInfo.shardId := Shard.id shard;
     WorkerShardInfo.latency := Shard.latency shard;
     WorkerShardInfo.resumable := Shard.resumable shard |}.

(** ** Static configuration: [workerData] and the client options *)

Module WorkerData.
Record t := {
  debug : bool;
  intents : Z;
  path : string;
  shards : list Z;
  token : string;
  workerId : Z;
  workerProxy : bool;
  totalShards : Z
}.
End WorkerData.

Module WorkerClientOptions.
Record t := {
  handlePayload : bool;        (* is a payload hook configured *)
  sendPayloadToParent : bool;
  has_events : bool            (* is [this.events] defined *)
}.
End WorkerClientOptions.

(** ** Messages *)

(** Manager to worker ([ManagerMessages]), one constructor per [type]. *)
Inductive ManagerMessages :=
| CACHE_RESULT (nonce : string) (result : Value)
| SEND_PAYLOAD (shardId : Z) (nonce : string) (payload : Payload)
| ALLOW_CONNECT (shardId : Z) (presence : Payload)
| SPAWN_SHARDS (info : Payload) (compress : bool)
| SHARD_INFO (shardId : Z) (nonce : string)
| WORKER_INFO (nonce : string)
| BOT_READY
| API_RESPONSE (nonce : string) (response : Value) (error : option Value)
| EXECUTE_EVAL (func : string) (nonce : string)
| EVAL_RESPONSE (nonce : string) (response : Value).

(** Worker to manager, named after the interfaces of [websocket/discord/worker]. *)
Inductive WorkerMessage :=
| WorkerStart (workerId : Z)
| WorkerSendResultPayload (nonce : string) (workerId : Z)
| WorkerRequestConnect (shardId : Z) (workerId : Z)
| WorkerSendShardInfo (info : WorkerShardInfo.t) (nonce : string) (workerId : Z)
| WorkerSendInfo (shards : list WorkerShardInfo.t) (workerId : Z) (nonce : string)
| WorkerSendEvalResponse (response : Value) (workerId : Z) (nonce : string)
| WorkerSendEval (func : string) (toWorkerId : Z) (workerId : Z) (nonce : string)
| WorkerReady (workerId : Z)
| WorkerShardsConnected (workerId : Z)
| WorkerReceivePayload (workerId : Z) (shardId : Z) (t : string).

(** Gateway dispatch packets, by [packet.t].  For the two update events the
    verdict of the de-duplicating filter ([memberUpdateHandler.check],
    [presenceUpdateHandler.check]) comes with the packet. *)
Inductive Packet :=
| GUILD_MEMBER_UPDATE (d : Payload) (check : bool)
| PRESENCE_UPDATE (d : Payload) (check : bool)
| GUILD_DELETE (id : string)
| GUILD_CREATE (id : string)
| INTERACTION_CREATE (d : Payload)
| MESSAGE_CREATE (d : Payload)
| READY (guilds : list string) (user_id : string) (username : string) (application_id : string)
| OTHER (t : string) (d : Payload).

Definition packet_t (p : Packet) : string :=
  match p with
  | GUILD_MEMBER_UPDATE _ _ => "GUILD_MEMBER_UPDATE"
  | PRESENCE_UPDATE _ _ => "PRESENCE_UPDATE"
  | GUILD_DELETE _ => "GUILD_DELETE"
  | GUILD_CREATE _ => "GUILD_CREATE"
  | INTERACTION_CREATE _ => "INTERACTION_CREATE"
  | MESSAGE_CREATE _ => "MESSAGE_CREATE"
  | READY _ _ _ _ => "READY"
  | OTHER t _ => t
  end.

(** ** Calls on collaborators *)

Inductive Effect :=
| postMessage (body : WorkerMessage)
| logger_fatal (msg : string)
| debugger_debug (shardId : Z) (username : string) (botId : string)
| events_runEvent (name : string) (shardId : Z)
| events_execute (name : string) (shardId : Z)
| collectors_run (name : string)
| cache_onPacket (packet : Packet)
| handleCommand_interaction (d : Payload) (shardId : Z)
| handleCommand_message (d : Payload) (shardId : Z)
| shard_send (shardId : Z) (payload : Payload)
| shard_connect (shardId : Z)
| options_handlePayload (shardId : Z) (t : string)
| adapter_resolve (nonce : string) (result : Value)
| rest_resolve (nonce : string) (response : Value)
| rest_reject (nonce : string) (error : Value)
| unhandledRejection (e : Value).

(** How a handler ends. *)
Inductive Completion :=
| Normal
| Throw (e : Value).

(** The outcome of awaiting [eval(`(${func})(this)`)]. *)
Inductive EvalOutcome :=
| Returns (v : Value)
| Throws (e : Value).

(** ** Promises and timers *)

Inductive PromiseState :=
| Pending
| Fulfilled (v : Value)
| Rejected (message : string).      (* rejected with [new Error(message)] *)

(** An entry of [promises]: the [resolve] function of a promise (the
    promise's cell) and the handle that [setTimeout] returned. *)
Module PendingCall.
Record t := { resolve : nat; timeout : nat }.
End PendingCall.

(** A scheduled [setTimeout] callback of [generateSendPromise]: the
    closure holds [nonce], [message] and the promise's [rej]. *)
Record Timer := {
  deadline : N;
  timer_nonce : string;
  timer_message : string;
  timer_reject : nat
}.

Record Runtime := {
  timers : list (nat * Timer);        (* pending timeouts, oldest first *)
  next_timer : nat;
  futures : gmap nat PromiseState;    (* the promises created so far *)
  next_promise : nat;
  clock : N                           (* milliseconds *)
}.

(** Settling a promise: only a pending promise changes. *)
Definition settle (p : nat) (s : PromiseState) (fs : gmap nat PromiseState)
  : gmap nat PromiseState :=
  match fs !! p with
  | Some Pending => <[p := s]> fs
  | _ => fs
  end.

Definition clearTimeout (h : nat) (ts : list (nat * Timer)) : list (nat * Timer) :=
  filter (fun ht => fst ht <> h) ts.

(** ** The worker client *)

Record Identity := {
  botId : string;
  applicationId : string;
  me : string * string                (* ClientUser(user, application) *)
}.

Module WorkerClient.

Record t := {
  __handleGuilds : option (gset string);
  identity : option Identity;
  promises : gmap string PendingCall.t;
  shards : list (Z * Shard.t);
  (* [cache.adapter.promises] when the adapter is a [WorkerAdapter] *)
  adapter_promises : option (gset string);
  (* [rest.workerPromises], defined when requests are proxied *)
  rest_workerPromises : option (gset string);
  runtime : Runtime
}.

(** The instance right after construction: field initialisers of the class. *)
Definition create (adapter rest : option (gset string)) : t :=
  {| __handleGuilds := Some ∅;
     identity := None;
     promises := ∅;
     shards := [];
     adapter_promises := adapter;
     rest_workerPromises := rest;
     runtime := {| timers := []; next_timer := 0; futures := ∅;
                   next_promise := 0; clock := 0%N |} |}.

Definition with_handleGuilds (g : option (gset string)) (c : t) : t :=
  {| __handleGuilds := g; identity := identity c; promises := promises c;
     shards := shards c; adapter_promises := adapter_promises c;
     rest_workerPromises := rest_workerPromises c; runtime := runtime c |}.

Definition with_identity (i : option Identity) (c : t) : t :=
  {| __handleGuilds := __handleGuilds c; identity := i; promises := promises c;
     shards := shards c; adapter_promises := adapter_promises c;
     rest_workerPromises := rest_workerPromises c; runtime := runtime c |}.

Definition with_promises (p : gmap string PendingCall.t) (c : t) : t :=
  {| __handleGuilds := __handleGuilds c; identity := identity c; promises := p;
     shards := shards c; adapter_promises := adapter_promises c;
     rest_workerPromises := rest_workerPromises c; runtime := runtime c |}.

Definition with_shards (s : list (Z * Shard.t)) (c : t) : t :=
  {| __handleGuilds := __handleGuilds c; identity := identity c; promises := promises c;
     shards := s; adapter_promises := adapter_promises c;
     rest_workerPromises := rest_workerPromises c; runtime := runtime c |}.

Definition with_adapter_promises (a : option (gset string)) (c : t) : t :=
  {| __handleGuilds := __handleGuilds c; identity := identity c; promises := promises c;
     shards := shards c; adapter_promises := a;
     rest_workerPromises := rest_workerPromises c; runtime := runtime c |}.

Definition with_rest_workerPromises (r : option (gset string)) (c : t) : t :=
  {| __handleGuilds := __handleGuilds c; identity := identity c; promises := promises c;
     shards := shards c; adapter_promises := adapter_promises c;
     rest_workerPromises := r; runtime := runtime c |}.

Definition with_runtime (r : Runtime) (c : t) : t :=
  {| __handleGuilds := __handleGuilds c; identity := identity c; promises := promises c;
     shards := shards c; adapter_promises := adapter_promises c;
     rest_workerPromises := rest_workerPromises c; runtime := r |}.

(** [get latency()] *)
Definition latency (c : t) : float :=
  let acc := JsMap.forEach (fun acc s => PrimFloat.add acc (Shard.latency s))
               (shards c) PrimFloat.zero in
  PrimFloat.div acc (PrimFloat.of_uint63 (Uint63.of_Z (Z.of_nat (JsMap.size (shards c))))).

(** [[...this.shards.values()].every(shard => shard.data.session_id)] *)
Definition every_session (c : t) : bool :=
  forallb (fun shard => truthy (Shard.data_session_id shard)) (JsMap.values (shards c)).

(** [generateNonce(large)]; [None] when the oracle is exhausted before a
    free nonce is drawn (the recursion would go on). *)
Fixpoint generateNonce (large : bool) (uuids : list string)
    (table : gmap string PendingCall.t) : option (string * list string) :=
  match uuids with
  | [] => None
  | uuid :: rest =>
      let nonce := if large then uuid else split_first "-"%char uuid in
      if decide (is_Some (table !! nonce))
      then generateNonce large rest table
      else Some (nonce, rest)
  end.

(** [generateSendPromise(nonce, message)]: returns the promise. *)
Definition generateSendPromise (nonce : string) (message : string) (c : t) : t * nat :=
  let r := runtime c in
  let p := next_promise r in
  let h := next_timer r in
  let tm := {| deadline := (clock r + 60000)%N; timer_nonce := nonce;
               timer_message := message; timer_reject := p |} in
  let r' := {| timers := timers r ++ [(h, tm)]; next_timer := S h;
               futures := <[p := Pending]> (futures r); next_promise := S p;
               clock := clock r |} in
  (with_promises (<[nonce := {| PendingCall.resolve := p; PendingCall.timeout := h |}]> (promises c))
     (with_runtime r' c), p).

(** The callback given to [setTimeout] in [generateSendPromise]. *)
Definition on_timeout (tm : Timer) (c : t) : t :=
  let r := runtime c in
  with_promises (delete (timer_nonce tm) (promises c))
    (with_runtime {| timers := timers r; next_timer := next_timer r;
                     futures := settle (timer_reject tm) (Rejected (timer_message tm)) (futures r);
                     next_promise := next_promise r; clock := clock r |} c).

(** What can happen to a worker: a message from the manager, a packet
    delivered by a shard to its [handlePayload] callback, a local call of
    [tellWorker], the passing of time, and a connection object changing
    its own state (opening, closing, receiving a session id, ...). *)
Inductive Event :=
| ManagerMessage (data : ManagerMessages)
| ShardPayload (shardId : Z) (payload : Packet)
| TellWorker (workerId : Z) (func : string) (uuids : list string)
| Elapse (dt : N)
| ShardChange (shardId : Z) (f : Shard.t -> Shard.t).

(** The awaits of the [READY] case of [onPacket], after each of which the
    handler reads the instance again. *)
Inductive Await :=
| await_execute             (* [await this.events?.execute(...)] *)
| await_shards_connected    (* [await this.events?.runEvent('WORKER_SHARDS_CONNECTED', ...)] *)
| await_worker_ready.       (* [await this.events?.runEvent('WORKER_READY', ...)] *)

(** A [READY] handler suspended at an await, with the locals it uses
    afterwards. *)
Record Frame := {
  at_await : Await;
  frame_shardId : Z;
  frame_username : string
}.

(** A turn of the event loop: an event arrives and its handler runs up to
    its first await, or the suspended [READY] handler at position [i]
    goes on up to its next await. *)
Inductive Turn :=
| Arrive (e : Event)
| Resume (i : nat).

Section Methods.
(** [GatewayIntentBits.Guilds], declared in [../types]. *)
Variable GatewayIntentBits_Guilds : Z.
(** [new Shard(id, options)], declared in [../websocket]. *)
Variable new_Shard : Z -> Shard.Options -> Shard.t.
(** The result of awaiting [eval] on the source text of a callable
    applied to the instance.  The callable is user code: the embedding has
    its result, not what it does to the instance it is handed. *)
Variable js_eval : string -> t -> EvalOutcome.
Variable workerData : WorkerData.t.
Variable options : WorkerClientOptions.t.

(** [this.events?.m(...)] *)
Definition events_call (e : Effect) : list Effect :=
  if WorkerClientOptions.has_events options then [e] else [].

Definition fatal (msg : string) (c : t) : t * list Effect * Completion :=
  (c, [logger_fatal msg], Normal).

(** One iteration of the loop of [SPAWN_SHARDS]. *)
Definition spawn_shard (info : Payload) (compress : bool)
    (acc : list (Z * Shard.t) * list Effect) (id : Z)
  : list (Z * Shard.t) * list Effect :=
  let registry :=
    match JsMap.get id (fst acc) with
    | Some _ => fst acc
    | None =>
        JsMap.set id
          (new_Shard id
             {| Shard.token := WorkerData.token workerData;
                Shard.intents := WorkerData.intents workerData;
                Shard.info := info;
                Shard.compress := compress;
                Shard.presence := None |})
          (fst acc)
    end in
  (registry,
   snd acc ++ [postMessage (WorkerRequestConnect id (WorkerData.workerId workerData))]).

(** [handleManagerMessages(data)] *)
Definition handleManagerMessages (data : ManagerMessages) (c : t)
  : t * list Effect * Completion :=
  match data with
  | CACHE_RESULT nonce result =>
      match adapter_promises c with
      | Some table =>
          if decide (nonce ∈ table)
          then (with_adapter_promises (Some (table ∖ {[nonce]})) c,
                [adapter_resolve nonce result], Normal)
          else (c, [], Normal)
      | None => (c, [], Normal)
      end
  | SEND_PAYLOAD shardId nonce payload =>
      match JsMap.get shardId (shards c) with
      | None => fatal "Worker trying send payload by non-existent shard" c
      | Some shard =>
          (c, [shard_send shardId payload;
               postMessage (WorkerSendResultPayload nonce (WorkerData.workerId workerData))],
           Normal)
      end
  | ALLOW_CONNECT shardId presence =>
      match JsMap.get shardId (shards c) with
      | None => fatal "Worker trying connect non-existent shard" c
      | Some shard =>
          (with_shards (JsMap.set shardId (Shard.set_presence presence shard) (shards c)) c,
           [shard_connect shardId], Normal)
      end
  | SPAWN_SHARDS info compress =>
      let r := fold_left (spawn_shard info compress)
                 (WorkerData.shards workerData) (shards c, []) in
      (with_shards (fst r) c, snd r, Normal)
  | SHARD_INFO shardId nonce =>
      match JsMap.get shardId (shards c) with
      | None => fatal "Worker trying get non-existent shard" c
      | Some shard =>
          (c, [postMessage (WorkerSendShardInfo (generateShardInfo shard) nonce
                              (WorkerData.workerId workerData))], Normal)
      end
  | WORKER_INFO nonce =>
      (c, [postMessage (WorkerSendInfo (map generateShardInfo (JsMap.values (shards c)))
                          (WorkerData.workerId workerData) nonce)], Normal)
  | BOT_READY => (c, events_call (events_runEvent "BOT_READY" (-1)), Normal)
  | API_RESPONSE nonce response error =>
      match rest_workerPromises c with
      | None => (c, [], Throw (VError "TypeError"))
      | Some table =>
          if decide (nonce ∈ table)
          then (with_rest_workerPromises (Some (table ∖ {[nonce]})) c,
                [match error with
                 | Some e =>
                     if truthy_value e then rest_reject nonce e
                     else rest_resolve nonce response
                 | None => rest_resolve nonce response
                 end], Normal)
          else (c, [], Normal)
      end
  | EXECUTE_EVAL func nonce =>
      let result :=
        match js_eval func c with
        | Returns v => v
        | Throws e => e
        end in
      (c, [postMessage (WorkerSendEvalResponse result
                          (WorkerData.workerId workerData) nonce)], Normal)
  | EVAL_RESPONSE nonce response =>
      match promises c !! nonce with
      | None => (c, [], Normal)
      | Some evalResponse =>
          let r := runtime c in
          (with_promises (delete nonce (promises c))
             (with_runtime
                {| timers := clearTimeout (PendingCall.timeout evalResponse) (timers r);
                   next_timer := next_timer r;
                   futures := settle (PendingCall.resolve evalResponse)
                                (Fulfilled response) (futures r);
                   next_promise := next_promise r;
                   clock := clock r |} c),
           [], Normal)
      end
  end.

(** [tellWorker(workerId, func)]: the new instance, the calls made and
    the returned promise. *)
Definition tellWorker (toWorkerId : Z) (func : string) (uuids : list string) (c : t)
  : option (t * list Effect * nat) :=
  match generateNonce true uuids (promises c) with
  | None => None
  | Some (nonce, _) =>
      let r := generateSendPromise nonce "Timeout" c in
      Some (fst r,
            [postMessage (WorkerSendEval func toWorkerId
                            (WorkerData.workerId workerData) nonce)],
            snd r)
  end.

Definition announce_ready : list Effect :=
  postMessage (WorkerReady (WorkerData.workerId workerData))
    :: events_call (events_runEvent "WORKER_READY" (-1)).

Definition announce_shards_connected : list Effect :=
  postMessage (WorkerShardsConnected (WorkerData.workerId workerData))
    :: events_call (events_runEvent "WORKER_SHARDS_CONNECTED" (-1)).

(** The [GUILD_DELETE]/[GUILD_CREATE] case of [onPacket]. *)
Definition onGuild (packet : Packet) (id : string) (shardId : Z) (c : t)
  : t * list Effect :=
  match __handleGuilds c with
  | Some guilds =>
      if decide (id ∈ guilds) then
        let guilds' := guilds ∖ {[id]} in
        if Nat.eqb (size guilds') 0 && every_session c
        then (with_handleGuilds None c, cache_onPacket packet :: announce_ready)
        else if Nat.eqb (size guilds') 0
        then (with_handleGuilds None c, [cache_onPacket packet])
        else (with_handleGuilds (Some guilds') c, [cache_onPacket packet])
      else (c, events_call (events_execute (packet_t packet) shardId))
  | None => (c, events_call (events_execute (packet_t packet) shardId))
  end.

(** The [READY] case of [onPacket] when nothing else is handled during
    its awaits: the parts [onReady_enter] and [onReady_resume] given below,
    one after the other ([onReady_uninterrupted]). *)
Definition onReady (guilds : list string) (user_id username application_id : string)
    (shardId : Z) (c : t) : t * list Effect :=
  let set0 := match __handleGuilds c with Some s => s | None => ∅ end in
  let set1 := fold_left (fun s g => {[g]} ∪ s) guilds set0 in
  let c1 := with_identity
              (Some {| botId := user_id; applicationId := application_id;
                       me := (user_id, application_id) |}) c in
  let out1 := events_call (events_execute "READY" shardId)
              ++ (if every_session c then announce_shards_connected else []) in
  let dbg := if WorkerData.debug workerData
             then [debugger_debug shardId username user_id] else [] in
  if negb (negb (Nat.eqb (size set1) 0)
           && Z.eqb (js_band (WorkerData.intents workerData) GatewayIntentBits_Guilds)
                GatewayIntentBits_Guilds)
  then (with_handleGuilds None c1,
        out1 ++ (if every_session c then announce_ready else []) ++ dbg)
  else (with_handleGuilds (Some set1) c1, out1 ++ dbg).

(** [onPacket(packet, shardId)] *)
Definition onPacket (packet : Packet) (shardId : Z) (c : t) : t * list Effect :=
  let raw := events_call (events_runEvent "RAW" shardId) ++ [collectors_run "RAW"] in
  let r :=
    match packet with
    | GUILD_MEMBER_UPDATE d check | PRESENCE_UPDATE d check =>
        if check then (c, events_call (events_execute (packet_t packet) shardId))
        else (c, [])
    | GUILD_DELETE id | GUILD_CREATE id => onGuild packet id shardId c
    | INTERACTION_CREATE d =>
        (c, events_call (events_execute (packet_t packet) shardId)
            ++ [handleCommand_interaction d shardId])
    | MESSAGE_CREATE d =>
        (c, events_call (events_execute (packet_t packet) shardId)
            ++ [handleCommand_message d shardId])
    | READY guilds user_id username application_id =>
        onReady guilds user_id username application_id shardId c
    | OTHER _ _ => (c, events_call (events_execute (packet_t packet) shardId))
    end in
  (fst r, raw ++ snd r).

(** The [handlePayload] callback that [SPAWN_SHARDS] gives to a shard. *)
Definition shard_handlePayload (shardId : Z) (payload : Packet) (c : t) : t * list Effect :=
  let r := onPacket payload shardId c in
  (fst r,
   (if WorkerClientOptions.handlePayload options
    then [options_handlePayload shardId (packet_t payload)] else [])
   ++ snd r
   ++ (if WorkerClientOptions.sendPayloadToParent options
       then [postMessage (WorkerReceivePayload (WorkerData.workerId workerData)
                            shardId (packet_t payload))]
       else [])).

(** Time passes: the timeouts that are due run, oldest first. *)
Definition elapse (dt : N) (c : t) : t :=
  let r := runtime c in
  let now := (clock r + dt)%N in
  let due := filter (fun ht => (deadline (snd ht) <= now)%N) (timers r) in
  let rest := filter (fun ht => ~ (deadline (snd ht) <= now)%N) (timers r) in
  fold_left (fun c ht => on_timeout (snd ht) c) due
    (with_runtime {| timers := rest; next_timer := next_timer r;
                     futures := futures r; next_promise := next_promise r;
                     clock := now |} c).

Definition shard_change (shardId : Z) (f : Shard.t -> Shard.t) (c : t) : t :=
  match JsMap.get shardId (shards c) with
  | Some shard => with_shards (JsMap.set shardId (f shard) (shards c)) c
  | None => c
  end.

(** One event; [None] when [tellWorker] does not return. *)
Definition step (e : Event) (c : t) : option (t * list Effect) :=
  match e with
  | ManagerMessage data =>
      let '(c', out, k) := handleManagerMessages data c in
      Some (c', out ++ match k with Normal => [] | Throw v => [unhandledRejection v] end)
  | ShardPayload shardId payload => Some (shard_handlePayload shardId payload c)
  | TellWorker toWorkerId func uuids =>
      match tellWorker toWorkerId func uuids c with
      | Some (c', out, _) => Some (c', out)
      | None => None
      end
  | Elapse dt => Some (elapse dt c, [])
  | ShardChange shardId f => Some (shard_change shardId f c, [])
  end.

Fixpoint run (evs : list Event) (c : t) : option (t * list Effect) :=
  match evs with
  | [] => Some (c, [])
  | e :: evs' =>
      match step e c with
      | None => None
      | Some (c1, out1) =>
          match run evs' c1 with
          | None => None
          | Some (c2, out2) => Some (c2, out1 ++ out2)
          end
      end
  end.

(** *** The [READY] case, await by await *)

(** From the [case 'READY'] label to the first await: the guilds of the
    packet are added to the readiness set (a new set if there is none),
    the identity is recorded and the event handler is called. *)
Definition onReady_enter (guilds : list string) (user_id application_id : string)
    (shardId : Z) (c : t) : t * list Effect :=
  let set0 := match __handleGuilds c with Some s => s | None => ∅ end in
  let set1 := fold_left (fun s g => {[g]} ∪ s) guilds set0 in
  (with_handleGuilds (Some set1)
     (with_identity
        (Some {| botId := user_id; applicationId := application_id;
                 me := (user_id, application_id) |}) c),
   events_call (events_execute "READY" shardId)).

(** The end of the handler: the debug line, which prints [this.botId] as
    it is by then, and the forward to the manager that the [handlePayload]
    callback makes once [onPacket] has returned. *)
Definition onReady_finish (fr : Frame) (c : t) : list Effect :=
  (if WorkerData.debug workerData
   then [debugger_debug (frame_shardId fr) (frame_username fr)
           match identity c with Some i => botId i | None => "undefined" end]
   else [])
  ++ (if WorkerClientOptions.sendPayloadToParent options
      then [postMessage (WorkerReceivePayload (WorkerData.workerId workerData)
                           (frame_shardId fr) "READY")]
      else []).

(** The second test of the [READY] case, on the readiness set and the
    intents as they are when it is reached: it announces readiness and
    awaits the event, or deletes the set, or leaves it. *)
Definition onReady_settle (fr : Frame) (c : t) : t * list Effect * option Frame :=
  let size_truthy :=
    match __handleGuilds c with
    | Some s => negb (Nat.eqb (size s) 0)
    | None => false
    end in
  if negb (size_truthy
           && Z.eqb (js_band (WorkerData.intents workerData) GatewayIntentBits_Guilds)
                GatewayIntentBits_Guilds)
  then if every_session c
       then (c, announce_ready,
             Some {| at_await := await_worker_ready; frame_shardId := frame_shardId fr;
                     frame_username := frame_username fr |})
       else (with_handleGuilds None c, onReady_finish fr (with_handleGuilds None c), None)
  else (c, onReady_finish fr c, None).

(** The handler goes on from the await it was suspended at, up to its
    next await ([Some] frame) or to its end ([None]). *)
Definition onReady_resume (fr : Frame) (c : t) : t * list Effect * option Frame :=
  match at_await fr with
  | await_execute =>
      if every_session c
      then (c, announce_shards_connected,
            Some {| at_await := await_shards_connected; frame_shardId := frame_shardId fr;
                    frame_username := frame_username fr |})
      else onReady_settle fr c
  | await_shards_connected => onReady_settle fr c
  | await_worker_ready =>
      (with_handleGuilds None c, onReady_finish fr (with_handleGuilds None c), None)
  end.

(** One turn of the event loop on the instance and the suspended [READY]
    handlers (oldest first); [None] when there is no such turn: no handler
    at that position, or a [tellWorker] that does not return. *)
Definition turn (o : Turn) (s : t * list Frame) : option (t * list Frame * list Effect) :=
  match o with
  | Arrive (ShardPayload shardId (READY guilds user_id username application_id)) =>
      let r := onReady_enter guilds user_id application_id shardId (fst s) in
      Some (fst r,
            snd s ++ [{| at_await := await_execute; frame_shardId := shardId;
                         frame_username := username |}],
            (if WorkerClientOptions.handlePayload options
             then [options_handlePayload shardId "READY"] else [])
            ++ (events_call (events_runEvent "RAW" shardId) ++ [collectors_run "RAW"])
            ++ snd r)
  | Arrive e =>
      match step e (fst s) with
      | Some (c', out) => Some (c', snd s, out)
      | None => None
      end
  | Resume i =>
      match snd s !! i with
      | Some fr =>
          let '(c', out, next) := onReady_resume fr (fst s) in
          Some (c',
                match next with
                | Some fr' => <[i := fr']> (snd s)
                | None => delete i (snd s)
                end,
                out)
      | None => None
      end
  end.

Fixpoint turns (os : list Turn) (s : t * list Frame)
  : option (t * list Frame * list Effect) :=
  match os with
  | [] => Some (s, [])
  | o :: os' =>
      match turn o s with
      | None => None
      | Some (s1, out1) =>
          match turns os' s1 with
          | None => None
          | Some (s2, out2) => Some (s2, out1 ++ out2)
          end
      end
  end.
End Methods.
End WorkerClient.


(** ** The latency getter, in the words of its description *)

(** The sum of the latencies, taken in registry order in floating point. *)
Fixpoint latency_sum (acc : float) (l : list Shard.t) : float :=
  match l with
  | [] => acc
  | s :: l' => latency_sum (PrimFloat.add acc (Shard.latency s)) l'
  end.

(** Sum of all shards' latencies divided by the number of shards. *)
Definition mean_latency (l : list Shard.t) : float :=
  PrimFloat.div (latency_sum PrimFloat.zero l)
    (PrimFloat.of_uint63 (Uint63.of_Z (Z.of_nat (length l)))).

(** The nonce that [generateNonce] derives from one draw of [randomUUID]. *)
Definition nonce_of (large : bool) (uuid : string) : string :=
  if large then uuid else split_first "-"%char uuid.

(** The shard id that an instruction names, if it names one. *)
Definition names_shard (data : ManagerMessages) : option Z :=
  match data with
  | SEND_PAYLOAD shardId _ _ | ALLOW_CONNECT shardId _ | SHARD_INFO shardId _ => Some shardId
  | _ => None
  end.

(** ** Reading a trace *)

(** The readiness announcement: a [WORKER_READY] message to the manager. *)
Definition is_WorkerReady (e : Effect) : bool :=
  match e with
  | postMessage (WorkerReady _) => true
  | _ => false
  end.

(** How many readiness announcements a list of calls holds. *)
Definition announcements (out : list Effect) : nat :=
  length (List.filter is_WorkerReady out).

(** The event is a guild-create or guild-delete packet for guild [g]. *)
Definition observes (g : string) (e : WorkerClient.Event) : bool :=
  match e with
  | WorkerClient.ShardPayload _ (GUILD_CREATE id)
  | WorkerClient.ShardPayload _ (GUILD_DELETE id) => String.eqb id g
  | _ => false
  end.

Definition observed (g : string) (evs : list WorkerClient.Event) : Prop :=
  existsb (observes g) evs = true.

(** The event is a session-start packet. *)
Definition is_READY (e : WorkerClient.Event) : bool :=
  match e with
  | WorkerClient.ShardPayload _ (READY _ _ _ _) => true
  | _ => false
  end.

(** [(workerData.intents & GatewayIntentBits.Guilds) === GatewayIntentBits.Guilds] *)
Definition guilds_intent (GatewayIntentBits_Guilds : Z) (workerData : WorkerData.t) : bool :=
  Z.eqb (js_band (WorkerData.intents workerData) GatewayIntentBits_Guilds)
    GatewayIntentBits_Guilds.

(** The readiness set is absent or holds at least one guild. *)
Definition nonempty_if_present (c : WorkerClient.t) : Prop :=
  match WorkerClient.__handleGuilds c with
  | Some guilds => guilds <> ∅
  | None => True
  end.

(** Every guild of [waiting] has been observed in [seen] or is still in
    the readiness set. *)
Definition observed_or_pending (waiting : gset string) (seen : list WorkerClient.Event)
    (c : WorkerClient.t) : Prop :=
  forall g, g ∈ waiting ->
    observed g seen
    \/ exists guilds, WorkerClient.__handleGuilds c = Some guilds /\ g ∈ guilds.

(** ** Reading the pending-call table *)

(** The instance is consistent: timer handles are distinct and below the
    next handle; every pending timeout belongs to the entry of its nonce;
    the promise and the handle of an entry are below the next ones and are
    not shared with another entry. *)
Definition wf (c : WorkerClient.t) : Prop :=
  NoDup (map fst (timers (WorkerClient.runtime c)))
  /\ (forall h tm,
        (h, tm) ∈ timers (WorkerClient.runtime c) ->
        h < next_timer (WorkerClient.runtime c)
        /\ WorkerClient.promises c !! timer_nonce tm
           = Some {| PendingCall.resolve := timer_reject tm; PendingCall.timeout := h |})
  /\ (forall n e,
        WorkerClient.promises c !! n = Some e ->
        PendingCall.resolve e < next_promise (WorkerClient.runtime c)
        /\ PendingCall.timeout e < next_timer (WorkerClient.runtime c))
  /\ (forall n1 n2 e1 e2,
        WorkerClient.promises c !! n1 = Some e1 ->
        WorkerClient.promises c !! n2 = Some e2 ->
        PendingCall.resolve e1 = PendingCall.resolve e2
        \/ PendingCall.timeout e1 = PendingCall.timeout e2 ->
        n1 = n2).

(** The call issued for [n] is still waiting: its entry, its timeout [tm]
    under handle [h] and its pending promise [p] are in place and the
    deadline has not come. *)
Definition waiting_call (n : string) (p h : nat) (tm : Timer) (c : WorkerClient.t) : Prop :=
  WorkerClient.promises c !! n = Some {| PendingCall.resolve := p; PendingCall.timeout := h |}
  /\ (h, tm) ∈ timers (WorkerClient.runtime c)
  /\ futures (WorkerClient.runtime c) !! p = Some Pending
  /\ (clock (WorkerClient.runtime c) < deadline tm)%N.

(** The event is an eval response for nonce [n]. *)
Definition responds (n : string) (e : WorkerClient.Event) : bool :=
  match e with
  | WorkerClient.ManagerMessage (EVAL_RESPONSE nonce _) => String.eqb nonce n
  | _ => false
  end.

(** The time that passes during a list of events. *)
Definition elapsed (evs : list WorkerClient.Event) : N :=
  fold_right (fun e t => match e with WorkerClient.Elapse dt => (dt + t)%N | _ => t end)
    0%N evs.

(** ** Reading a schedule *)

(** The events that arrive in a list of turns, in order. *)
Definition arrivals (os : list WorkerClient.Turn) : list WorkerClient.Event :=
  flat_map (fun o => match o with
                     | WorkerClient.Arrive e => [e]
                     | WorkerClient.Resume _ => []
                     end) os.

(** The event is a packet whose handling reads or writes the readiness
    set: session start, guild create, guild delete. *)
Definition touches_readiness (e : WorkerClient.Event) : bool :=
  match e with
  | WorkerClient.ShardPayload _ (READY _ _ _ _)
  | WorkerClient.ShardPayload _ (GUILD_CREATE _)
  | WorkerClient.ShardPayload _ (GUILD_DELETE _) => true
  | _ => false
  end.

(** The turn does not take such a packet while a [READY] handler is
    suspended. *)
Definition undisturbed_turn (o : WorkerClient.Turn)
    (s : WorkerClient.t * list WorkerClient.Frame) : bool :=
  match o with
  | WorkerClient.Arrive e =>
      negb (touches_readiness e) || match snd s with [] => true | _ :: _ => false end
  | WorkerClient.Resume _ => true
  end.

(** The readiness set is absent or empty: [!this.__handleGuilds?.size]. *)
Definition nothing_awaited (c : WorkerClient.t) : Prop :=
  match WorkerClient.__handleGuilds c with
  | Some guilds => guilds = ∅
  | None => True
  end.

(** The event is an execute-eval instruction. *)
Definition is_EXECUTE_EVAL (e : WorkerClient.Event) : bool :=
  match e with
  | WorkerClient.ManagerMessage (EXECUTE_EVAL _ _) => true
  | _ => false
  end.

(** What holds of a window under an undisturbed schedule: every guild of
    [waiting] has been observed or is still in the readiness set; and a
    handler suspended after its announcement found nothing awaited, which
    is still so. *)
Definition window (waiting : gset string) (seen : list WorkerClient.Event)
    (s : WorkerClient.t * list WorkerClient.Frame) : Prop :=
  observed_or_pending waiting seen (fst s)
  /\ (forall fr, fr ∈ snd s ->
        WorkerClient.at_await fr = WorkerClient.await_worker_ready ->
        nothing_awaited (fst s)).

(** At most one handler is suspended; if one is, it has not passed its
    second test and a guild is still awaited. *)
Definition open_window (s : WorkerClient.t * list WorkerClient.Frame) : Prop :=
  match snd s with
  | [] => True
  | [fr] =>
      WorkerClient.at_await fr <> WorkerClient.await_worker_ready
      /\ ~ nothing_awaited (fst s)
  | _ => False
  end.

Section Schedule.
Variable GatewayIntentBits_Guilds : Z.
Variable new_Shard : Z -> Shard.Options -> Shard.t.
Variable js_eval : string -> WorkerClient.t -> EvalOutcome.
Variable workerData : WorkerData.t.
Variable options : WorkerClientOptions.t.

(** Every turn of the schedule, run from [s], is undisturbed. *)
Fixpoint undisturbed (os : list WorkerClient.Turn)
    (s : WorkerClient.t * list WorkerClient.Frame) : bool :=
  match os with
  | [] => true
  | o :: os' =>
      undisturbed_turn o s
      && match WorkerClient.turn GatewayIntentBits_Guilds new_Shard js_eval workerData
                 options o s with
         | Some (s', _) => undisturbed os' s'
         | None => true
         end
  end.
End Schedule.

(** ** Sample instances *)

(** The samples take [GatewayIntentBits.Guilds] to be [1] (bit 0, [1 << 0]),
    so intents [1] include it and intents [512] do not. *)
Module Sample.
Definition workerData : WorkerData.t :=
  {| WorkerData.debug := false; WorkerData.intents := 1; WorkerData.path := "bot.js";
     WorkerData.shards := [0; 1]%Z; WorkerData.token := "token"; WorkerData.workerId := 7;
     WorkerData.workerProxy := false; WorkerData.totalShards := 2 |}.

(** The same worker without the guilds intent. *)
Definition workerData_no_guilds : WorkerData.t :=
  {| WorkerData.debug := false; WorkerData.intents := 512; WorkerData.path := "bot.js";
     WorkerData.shards := [0; 1]%Z; WorkerData.token := "token"; WorkerData.workerId := 7;
     WorkerData.workerProxy := false; WorkerData.totalShards := 2 |}.

Definition options : WorkerClientOptions.t :=
  {| WorkerClientOptions.handlePayload := false;
     WorkerClientOptions.sendPayloadToParent := false;
     WorkerClientOptions.has_events := true |}.

Definition shard (id : Z) (latency : float) (session : option string) : Shard.t :=
  {| Shard.id := id; Shard.isOpen := true; Shard.latency := latency;
     Shard.resumable := true; Shard.data_session_id := session;
     Shard.options := {| Shard.token := "token"; Shard.intents := 1; Shard.info := "info";
                         Shard.compress := false; Shard.presence := None |} |}.

Definition new_Shard (id : Z) (o : Shard.Options) : Shard.t :=
  {| Shard.id := id; Shard.isOpen := false; Shard.latency := PrimFloat.infinity;
     Shard.resumable := false; Shard.data_session_id := None; Shard.options := o |}.

(** An evaluator: the source text ["throw"] throws, any other returns its text. *)
Definition js_eval (func : string) (c : WorkerClient.t) : EvalOutcome :=
  if String.eqb func "throw" then Throws (VError "boom") else Returns (VString func).

Definition fresh : WorkerClient.t := WorkerClient.create None None.

(** Two shards, both with a session. *)
Definition connected : WorkerClient.t :=
  WorkerClient.with_shards
    [(0%Z, shard 0 10%float (Some "s0")); (1%Z, shard 1 30%float (Some "s1"))] fresh.

(** Two shards, the second still without a session. *)
Definition half_connected : WorkerClient.t :=
  WorkerClient.with_shards
    [(0%Z, shard 0 10%float (Some "s0")); (1%Z, shard 1 30%float None)] fresh.

(** The session-start packet of shard 0, listing one guild. *)
Definition ready1 : Packet := READY ["g1"] "bot" "name" "app".

(** [connected] after [ready1]: a settling window waiting for ["g1"]. *)
Definition settling : WorkerClient.t :=
  fst (WorkerClient.onPacket 1 workerData options ready1 0 connected).

(** A start-up of the two-shard worker in which only shard 0 gets a
    session and its session-start packet lists one guild. *)
Definition first_shard_ready : list WorkerClient.Event :=
  [ WorkerClient.ManagerMessage (SPAWN_SHARDS "info" false);
    WorkerClient.ShardChange 0 (fun _ => shard 0 10%float (Some "s0"));
    WorkerClient.ShardPayload 0 ready1 ].

(** A call issued on the new instance under nonce ["n1"]. *)
Definition issued : WorkerClient.t :=
  fst (WorkerClient.generateSendPromise "n1" "Timeout" fresh).

(** 59999 ms in which another response and another call come. *)
Definition quiet : list WorkerClient.Event :=
  [ WorkerClient.Elapse 59000;
    WorkerClient.ManagerMessage (EVAL_RESPONSE "other" VUndefined);
    WorkerClient.TellWorker 2 "f" ["n1"; "n2"];
    WorkerClient.Elapse 999 ].

Definition quiet_run : option (WorkerClient.t * list Effect) :=
  WorkerClient.run 1 new_Shard js_eval workerData options quiet issued.

Definition before_deadline : WorkerClient.t :=
  match quiet_run with Some r => fst r | None => issued end.

(** The same, followed by the create packet of that guild. *)
Definition first_shard_only : list WorkerClient.Event :=
  first_shard_ready ++ [WorkerClient.ShardPayload 0 (GUILD_CREATE "g1")].

(** The create packet of the guild is taken while the session-start
    handler is suspended at its first await; the handler is then resumed
    to its end. *)
Definition overlapping : list WorkerClient.Turn :=
  [ WorkerClient.Arrive (WorkerClient.ShardPayload 0 ready1);
    WorkerClient.Arrive (WorkerClient.ShardPayload 0 (GUILD_CREATE "g1"));
    WorkerClient.Resume 0; WorkerClient.Resume 0; WorkerClient.Resume 0 ].

(** The session-start packet of a shard without guilds, handled up to its
    third await. *)
Definition first_handler : list WorkerClient.Turn :=
  [ WorkerClient.Arrive (WorkerClient.ShardPayload 0 (READY [] "bot" "name" "app"));
    WorkerClient.Resume 0; WorkerClient.Resume 0 ].

(** The session-start packet of the other shard, listing one guild, is
    taken next; the first handler is resumed to its end, then the second. *)
Definition second_handler : list WorkerClient.Turn :=
  [ WorkerClient.Arrive (WorkerClient.ShardPayload 1 (READY ["g2"] "bot" "name" "app"));
    WorkerClient.Resume 0;
    WorkerClient.Resume 0; WorkerClient.Resume 0; WorkerClient.Resume 0 ].

(** A window for two guilds in which a query and the resumptions of the
    handler come before the guild packets. *)
Definition interleaved : list WorkerClient.Turn :=
  [ WorkerClient.Arrive (WorkerClient.ManagerMessage (WORKER_INFO "q"));
    WorkerClient.Resume 0;
    WorkerClient.Arrive (WorkerClient.Elapse 5);
    WorkerClient.Resume 0;
    WorkerClient.Arrive (WorkerClient.ShardPayload 0 (GUILD_CREATE "g1")) ].
End Sample.

(** ** Reading the messages of a trace *)

(** The [workerId] field of a message to the manager. *)
Definition message_workerId (m : WorkerMessage) : Z :=
  match m with
  | WorkerStart w | WorkerSendResultPayload _ w | WorkerRequestConnect _ w
  | WorkerSendShardInfo _ _ w | WorkerSendInfo _ w _ | WorkerSendEvalResponse _ w _
  | WorkerSendEval _ _ w _ | WorkerReady w | WorkerShardsConnected w
  | WorkerReceivePayload w _ _ => w
  end.

(** The [nonce] field of a message to the manager, when it has one. *)
Definition message_nonce (m : WorkerMessage) : option string :=
  match m with
  | WorkerSendResultPayload n _ | WorkerSendShardInfo _ n _ | WorkerSendInfo _ _ n
  | WorkerSendEvalResponse _ _ n | WorkerSendEval _ _ _ n => Some n
  | _ => None
  end.

(** The [nonce] field of an instruction, when it has one. *)
Definition instruction_nonce (data : ManagerMessages) : option string :=
  match data with
  | CACHE_RESULT n _ | SEND_PAYLOAD _ n _ | SHARD_INFO _ n | WORKER_INFO n
  | API_RESPONSE n _ _ | EXECUTE_EVAL _ n | EVAL_RESPONSE n _ => Some n
  | _ => None
  end.

(** The messages posted to the manager, in order. *)
Definition posted (out : list Effect) : list WorkerMessage :=
  flat_map (fun e => match e with postMessage m => [m] | _ => [] end) out.

Definition is_WorkerShardsConnected (e : Effect) : bool :=
  match e with
  | postMessage (WorkerShardsConnected _) => true
  | _ => false
  end.

(** How many "shards connected" announcements a list of calls holds. *)
Definition shards_connected (out : list Effect) : nat :=
  length (List.filter is_WorkerShardsConnected out).

Definition is_fatal (e : Effect) : bool :=
  match e with
  | logger_fatal _ => true
  | _ => false
  end.

Definition is_cache_onPacket (e : Effect) : bool :=
  match e with
  | cache_onPacket _ => true
  | _ => false
  end.

Definition is_events_execute (e : Effect) : bool :=
  match e with
  | events_execute _ _ => true
  | _ => false
  end.

(** The instruction delivers a correlated response (cache result, API
    response, eval response). *)
Definition is_response (data : ManagerMessages) : bool :=
  match data with
  | CACHE_RESULT _ _ | API_RESPONSE _ _ _ | EVAL_RESPONSE _ _ => true
  | _ => false
  end.

(** The event cannot add a shard to the registry or replace a shard's
    state, and is not a session-start packet. *)
Definition settles_quietly (e : WorkerClient.Event) : bool :=
  match e with
  | WorkerClient.ManagerMessage (SPAWN_SHARDS _ _) => false
  | WorkerClient.ShardChange _ _ => false
  | WorkerClient.ShardPayload _ (READY _ _ _ _) => false
  | _ => true
  end.

(** [this.__handleGuilds?.has(id)] *)
Definition awaits (id : string) (c : WorkerClient.t) : bool :=
  match WorkerClient.__handleGuilds c with
  | Some guilds => bool_decide (id ∈ guilds)
  | None => false
  end.

(** The character occurs in the string. *)
Fixpoint contains (ch : ascii) (s : string) : bool :=
  match s with
  | EmptyString => false
  | String c s' => Ascii.eqb c ch || contains ch s'
  end.

(** In a state reached from a new instance, beyond [wf]: every entry of the
    table has its pending timeout and its pending promise, no deadline is
    more than 60000 ms away, and every timeout carries the default message. *)
Definition calls_covered (c : WorkerClient.t) : Prop :=
  (forall n e,
      WorkerClient.promises c !! n = Some e ->
      futures (WorkerClient.runtime c) !! PendingCall.resolve e = Some Pending
      /\ exists tm, (PendingCall.timeout e, tm) ∈ timers (WorkerClient.runtime c)
                    /\ timer_nonce tm = n)
  /\ (forall h tm,
        (h, tm) ∈ timers (WorkerClient.runtime c) ->
        (deadline tm <= clock (WorkerClient.runtime c) + 60000)%N
        /\ timer_message tm = "Timeout").

(** The promise [p] has been settled with [s]. *)
Definition settled_with (p : nat) (s : PromiseState) (c : WorkerClient.t) : Prop :=
  futures (WorkerClient.runtime c) !! p = Some s
  /\ s <> Pending
  /\ p < next_promise (WorkerClient.runtime c).

(** ** Strings: [split] and [join] *)

(** [s.split(sep)] for a one-character separator. *)
Fixpoint split (sep : ascii) (s : string) : list string :=
  match s with
  | EmptyString => [EmptyString]
  | String c s' =>
      if Ascii.eqb c sep then EmptyString :: split sep s'
      else match split sep s' with
           | segment :: segments => String c segment :: segments
           | [] => [String c EmptyString]
           end
  end.

(** [l.join(sep)] *)
Fixpoint join (sep : ascii) (l : list string) : string :=
  match l with
  | [] => EmptyString
  | [x] => x
  | x :: l' => String.append x (String sep (join sep l'))
  end.

(** How often the character occurs in the string. *)
Fixpoint occurrences (ch : ascii) (s : string) : nat :=
  match s with
  | EmptyString => 0
  | String c s' => (if Ascii.eqb c ch then 1 else 0) + occurrences ch s'
  end.

(** ** [workerData] from the environment: the module initialiser *)

Module Env.
Section Load.
(** JavaScript numbers and the two conversions used, applied to a value of
    [process.env] (a string or [undefined]). *)
Variable Num : Type.
Variable parseInt : option string -> Num.
Variable Number : option string -> Num.

Record t := {
  debug : bool;
  intents : Num;
  path : option string;
  shards : list Num;
  token : option string;
  workerId : Num;
  workerProxy : bool;
  totalShards : Num;
  mode : option string
}.

(** [x === 'true'] *)
Definition is_true (x : option string) : bool :=
  match x with
  | Some s => String.eqb s "true"
  | None => false
  end.

(** The [try] block that fills [workerData]: [None] when it throws (the
    [catch] leaves the variable unset), which only [.split] on an unset
    [SEYFERT_WORKER_SHARDS] can cause. *)
Definition load (env : string -> option string) : option t :=
  match env "SEYFERT_WORKER_SHARDS" with
  | None => None
  | Some list =>
      Some {| debug := is_true (env "SEYFERT_WORKER_DEBUG");
              intents := parseInt (env "SEYFERT_WORKER_INTENTS");
              path := env "SEYFERT_WORKER_PATH";
              shards := map (fun id => parseInt (Some id)) (split "," list);
              token := env "SEYFERT_WORKER_TOKEN";
              workerId := parseInt (env "SEYFERT_WORKER_WORKERID");
              workerProxy := is_true (env "SEYFERT_WORKER_WORKERPROXY");
              totalShards := Number (env "SEYFERT_WORKER_TOTALSHARDS");
              mode := env "SEYFERT_WORKER_MODE" |}
  end.
End Load.
End Env.

(** ** [MessageShorter]: message requests and the cache *)

(** Each method is given the outcomes of the promises it awaits from the
    body transformer and from the REST proxy, and returns the calls it made,
    in order, with the outcome of its own promise.  Calls on the cache and
    on the component handler are taken to succeed.  [Transformers.Message]
    wraps the message it is given; the result is represented by that
    message.  [removeIfNI] takes one id or a list of ids: a single id is
    written as a one-element list. *)
Module MessageShorter.

Record APIMessage := {
  id : string;
  channel_id : string;
  content : Payload
}.

(** How an awaited promise ends. *)
Inductive Outcome (A : Type) :=
| Resolves (a : A)
| Rejects (e : Value).
Arguments Resolves {A} a.
Arguments Rejects {A} e.

(** Calls on the collaborators: the body transformer, the REST proxy, the
    message cache, the component handler and the thread shorter. *)
Inductive Call :=
| transformMessageBody (body : Payload)
| messages_post (channelId : string) (body : Payload) (files : list Payload)
| messages_patch (channelId messageId : string) (body : Payload) (files : list Payload)
| crosspost_post (channelId messageId : string) (reason : option string)
| messages_delete (channelId messageId : string) (reason : option string)
| messages_get (channelId messageId : string)
| bulk_delete_post (channelId : string) (messages : list string) (reason : option string)
| polls_expire_post (channelId messageId : string)
| cache_setIfNI (intent : string) (id channel_id : string) (message : APIMessage)
| cache_set (id channel_id : string) (message : APIMessage)
| cache_removeIfNI (intent : string) (ids : list string) (channelId : string)
| components_onMessageDelete (messageId : string).

(** What of the client is optional: [cache.messages] and [components]. *)
Record Client := {
  has_cache_messages : bool;
  has_components : bool
}.

(** [this.client.cache.messages?.m(...)] *)
Definition cache_call (client : Client) (call : Call) : list Call :=
  if has_cache_messages client then [call] else [].

(** The [.then] of the methods that return the message. *)
Definition then_cache (client : Client) (request : list Call)
    (response : Outcome APIMessage) (cache : APIMessage -> Call)
  : list Call * Outcome APIMessage :=
  match response with
  | Resolves message => (request ++ cache_call client (cache message), Resolves message)
  | Rejects e => (request, Rejects e)
  end.

(** [write(channelId, body)]; [transformed] is what [transformMessageBody]
    gives ([files] and the rest of the body), [response] what the REST call
    gives. *)
Definition write (client : Client) (channelId : string) (body : Payload)
    (transformed : Outcome (list Payload * Payload)) (response : Outcome APIMessage)
  : list Call * Outcome APIMessage :=
  match transformed with
  | Rejects e => ([transformMessageBody body], Rejects e)
  | Resolves (files, transformedBody) =>
      then_cache client
        [transformMessageBody body; messages_post channelId transformedBody files]
        response
        (fun message => cache_setIfNI "GuildMessages" (id message) (channel_id message) message)
  end.

(** [edit(messageId, channelId, body)] *)
Definition edit (client : Client) (messageId channelId : string) (body : Payload)
    (transformed : Outcome (list Payload * Payload)) (response : Outcome APIMessage)
  : list Call * Outcome APIMessage :=
  match transformed with
  | Rejects e => ([transformMessageBody body], Rejects e)
  | Resolves (files, transformedBody) =>
      then_cache client
        [transformMessageBody body; messages_patch channelId messageId transformedBody files]
        response
        (fun message => cache_setIfNI "GuildMessages" (id message) (channel_id message) message)
  end.

(** [crosspost(messageId, channelId, reason)] *)
Definition crosspost (client : Client) (messageId channelId : string)
    (reason : option string) (response : Outcome APIMessage)
  : list Call * Outcome APIMessage :=
  then_cache client [crosspost_post channelId messageId reason] response
    (fun m => cache_setIfNI "GuildMessages" (id m) (channel_id m) m).

(** [delete(messageId, channelId, reason)] *)
Definition delete (client : Client) (messageId channelId : string)
    (reason : option string) (response : Outcome unit) : list Call * Outcome unit :=
  match response with
  | Resolves _ =>
      ([messages_delete channelId messageId reason]
       ++ cache_call client (cache_removeIfNI "GuildMessages" [messageId] channelId)
       ++ (if has_components client then [components_onMessageDelete messageId] else []),
       Resolves tt)
  | Rejects e => ([messages_delete channelId messageId reason], Rejects e)
  end.

(** [fetch(messageId, channelId)] *)
Definition fetch (client : Client) (messageId channelId : string)
    (response : Outcome APIMessage) : list Call * Outcome APIMessage :=
  then_cache client [messages_get channelId messageId] response
    (fun x => cache_set (id x) (channel_id x) x).

(** [purge(messages, channelId, reason)] *)
Definition purge (client : Client) (messages : list string) (channelId : string)
    (reason : option string) (response : Outcome unit) : list Call * Outcome unit :=
  match response with
  | Resolves _ =>
      ([bulk_delete_post channelId messages reason]
       ++ cache_call client (cache_removeIfNI "GuildMessages" messages channelId),
       Resolves tt)
  | Rejects e => ([bulk_delete_post channelId messages reason], Rejects e)
  end.

(** [endPoll(channelId, messageId)] *)
Definition endPoll (client : Client) (channelId messageId : string)
    (response : Outcome APIMessage) : list Call * Outcome APIMessage :=
  match response with
  | Resolves message => ([polls_expire_post channelId messageId], Resolves message)
  | Rejects e => ([polls_expire_post channelId messageId], Rejects e)
  end.

(** The call writes to or removes from the message cache, or notifies the
    component handler. *)
Definition touches_local_state (call : Call) : bool :=
  match call with
  | cache_setIfNI _ _ _ _ | cache_set _ _ _ | cache_removeIfNI _ _ _
  | components_onMessageDelete _ => true
  | _ => false
  end.

(** The call is a REST request. *)
Definition is_request (call : Call) : bool :=
  match call with
  | messages_post _ _ _ | messages_patch _ _ _ _ | crosspost_post _ _ _
  | messages_delete _ _ _ | messages_get _ _ | bulk_delete_post _ _ _
  | polls_expire_post _ _ => true
  | _ => false
  end.

(** The message a cache write stores, with the key it is stored under. *)
Definition cached (call : Call) : option (string * string * APIMessage) :=
  match call with
  | cache_setIfNI _ i ch m | cache_set i ch m => Some (i, ch, m)
  | _ => None
  end.

End MessageShorter.

(** * Properties *)

(** ** Latency *)

Lemma forEach_latency_sum (m : list (Z * Shard.t)) (acc : float) :
  JsMap.forEach (fun a s => PrimFloat.add a (Shard.latency s)) m acc
  = latency_sum acc (JsMap.values m).
Proof.
  revert acc. induction m as [| [k s] m IH]; intros acc; simpl; [reflexivity |].
  apply IH.
Qed.

(** C10: the latency getter is the sum of the shards' latencies (added in
    registry order) divided by their number, for every registry; it has no
    guard, and on an empty registry the quotient 0/0 is NaN, not an error. *)
Theorem latency_mean_or_nan (c : WorkerClient.t) :
  WorkerClient.latency c = mean_latency (JsMap.values (WorkerClient.shards c))
  /\ PrimFloat.is_nan (WorkerClient.latency (WorkerClient.with_shards [] c)) = true.
Proof.
  split.
  - unfold WorkerClient.latency, mean_latency, JsMap.size, JsMap.values.
    rewrite forEach_latency_sum, length_map. reflexivity.
  - reflexivity.
Qed.

Example latency_two_shards : WorkerClient.latency Sample.connected = 20%float.
Proof. reflexivity. Qed.

(** ** The registry as a map *)

Section JsMapFacts.
Context {V : Type}.
Implicit Types (m : list (Z * V)) (k : Z) (v : V).

Lemma get_set_eq m k v : JsMap.get k (JsMap.set k v m) = Some v.
Proof.
  induction m as [| [k' v'] m IH]; simpl.
  - rewrite Z.eqb_refl. reflexivity.
  - destruct (Z.eqb k k') eqn:E; simpl; [rewrite Z.eqb_refl | rewrite E]; auto.
Qed.

Lemma get_set_ne m k k' v : k <> k' -> JsMap.get k' (JsMap.set k v m) = JsMap.get k' m.
Proof.
  intros Hne. induction m as [| [k0 v0] m IH]; simpl.
  - destruct (Z.eqb_spec k' k); [congruence | reflexivity].
  - destruct (Z.eqb_spec k k0) as [-> | Hk]; simpl.
    + destruct (Z.eqb_spec k' k0); [congruence | reflexivity].
    + destruct (Z.eqb_spec k' k0); [reflexivity | apply IH].
Qed.

Lemma get_None_keys m k : JsMap.get k m = None <-> k ∉ JsMap.keys m.
Proof.
  induction m as [| [k' v'] m IH]; simpl.
  - split; [intros _; apply not_elem_of_nil | reflexivity].
  - rewrite not_elem_of_cons. destruct (Z.eqb_spec k k') as [-> | Hk].
    + split; [discriminate | intros [? _]; congruence].
    + rewrite IH. tauto.
Qed.

Lemma keys_set_absent m k v :
  JsMap.get k m = None -> JsMap.set k v m = m ++ [(k, v)].
Proof.
  induction m as [| [k' v'] m IH]; simpl; [reflexivity |].
  destruct (Z.eqb_spec k k'); [discriminate |].
  intros H. rewrite IH by assumption. reflexivity.
Qed.

Lemma keys_set_present m k v :
  is_Some (JsMap.get k m) -> JsMap.keys (JsMap.set k v m) = JsMap.keys m.
Proof.
  induction m as [| [k' v'] m IH]; simpl.
  - intros [? ?]; discriminate.
  - destruct (Z.eqb_spec k k') as [-> | Hk]; simpl; [reflexivity |].
    intros H. rewrite IH by assumption. reflexivity.
Qed.

Lemma NoDup_keys_set m k v : NoDup (JsMap.keys m) -> NoDup (JsMap.keys (JsMap.set k v m)).
Proof.
  intros Hnd. destruct (JsMap.get k m) eqn:E.
  - rewrite keys_set_present by eauto. assumption.
  - rewrite keys_set_absent by assumption. unfold JsMap.keys. rewrite map_app. simpl.
    apply NoDup_app. split; [assumption |]. split.
    + intros x Hx Hin. apply list_elem_of_singleton in Hin as ->.
      apply get_None_keys in E. contradiction.
    + apply NoDup_singleton.
Qed.
End JsMapFacts.

(** ** The manager-message router *)

Section Router.
Variable new_Shard : Z -> Shard.Options -> Shard.t.
Variable js_eval : string -> WorkerClient.t -> EvalOutcome.
Variable workerData : WorkerData.t.
Variable options : WorkerClientOptions.t.

Local Abbreviation handle := (WorkerClient.handleManagerMessages new_Shard js_eval workerData options).
Local Abbreviation wid := (WorkerData.workerId workerData).

(** C8: the reply to a shard-info query for a registered shard, and the
    reply to a worker-info query, carry for each reported shard the fields
    [open], [shardId], [latency], [resumable] of the live shard object, and
    the nonce of the query. *)
Theorem shard_info_reply_matches_shard (c : WorkerClient.t) (shardId : Z) (nonce : string) :
  (forall shard,
      JsMap.get shardId (WorkerClient.shards c) = Some shard ->
      exists info,
        handle (SHARD_INFO shardId nonce) c
        = (c, [postMessage (WorkerSendShardInfo info nonce wid)], Normal)
        /\ WorkerShardInfo.open info = Shard.isOpen shard
        /\ WorkerShardInfo.shardId info = Shard.id shard
        /\ WorkerShardInfo.latency info = Shard.latency shard
        /\ WorkerShardInfo.resumable info = Shard.resumable shard)
  /\ (exists infos,
      handle (WORKER_INFO nonce) c
      = (c, [postMessage (WorkerSendInfo infos wid nonce)], Normal)
      /\ Forall2 (fun info s =>
                    WorkerShardInfo.open info = Shard.isOpen s
                    /\ WorkerShardInfo.shardId info = Shard.id s
                    /\ WorkerShardInfo.latency info = Shard.latency s
                    /\ WorkerShardInfo.resumable info = Shard.resumable s)
           infos (JsMap.values (WorkerClient.shards c))).
Proof.
  split.
  - intros shard Hget. exists (generateShardInfo shard). simpl. rewrite Hget. repeat split.
  - exists (map generateShardInfo (JsMap.values (WorkerClient.shards c))).
    split; [reflexivity |].
    induction (JsMap.values (WorkerClient.shards c)) as [| s l IH]; simpl;
      constructor; [repeat split | exact IH].
Qed.

(** C6: an instruction that names a shard absent from the registry logs a
    fatal message and nothing else (no reply), ends normally, leaves the
    whole instance (registry, pending calls, readiness set) as it was, and
    the instructions after it are processed as if it had not come. *)
Theorem unknown_shard_dropped (GatewayIntentBits_Guilds : Z) (c : WorkerClient.t)
    (data : ManagerMessages) (shardId : Z) :
  names_shard data = Some shardId ->
  JsMap.get shardId (WorkerClient.shards c) = None ->
  exists msg,
    handle data c = (c, [logger_fatal msg], Normal)
    /\ forall rest,
      WorkerClient.run GatewayIntentBits_Guilds new_Shard js_eval workerData options
        (WorkerClient.ManagerMessage data :: rest) c
      = match WorkerClient.run GatewayIntentBits_Guilds new_Shard js_eval workerData options
                rest c with
        | Some (c', out) => Some (c', logger_fatal msg :: out)
        | None => None
        end.
Proof.
  intros Hname Hget.
  destruct data; simpl in Hname; try discriminate; injection Hname as ->;
    (eexists; split;
     [ simpl; rewrite Hget; reflexivity
     | intros rest; simpl; rewrite Hget; simpl;
       destruct (WorkerClient.run _ _ _ _ _ rest c) as [[c' out] |]; reflexivity ]).
Qed.

(** C7: an execute-eval instruction sends exactly one eval response, with
    the nonce of the instruction, whether the callable returns or throws;
    a thrown value is the response; the handler ends normally and the
    instance is unchanged. *)
Theorem execute_eval_always_responds (c : WorkerClient.t) (func nonce : string) :
  exists response,
    handle (EXECUTE_EVAL func nonce) c
    = (c, [postMessage (WorkerSendEvalResponse response wid nonce)], Normal)
    /\ match js_eval func c with
       | Returns v => response = v
       | Throws e => response = e
       end.
Proof.
  simpl. destruct (js_eval func c) as [v | e]; eexists; split; reflexivity.
Qed.

(** *** Spawning the assigned shards *)

Local Abbreviation request_connect :=
  (fun id : Z => postMessage (WorkerRequestConnect id wid)).

Local Abbreviation spawned info compress :=
  (fun id : Z =>
     new_Shard id {| Shard.token := WorkerData.token workerData;
                     Shard.intents := WorkerData.intents workerData;
                     Shard.info := info; Shard.compress := compress;
                     Shard.presence := None |}).

Lemma spawn_fold (info : Payload) (compress : bool) (ids : list Z) :
  forall (reg : list (Z * Shard.t)) (out : list Effect),
    let r := fold_left (WorkerClient.spawn_shard new_Shard workerData info compress)
               ids (reg, out) in
    snd r = out ++ map request_connect ids
    /\ (forall id,
          JsMap.get id (fst r)
          = match JsMap.get id reg with
            | Some s => Some s
            | None => if decide (id ∈ ids) then Some (spawned info compress id) else None
            end)
    /\ (NoDup (JsMap.keys reg) -> NoDup (JsMap.keys (fst r)))
    /\ (Forall (fun id => is_Some (JsMap.get id reg)) ids -> fst r = reg).
Proof.
  induction ids as [| i ids IH]; intros reg out; simpl.
  - rewrite app_nil_r. repeat split; auto.
    intros id. destruct (JsMap.get id reg); [reflexivity |].
    destruct (decide (id ∈ [])) as [H | _]; [inversion H | reflexivity].
  - change (fold_left (WorkerClient.spawn_shard new_Shard workerData info compress) ids
              (WorkerClient.spawn_shard new_Shard workerData info compress (reg, out) i))
      with (fold_left (WorkerClient.spawn_shard new_Shard workerData info compress) ids
              (match JsMap.get i reg with
               | Some _ => reg
               | None => JsMap.set i (spawned info compress i) reg
               end, out ++ [request_connect i])).
    specialize (IH (match JsMap.get i reg with
                    | Some _ => reg
                    | None => JsMap.set i (spawned info compress i) reg
                    end) (out ++ [request_connect i])).
    simpl in IH. destruct IH as (Hout & Hget & Hnd & Hid).
    split; [| split; [| split]].
    + rewrite Hout, <- app_assoc. reflexivity.
    + intros id. rewrite Hget. clear Hget Hout Hnd Hid.
      destruct (JsMap.get i reg) as [si |] eqn:Ei.
      * destruct (JsMap.get id reg) eqn:Eid; [reflexivity |].
        assert (id <> i) by congruence.
        destruct (decide (id ∈ ids)), (decide (id ∈ i :: ids)) as [Hin | Hin];
          try reflexivity.
        -- exfalso. apply Hin. right. assumption.
        -- apply elem_of_cons in Hin as [? | ?]; contradiction.
      * destruct (Z.eq_dec i id) as [-> | Hne].
        -- rewrite get_set_eq, Ei.
           destruct (decide (id ∈ id :: ids)) as [_ | Hin]; [reflexivity |].
           exfalso. apply Hin. left.
        -- rewrite get_set_ne by assumption.
           destruct (JsMap.get id reg); [reflexivity |].
           destruct (decide (id ∈ ids)), (decide (id ∈ i :: ids)) as [Hin | Hin];
             try reflexivity.
           ++ exfalso. apply Hin. right. assumption.
           ++ apply elem_of_cons in Hin as [? | ?]; [congruence | contradiction].
    + intros Hreg. apply Hnd. destruct (JsMap.get i reg); [assumption |].
      apply NoDup_keys_set. assumption.
    + intros Hall. apply Forall_cons in Hall as [[si Hi] Hall].
      rewrite Hi in *. apply Hid. assumption.
Qed.

(** C9: a spawn-shards instruction keeps every shard object already in the
    registry and adds a new one exactly for the assigned ids that had none,
    so that keys stay unique; it posts one connect-queue request for every
    assigned id, in order; a second spawn-shards instruction (whatever its
    [info] and [compress]) leaves the instance as the first one left it and
    posts the same requests again. *)
Theorem spawn_shards_idempotent_registry (c : WorkerClient.t) (info : Payload)
    (compress : bool) :
  exists c1,
    handle (SPAWN_SHARDS info compress) c
    = (c1, map request_connect (WorkerData.shards workerData), Normal)
    /\ (forall id,
          JsMap.get id (WorkerClient.shards c1)
          = match JsMap.get id (WorkerClient.shards c) with
            | Some s => Some s
            | None => if decide (id ∈ WorkerData.shards workerData)
                      then Some (spawned info compress id) else None
            end)
    /\ (NoDup (JsMap.keys (WorkerClient.shards c))
        -> NoDup (JsMap.keys (WorkerClient.shards c1)))
    /\ (forall info' compress',
          handle (SPAWN_SHARDS info' compress') c1
          = (c1, map request_connect (WorkerData.shards workerData), Normal)).
Proof.
  destruct (spawn_fold info compress (WorkerData.shards workerData)
              (WorkerClient.shards c) []) as (Hout & Hget & Hnd & _).
  eexists. split; [| split; [| split]].
  - simpl. rewrite Hout. reflexivity.
  - exact Hget.
  - exact Hnd.
  - intros info' compress'. simpl.
    destruct (spawn_fold info' compress' (WorkerData.shards workerData)
                (fold_left (WorkerClient.spawn_shard new_Shard workerData info compress)
                   (WorkerData.shards workerData) (WorkerClient.shards c, [])).1 [])
      as (Hout' & _ & _ & Hid').
    rewrite Hout', Hid'; [reflexivity |].
    apply Forall_forall. intros id Hin. rewrite Hget.
    destruct (JsMap.get id (WorkerClient.shards c)); [eauto |].
    destruct (decide (id ∈ WorkerData.shards workerData)); [eauto | contradiction].
Qed.
End Router.

(** ** Nonce generation *)

(** C5: [generateNonce] skips every draw whose nonce is a key of the table
    and returns the first one that is not; what it returns is never a live
    key; it fails to return only if every draw of the oracle collides. *)
Theorem generateNonce_never_live (large : bool) (uuids : list string)
    (table : gmap string PendingCall.t) :
  match WorkerClient.generateNonce large uuids table with
  | Some (nonce, rest) =>
      table !! nonce = None
      /\ exists colliding uuid,
          uuids = colliding ++ uuid :: rest
          /\ nonce = nonce_of large uuid
          /\ Forall (fun u => is_Some (table !! nonce_of large u)) colliding
  | None => Forall (fun u => is_Some (table !! nonce_of large u)) uuids
  end.
Proof.
  induction uuids as [| uuid rest IH]; simpl; [constructor |].
  fold (nonce_of large uuid).
  destruct (decide (is_Some (table !! nonce_of large uuid))) as [Hlive | Hfree].
  - destruct (WorkerClient.generateNonce large rest table) as [[nonce rest'] |].
    + destruct IH as (Hnone & colliding & u & -> & -> & Hall).
      split; [assumption |].
      exists (uuid :: colliding), u. repeat split. constructor; assumption.
    + constructor; assumption.
  - split.
    + destruct (table !! nonce_of large uuid) eqn:E; [| reflexivity].
      exfalso. apply Hfree. eauto.
    + exists [], uuid. repeat split. constructor.
Qed.

Example generateNonce_forced_collision :
  WorkerClient.generateNonce false ["aaaa-1"; "aaaa-2"; "bbbb-3"; "cccc-4"]
    {["aaaa" := {| PendingCall.resolve := 0; PendingCall.timeout := 0 |}]}
  = Some ("bbbb", ["cccc-4"]).
Proof. vm_compute. reflexivity. Qed.

(** ** Packet dispatch and readiness *)

Lemma announcements_app (o1 o2 : list Effect) :
  announcements (o1 ++ o2) = announcements o1 + announcements o2.
Proof. unfold announcements. rewrite List.filter_app, length_app. reflexivity. Qed.

Lemma observed_app_l (g : string) (evs more : list WorkerClient.Event) :
  observed g evs -> observed g (evs ++ more).
Proof.
  unfold observed. rewrite existsb_app. intros ->. reflexivity.
Qed.

Lemma fold_add_guilds (guilds : list string) (set0 : gset string) :
  fold_left (fun s g => {[g]} ∪ s) guilds set0 = list_to_set guilds ∪ set0.
Proof.
  revert set0. induction guilds as [| g guilds IH]; intros set0; simpl.
  - symmetry. apply (left_id_L ∅ (∪)).
  - rewrite IH, (assoc_L (∪)). f_equal. apply (comm_L (∪)).
Qed.

Section Readiness.
Variable GatewayIntentBits_Guilds : Z.
Variable new_Shard : Z -> Shard.Options -> Shard.t.
Variable js_eval : string -> WorkerClient.t -> EvalOutcome.
Variable workerData : WorkerData.t.
Variable options : WorkerClientOptions.t.

Local Abbreviation onPacket :=
  (WorkerClient.onPacket GatewayIntentBits_Guilds workerData options).
Local Abbreviation onGuild := (WorkerClient.onGuild workerData options).
Local Abbreviation onReady :=
  (WorkerClient.onReady GatewayIntentBits_Guilds workerData options).
Local Abbreviation step :=
  (WorkerClient.step GatewayIntentBits_Guilds new_Shard js_eval workerData options).
Local Abbreviation run :=
  (WorkerClient.run GatewayIntentBits_Guilds new_Shard js_eval workerData options).
Local Abbreviation intent := (guilds_intent GatewayIntentBits_Guilds workerData).

Lemma announcements_events_call (e : Effect) :
  is_WorkerReady e = false -> announcements (WorkerClient.events_call options e) = 0.
Proof.
  intros H. unfold WorkerClient.events_call.
  destruct (WorkerClientOptions.has_events options); [| reflexivity].
  unfold announcements. simpl. rewrite H. reflexivity.
Qed.

Lemma announcements_announce_ready :
  announcements (WorkerClient.announce_ready workerData options) = 1.
Proof.
  unfold WorkerClient.announce_ready.
  change (announcements (?x :: ?l)) with (announcements ([x] ++ l)).
  rewrite announcements_app, announcements_events_call; reflexivity.
Qed.

Lemma announcements_announce_shards_connected :
  announcements (WorkerClient.announce_shards_connected workerData options) = 0.
Proof.
  unfold WorkerClient.announce_shards_connected.
  change (announcements (?x :: ?l)) with (announcements ([x] ++ l)).
  rewrite announcements_app, announcements_events_call; reflexivity.
Qed.

(** The guild case, by what it finds in the readiness set. *)
Lemma onGuild_spec (packet : Packet) (id : string) (shardId : Z) (c : WorkerClient.t) :
  let r := onGuild packet id shardId c in
  match WorkerClient.__handleGuilds c with
  | Some guilds =>
      if decide (id ∈ guilds) then
        WorkerClient.__handleGuilds (fst r)
        = (if decide (guilds ∖ {[id]} = ∅) then None else Some (guilds ∖ {[id]}))
        /\ announcements (snd r)
           = (if decide (guilds ∖ {[id]} = ∅)
              then if WorkerClient.every_session c then 1 else 0
              else 0)
      else fst r = c /\ announcements (snd r) = 0
  | None => fst r = c /\ announcements (snd r) = 0
  end.
Proof.
  unfold WorkerClient.onGuild.
  destruct (WorkerClient.__handleGuilds c) as [guilds |].
  - destruct (decide (id ∈ guilds)) as [Hin | Hin].
    + destruct (decide (guilds ∖ {[id]} = ∅)) as [He | Hne].
      * rewrite He, size_empty. simpl.
        destruct (WorkerClient.every_session c); simpl; split; try reflexivity.
        change (announcements (?x :: ?l)) with (announcements ([x] ++ l)).
        rewrite announcements_app, announcements_announce_ready. reflexivity.
      * assert (size (guilds ∖ {[id]}) <> 0) as Hsz.
        { intros Hsz. apply size_empty_iff in Hsz. apply Hne.
          apply leibniz_equiv. exact Hsz. }
        apply Nat.eqb_neq in Hsz. rewrite Hsz. simpl. split; reflexivity.
    + split; [reflexivity |]. apply announcements_events_call. reflexivity.
  - split; [reflexivity |]. apply announcements_events_call. reflexivity.
Qed.

(** The session-start case. *)
Lemma onReady_spec (guilds : list string) (user_id username application_id : string)
    (shardId : Z) (c : WorkerClient.t) :
  let r := onReady guilds user_id username application_id shardId c in
  let set1 := list_to_set guilds
              ∪ match WorkerClient.__handleGuilds c with Some s => s | None => ∅ end in
  WorkerClient.shards (fst r) = WorkerClient.shards c
  /\ if decide (set1 <> ∅ /\ intent = true)
     then WorkerClient.__handleGuilds (fst r) = Some set1 /\ announcements (snd r) = 0
     else WorkerClient.__handleGuilds (fst r) = None
          /\ announcements (snd r) = (if WorkerClient.every_session c then 1 else 0).
Proof.
  unfold WorkerClient.onReady. rewrite fold_add_guilds.
  set (set1 := list_to_set guilds ∪ _).
  fold intent.
  assert (announcements (if WorkerData.debug workerData
                         then [debugger_debug shardId username user_id] else []) = 0) as Hd.
  { destruct (WorkerData.debug workerData); reflexivity. }
  assert (announcements
            (WorkerClient.events_call options (events_execute "READY" shardId)
             ++ (if WorkerClient.every_session c
                 then WorkerClient.announce_shards_connected workerData options
                 else [])) = 0) as Hout1.
  { rewrite announcements_app, announcements_events_call by reflexivity.
    destruct (WorkerClient.every_session c);
      [apply announcements_announce_shards_connected | reflexivity]. }
  destruct (decide (set1 <> ∅ /\ intent = true)) as [[Hne Hint] | Hno].
  - assert (size set1 <> 0) as Hsz.
    { intros Hsz. apply size_empty_iff in Hsz. apply Hne.
      apply leibniz_equiv. exact Hsz. }
    apply Nat.eqb_neq in Hsz. rewrite Hsz, Hint. simpl.
    repeat split. rewrite announcements_app, Hout1, Hd. reflexivity.
  - assert (negb (negb (Nat.eqb (size set1) 0) && intent) = true) as ->.
    { destruct (Nat.eqb_spec (size set1) 0) as [Hsz | Hsz]; [reflexivity |].
      destruct intent eqn:Hint; [| reflexivity].
      exfalso. apply Hno. split; [| reflexivity].
      intros He. apply Hsz. rewrite He. apply size_empty. }
    simpl. repeat split.
    rewrite announcements_app, Hout1, announcements_app, Hd.
    destruct (WorkerClient.every_session c);
      [rewrite announcements_announce_ready |]; reflexivity.
Qed.

Lemma onPacket_announcements (packet : Packet) (shardId : Z) (c : WorkerClient.t) :
  let r := onPacket packet shardId c in
  match packet with
  | GUILD_DELETE id | GUILD_CREATE id =>
      fst r = fst (onGuild packet id shardId c)
      /\ announcements (snd r) = announcements (snd (onGuild packet id shardId c))
  | READY guilds user_id username application_id =>
      fst r = fst (onReady guilds user_id username application_id shardId c)
      /\ announcements (snd r)
         = announcements (snd (onReady guilds user_id username application_id shardId c))
  | _ => fst r = c /\ announcements (snd r) = 0
  end.
Proof.
  assert (announcements
            (WorkerClient.events_call options (events_runEvent "RAW" shardId)
             ++ [collectors_run "RAW"]) = 0) as Hraw.
  { rewrite announcements_app, announcements_events_call; reflexivity. }
  unfold WorkerClient.onPacket.
  destruct packet as [d [] | d [] | id | id | d | d | guilds uid un aid | t d];
    cbv zeta; cbn [fst snd]; rewrite announcements_app, Hraw; cbn [Nat.add];
    split; try reflexivity;
    try (rewrite announcements_app);
    try (rewrite announcements_events_call by reflexivity);
    reflexivity.
Qed.

Lemma shard_handlePayload_announcements (packet : Packet) (shardId : Z) (c : WorkerClient.t) :
  let r := WorkerClient.shard_handlePayload GatewayIntentBits_Guilds workerData options
             shardId packet c in
  fst r = fst (onPacket packet shardId c)
  /\ announcements (snd r) = announcements (snd (onPacket packet shardId c)).
Proof.
  unfold WorkerClient.shard_handlePayload. cbv zeta. cbn [fst snd].
  split; [reflexivity |].
  rewrite !announcements_app.
  destruct (WorkerClientOptions.handlePayload options),
           (WorkerClientOptions.sendPayloadToParent options);
    cbn; lia.
Qed.

Lemma announcements_requests (ids : list Z) :
  announcements
    (map (fun id : Z => postMessage (WorkerRequestConnect id (WorkerData.workerId workerData)))
       ids) = 0.
Proof. induction ids as [| i ids IH]; [reflexivity | exact IH]. Qed.

(** The router never announces readiness and never touches the readiness set. *)
Lemma handleManagerMessages_readiness (data : ManagerMessages) (c : WorkerClient.t) :
  let r := WorkerClient.handleManagerMessages new_Shard js_eval workerData options data c in
  WorkerClient.__handleGuilds (fst (fst r)) = WorkerClient.__handleGuilds c
  /\ announcements (snd (fst r)) = 0.
Proof.
  destruct data as [nonce result | shardId nonce payload | shardId presence | info compress
                   | shardId nonce | nonce | | nonce response error | func nonce
                   | nonce response]; cbn -[JsMap.get JsMap.set fold_left].
  - destruct (WorkerClient.adapter_promises c) as [table |]; [| split; reflexivity].
    destruct (decide (nonce ∈ table)); split; reflexivity.
  - destruct (JsMap.get shardId (WorkerClient.shards c)); split; reflexivity.
  - destruct (JsMap.get shardId (WorkerClient.shards c)); split; reflexivity.
  - split; [reflexivity |].
    destruct (spawn_fold new_Shard workerData info compress (WorkerData.shards workerData)
                (WorkerClient.shards c) []) as (Hout & _).
    cbv zeta in Hout. rewrite Hout. apply announcements_requests.
  - destruct (JsMap.get shardId (WorkerClient.shards c)); split; reflexivity.
  - split; reflexivity.
  - split; [reflexivity |]. apply announcements_events_call. reflexivity.
  - destruct (WorkerClient.rest_workerPromises c) as [table |]; [| split; reflexivity].
    destruct (decide (nonce ∈ table)); [| split; reflexivity].
    destruct error as [v |]; [destruct (truthy_value v) |]; split; reflexivity.
  - split; reflexivity.
  - destruct (WorkerClient.promises c !! nonce); split; reflexivity.
Qed.

Lemma fold_on_timeout_handleGuilds (due : list (nat * Timer)) (c : WorkerClient.t) :
  WorkerClient.__handleGuilds
    (fold_left (fun c ht => WorkerClient.on_timeout (snd ht) c) due c)
  = WorkerClient.__handleGuilds c
  /\ WorkerClient.shards (fold_left (fun c ht => WorkerClient.on_timeout (snd ht) c) due c)
     = WorkerClient.shards c.
Proof.
  revert c. induction due as [| ht due IH]; intros c; simpl; [split; reflexivity |].
  destruct (IH (WorkerClient.on_timeout ht.2 c)) as [-> ->]. split; reflexivity.
Qed.

(** What one event does to the readiness set and how often it announces. *)
Lemma step_readiness (e : WorkerClient.Event) (c c' : WorkerClient.t) (out : list Effect) :
  step e c = Some (c', out) ->
  match e with
  | WorkerClient.ShardPayload shardId (GUILD_DELETE id as packet)
  | WorkerClient.ShardPayload shardId (GUILD_CREATE id as packet) =>
      c' = fst (onGuild packet id shardId c)
      /\ announcements out = announcements (snd (onGuild packet id shardId c))
  | WorkerClient.ShardPayload shardId (READY guilds user_id username application_id) =>
      c' = fst (onReady guilds user_id username application_id shardId c)
      /\ announcements out
         = announcements (snd (onReady guilds user_id username application_id shardId c))
  | _ =>
      WorkerClient.__handleGuilds c' = WorkerClient.__handleGuilds c
      /\ announcements out = 0
  end.
Proof.
  destruct e as [data | shardId packet | w func uuids | dt | shardId f];
    cbn -[WorkerClient.handleManagerMessages WorkerClient.shard_handlePayload
          WorkerClient.tellWorker WorkerClient.elapse].
  - pose proof (handleManagerMessages_readiness data c) as H. cbv zeta in H.
    destruct (WorkerClient.handleManagerMessages _ _ _ _ data c) as [[c1 o1] k].
    cbn [fst snd] in H. destruct H as [Hg Ho].
    intros [= <- <-]. split; [assumption |].
    rewrite announcements_app, Ho. destruct k; reflexivity.
  - intros H0.
    assert (WorkerClient.shard_handlePayload GatewayIntentBits_Guilds workerData options
              shardId packet c = (c', out)) as H by congruence.
    clear H0.
    pose proof (shard_handlePayload_announcements packet shardId c) as Hs.
    pose proof (onPacket_announcements packet shardId c) as Hp.
    cbv zeta in Hs, Hp. rewrite H in Hs. cbn [fst snd] in Hs. destruct Hs as [-> ->].
    destruct packet; destruct Hp as [Hp1 Hp2]; rewrite ?Hp1, ?Hp2; split; reflexivity.
  - unfold WorkerClient.tellWorker.
    destruct (WorkerClient.generateNonce true uuids (WorkerClient.promises c))
      as [[nonce rest] |]; [| discriminate].
    intros [= <- <-]. split; reflexivity.
  - intros [= <- <-]. split; [| reflexivity].
    unfold WorkerClient.elapse. cbv zeta.
    rewrite (proj1 (fold_on_timeout_handleGuilds _ _)). reflexivity.
  - intros [= <- <-]. split; [| reflexivity].
    unfold WorkerClient.shard_change.
    destruct (JsMap.get shardId (WorkerClient.shards c)); reflexivity.
Qed.

Lemma onGuild_announces (packet : Packet) (id : string) (shardId : Z) (c : WorkerClient.t) :
  announcements (snd (onGuild packet id shardId c)) <= 1
  /\ (announcements (snd (onGuild packet id shardId c)) <> 0 ->
      WorkerClient.__handleGuilds (fst (onGuild packet id shardId c)) = None
      /\ WorkerClient.every_session c = true).
Proof.
  pose proof (onGuild_spec packet id shardId c) as H. cbv zeta in H.
  destruct (WorkerClient.__handleGuilds c) as [gs |].
  - destruct (decide (id ∈ gs)).
    + destruct H as [-> ->]. destruct (decide (gs ∖ {[id]} = ∅)).
      * destruct (WorkerClient.every_session c); split; [lia | auto | lia | congruence].
      * split; [lia | congruence].
    + destruct H as [_ ->]. split; [lia | congruence].
  - destruct H as [_ ->]. split; [lia | congruence].
Qed.

Lemma onGuild_closed (packet : Packet) (id : string) (shardId : Z) (c : WorkerClient.t) :
  WorkerClient.__handleGuilds c = None ->
  WorkerClient.__handleGuilds (fst (onGuild packet id shardId c)) = None
  /\ announcements (snd (onGuild packet id shardId c)) = 0.
Proof.
  intros Hnone. pose proof (onGuild_spec packet id shardId c) as H. cbv zeta in H.
  rewrite Hnone in H. destruct H as [-> ->]. auto.
Qed.

Lemma onGuild_nonempty (packet : Packet) (id : string) (shardId : Z) (c : WorkerClient.t) :
  nonempty_if_present c -> nonempty_if_present (fst (onGuild packet id shardId c)).
Proof.
  unfold nonempty_if_present. intros Hne.
  pose proof (onGuild_spec packet id shardId c) as H. cbv zeta in H.
  destruct (WorkerClient.__handleGuilds c) as [gs |] eqn:Eg.
  - destruct (decide (id ∈ gs)).
    + destruct H as [-> _]. destruct (decide (gs ∖ {[id]} = ∅)); [exact I | assumption].
    + destruct H as [-> _]. rewrite Eg. assumption.
  - destruct H as [-> _]. rewrite Eg. exact I.
Qed.

Lemma onGuild_pending (packet : Packet) (id g : string) (shardId : Z) (c : WorkerClient.t)
    (gs : gset string) :
  WorkerClient.__handleGuilds c = Some gs ->
  g ∈ gs ->
  id = g
  \/ exists gs', WorkerClient.__handleGuilds (fst (onGuild packet id shardId c)) = Some gs'
                 /\ g ∈ gs'.
Proof.
  intros Hgs Hin. pose proof (onGuild_spec packet id shardId c) as H. cbv zeta in H.
  rewrite Hgs in H. destruct (decide (id ∈ gs)).
  - destruct H as [-> _]. destruct (decide (id = g)) as [-> | Hne]; [left; reflexivity |].
    right. assert (g ∈ gs ∖ {[id]}) as Hx.
    { apply elem_of_difference. split; [assumption |].
      rewrite elem_of_singleton. congruence. }
    destruct (decide (gs ∖ {[id]} = ∅)) as [He | _].
    + rewrite He in Hx. apply elem_of_empty in Hx. contradiction.
    + eauto.
  - destruct H as [-> _]. right. eauto.
Qed.

Lemma onReady_announces (guilds : list string) (uid un aid : string) (shardId : Z)
    (c : WorkerClient.t) :
  announcements (snd (onReady guilds uid un aid shardId c)) <= 1
  /\ (announcements (snd (onReady guilds uid un aid shardId c)) <> 0 ->
      WorkerClient.__handleGuilds (fst (onReady guilds uid un aid shardId c)) = None
      /\ WorkerClient.every_session c = true).
Proof.
  pose proof (onReady_spec guilds uid un aid shardId c) as H. cbv zeta in H.
  destruct H as [_ H].
  destruct (decide _) as [_ | _]; destruct H as [-> ->].
  - split; [lia | congruence].
  - destruct (WorkerClient.every_session c); split; [lia | auto | lia | congruence].
Qed.

Lemma onReady_nonempty (guilds : list string) (uid un aid : string) (shardId : Z)
    (c : WorkerClient.t) :
  nonempty_if_present (fst (onReady guilds uid un aid shardId c)).
Proof.
  unfold nonempty_if_present.
  pose proof (onReady_spec guilds uid un aid shardId c) as H. cbv zeta in H.
  destruct H as [_ H].
  destruct (decide _) as [[Hne _] | _]; destruct H as [-> _]; [assumption | exact I].
Qed.

Lemma onReady_pending (guilds : list string) (uid un aid g : string) (shardId : Z)
    (c : WorkerClient.t) (gs : gset string) :
  intent = true ->
  WorkerClient.__handleGuilds c = Some gs ->
  g ∈ gs ->
  exists gs', WorkerClient.__handleGuilds (fst (onReady guilds uid un aid shardId c)) = Some gs'
              /\ g ∈ gs'.
Proof.
  intros Hint Hgs Hin.
  pose proof (onReady_spec guilds uid un aid shardId c) as H. cbv zeta in H.
  destruct H as [_ H]. rewrite Hgs in H.
  assert (g ∈ (list_to_set guilds ∪ gs : gset string)) as Hx
      by (apply elem_of_union; right; assumption).
  destruct (decide _) as [_ | Hno]; destruct H as [-> _].
  - eauto.
  - exfalso. apply Hno. split; [| assumption].
    intros He. rewrite He in Hx. apply elem_of_empty in Hx. contradiction.
Qed.

Lemma step_announces (e : WorkerClient.Event) (c c' : WorkerClient.t) (out : list Effect) :
  step e c = Some (c', out) ->
  announcements out <= 1
  /\ (announcements out <> 0 ->
      WorkerClient.__handleGuilds c' = None /\ WorkerClient.every_session c = true).
Proof.
  intros Hstep. apply step_readiness in Hstep.
  destruct e as [data | shardId packet | w func uuids | dt | shardId f];
    try (destruct Hstep as [_ ->]; split; [lia | congruence]).
  destruct packet as [d ch | d ch | id | id | d | d | guilds uid un aid | t d];
    try (destruct Hstep as [_ ->]; split; [lia | congruence]);
    destruct Hstep as [-> ->].
  - apply onGuild_announces.
  - apply onGuild_announces.
  - apply onReady_announces.
Qed.

Lemma step_closed (e : WorkerClient.Event) (c c' : WorkerClient.t) (out : list Effect) :
  step e c = Some (c', out) ->
  is_READY e = false ->
  WorkerClient.__handleGuilds c = None ->
  WorkerClient.__handleGuilds c' = None /\ announcements out = 0.
Proof.
  intros Hstep Hnr Hnone. apply step_readiness in Hstep.
  destruct e as [data | shardId packet | w func uuids | dt | shardId f];
    try (destruct Hstep as [-> ->]; auto; fail).
  destruct packet as [d ch | d ch | id | id | d | d | guilds uid un aid | t d];
    try discriminate; try (destruct Hstep as [-> ->]; auto; fail);
    destruct Hstep as [-> ->]; apply onGuild_closed; assumption.
Qed.

Lemma step_nonempty (e : WorkerClient.Event) (c c' : WorkerClient.t) (out : list Effect) :
  step e c = Some (c', out) ->
  nonempty_if_present c \/ is_READY e = true ->
  nonempty_if_present c'.
Proof.
  intros Hstep Hor. apply step_readiness in Hstep.
  destruct e as [data | shardId packet | w func uuids | dt | shardId f];
    try (unfold nonempty_if_present in *; destruct Hstep as [-> _];
         destruct Hor; [assumption | discriminate]).
  destruct packet as [d ch | d ch | id | id | d | d | guilds uid un aid | t d];
    try (unfold nonempty_if_present in *; destruct Hstep as [-> _];
         destruct Hor; [assumption | discriminate]);
    destruct Hstep as [-> _].
  - destruct Hor as [Hne | ?]; [| discriminate]. apply onGuild_nonempty. assumption.
  - destruct Hor as [Hne | ?]; [| discriminate]. apply onGuild_nonempty. assumption.
  - apply onReady_nonempty.
Qed.

Lemma step_observed_or_pending (waiting : gset string) (seen : list WorkerClient.Event)
    (e : WorkerClient.Event) (c c' : WorkerClient.t) (out : list Effect) :
  intent = true ->
  step e c = Some (c', out) ->
  observed_or_pending waiting seen c ->
  observed_or_pending waiting (seen ++ [e]) c'.
Proof.
  intros Hint Hstep Hinv g Hg. apply step_readiness in Hstep.
  destruct (Hinv g Hg) as [Hobs | (gs & Hgs & Hin)];
    [left; apply observed_app_l; assumption |].
  assert (forall id shardId packet,
             e = WorkerClient.ShardPayload shardId packet ->
             packet = GUILD_DELETE id \/ packet = GUILD_CREATE id ->
             c' = fst (onGuild packet id shardId c) ->
             observed g (seen ++ [e])
             \/ exists gs', WorkerClient.__handleGuilds c' = Some gs' /\ g ∈ gs') as Hguild.
  { intros id shardId packet -> Hp ->.
    destruct (onGuild_pending packet id g shardId c gs Hgs Hin) as [-> | ?]; [| right; assumption].
    left. unfold observed. rewrite existsb_app.
    destruct Hp as [-> | ->]; simpl; rewrite String.eqb_refl; apply orb_true_r. }
  destruct e as [data | shardId packet | w func uuids | dt | shardId f];
    try (destruct Hstep as [-> _]; right; eauto; fail).
  destruct packet as [d ch | d ch | id | id | d | d | guilds uid un aid | t d];
    try (destruct Hstep as [-> _]; right; eauto; fail);
    destruct Hstep as [Hc' _].
  - eapply Hguild; eauto.
  - eapply Hguild; eauto.
  - right. rewrite Hc'. eapply onReady_pending; eassumption.
Qed.

Lemma run_cons_inv (e : WorkerClient.Event) (evs : list WorkerClient.Event)
    (c c' : WorkerClient.t) (out : list Effect) :
  run (e :: evs) c = Some (c', out) ->
  exists c1 out1 out2,
    step e c = Some (c1, out1) /\ run evs c1 = Some (c', out2) /\ out = out1 ++ out2.
Proof.
  cbn -[WorkerClient.step]. destruct (step e c) as [[c1 out1] |]; [| discriminate].
  destruct (run evs c1) as [[c2 out2] |] eqn:Hrun; [| discriminate].
  intros [= <- <-]. exists c1, out1, out2. repeat split. assumption.
Qed.

Lemma run_observed_or_pending (waiting : gset string) (evs : list WorkerClient.Event) :
  intent = true ->
  forall (seen : list WorkerClient.Event) (c c' : WorkerClient.t) (out : list Effect),
    run evs c = Some (c', out) ->
    observed_or_pending waiting seen c ->
    observed_or_pending waiting (seen ++ evs) c'.
Proof.
  intros Hint. induction evs as [| e evs IH]; intros seen c c' out Hrun Hinv.
  - injection Hrun as <- <-. rewrite app_nil_r. assumption.
  - apply run_cons_inv in Hrun as (c1 & out1 & out2 & Hstep & Hrun & ->).
    replace (seen ++ e :: evs) with ((seen ++ [e]) ++ evs) by (rewrite <- app_assoc; reflexivity).
    eapply IH; [eassumption |].
    eapply step_observed_or_pending; eassumption.
Qed.

(** Without a readiness set and without session-start packets nothing is
    announced and no set appears. *)
Lemma run_closed (evs : list WorkerClient.Event) :
  forall (c c' : WorkerClient.t) (out : list Effect),
    run evs c = Some (c', out) ->
    forallb (fun e => negb (is_READY e)) evs = true ->
    WorkerClient.__handleGuilds c = None ->
    WorkerClient.__handleGuilds c' = None /\ announcements out = 0.
Proof.
  induction evs as [| e evs IH]; intros c c' out Hrun Hnr Hc.
  - injection Hrun as <- <-. split; [assumption | reflexivity].
  - apply run_cons_inv in Hrun as (c1 & out1 & out2 & Hstep & Hrun & ->).
    simpl in Hnr. apply andb_true_iff in Hnr as [He Hnr].
    apply negb_true_iff in He.
    destruct (step_closed _ _ _ _ Hstep He Hc) as [Hc1 H1].
    destruct (IH _ _ _ Hrun Hnr Hc1) as [Hc' H2].
    split; [assumption |]. rewrite announcements_app, H1, H2. reflexivity.
Qed.

(** In a stretch without session-start packets there is at most one
    announcement, and it leaves no readiness set behind. *)
Lemma run_announces_once (evs : list WorkerClient.Event) :
  forall (c c' : WorkerClient.t) (out : list Effect),
    run evs c = Some (c', out) ->
    forallb (fun e => negb (is_READY e)) evs = true ->
    announcements out <= 1
    /\ (announcements out <> 0 -> WorkerClient.__handleGuilds c' = None).
Proof.
  induction evs as [| e evs IH]; intros c c' out Hrun Hnr.
  - injection Hrun as <- <-.
    split; [cbn; lia | intros H; exfalso; apply H; reflexivity].
  - apply run_cons_inv in Hrun as (c1 & out1 & out2 & Hstep & Hrun & ->).
    simpl in Hnr. apply andb_true_iff in Hnr as [He Hnr].
    destruct (IH _ _ _ Hrun Hnr) as (Hle & Hgone).
    destruct (step_announces _ _ _ _ Hstep) as [Hle1 Hclose].
    rewrite announcements_app.
    destruct (Nat.eq_dec (announcements out1) 0) as [H1 | H1].
    + rewrite H1. simpl. split; assumption.
    + destruct (Hclose H1) as [Hc1 _].
      destruct (run_closed _ _ _ _ Hrun Hnr Hc1) as [Hc' ->].
      split; [lia | intros _; assumption].
Qed.

(** After a session-start packet, and from then on, a readiness set that
    is present is not empty. *)
Lemma run_nonempty (evs : list WorkerClient.Event) :
  forall (c c' : WorkerClient.t) (out : list Effect),
    run evs c = Some (c', out) ->
    nonempty_if_present c \/ existsb is_READY evs = true ->
    nonempty_if_present c'.
Proof.
  induction evs as [| e evs IH]; intros c c' out Hrun Hor.
  - injection Hrun as <- <-. destruct Hor; [assumption | discriminate].
  - apply run_cons_inv in Hrun as (c1 & out1 & out2 & Hstep & Hrun & ->).
    simpl in Hor. destruct Hor as [Hne | Hor].
    + eapply IH; [eassumption |]. left. eapply step_nonempty; eauto.
    + apply orb_true_iff in Hor as [He | Hor].
      * eapply IH; [eassumption |]. left. eapply step_nonempty; eauto.
      * eapply IH; [eassumption |]. right. assumption.
Qed.

(** C3 (as the code has it): a session-start packet processed without the
    guilds intent discards the readiness set at once, whatever guilds it
    lists, and announces readiness in that same handling exactly when every
    shard of the registry has a session id (once), and not otherwise. *)
Theorem ready_without_guilds_intent (c : WorkerClient.t) (guilds : list string)
    (user_id username application_id : string) (shardId : Z) :
  intent = false ->
  WorkerClient.__handleGuilds
    (fst (onPacket (READY guilds user_id username application_id) shardId c)) = None
  /\ announcements (snd (onPacket (READY guilds user_id username application_id) shardId c))
     = (if WorkerClient.every_session c then 1 else 0).
Proof.
  intros Hint.
  pose proof (onPacket_announcements (READY guilds user_id username application_id)
                shardId c) as Hp.
  cbv zeta in Hp. destruct Hp as [-> ->].
  pose proof (onReady_spec guilds user_id username application_id shardId c) as Hs.
  cbv zeta in Hs. destruct Hs as [_ Hs].
  destruct (decide _) as [[_ Hint'] | _]; [congruence |]. exact Hs.
Qed.

End Readiness.

(** *** Instances and counterexamples *)

Example settles_and_announces_once :
  option_map (fun r => (WorkerClient.__handleGuilds (fst r), announcements (snd r)))
    (WorkerClient.run 1 Sample.new_Shard Sample.js_eval Sample.workerData Sample.options
       [WorkerClient.ShardPayload 0 (READY ["g1"; "g2"] "bot" "name" "app");
        WorkerClient.ShardPayload 0 (GUILD_CREATE "g1");
        WorkerClient.ShardPayload 1 (GUILD_DELETE "g2");
        WorkerClient.ShardPayload 0 (GUILD_CREATE "g1");
        WorkerClient.ShardPayload 1 (GUILD_DELETE "g2")] Sample.connected)
  = Some (None, 1).
Proof. vm_compute. reflexivity. Qed.

Lemma ready_without_guilds_intent_witness :
  announcements
    (snd (WorkerClient.onPacket 1 Sample.workerData_no_guilds Sample.options
            Sample.ready1 0 Sample.connected)) = 1.
Proof.
  exact (proj2 (ready_without_guilds_intent 1 Sample.workerData_no_guilds Sample.options
                  Sample.connected ["g1"] "bot" "name" "app" 0 eq_refl)).
Defined.

(** C3 does not hold unconditionally: without the guilds intent, a session-start packet
    that lists a guild announces nothing while the second shard of the
    worker has no session yet. *)
Lemma ready_without_guilds_intent_unannounced :
  guilds_intent 1 Sample.workerData_no_guilds = false
  /\ announcements
       (snd (WorkerClient.onPacket 1 Sample.workerData_no_guilds Sample.options
               Sample.ready1 0 Sample.half_connected)) = 0.
Proof. split; vm_compute; reflexivity. Qed.



(** ** Readiness when handlers overlap *)

Lemma arrivals_app (os1 os2 : list WorkerClient.Turn) :
  arrivals (os1 ++ os2) = arrivals os1 ++ arrivals os2.
Proof. unfold arrivals. apply flat_map_app. Qed.

Lemma nothing_awaited_size (c : WorkerClient.t) :
  nothing_awaited c
  <-> match WorkerClient.__handleGuilds c with
      | Some guilds => negb (Nat.eqb (size guilds) 0)
      | None => false
      end = false.
Proof.
  unfold nothing_awaited. destruct (WorkerClient.__handleGuilds c) as [guilds |]; [| tauto].
  rewrite negb_false_iff, Nat.eqb_eq. split.
  - intros ->. apply size_empty.
  - intros H. apply leibniz_equiv, size_empty_iff. exact H.
Qed.

Lemma nothing_awaited_dec (c : WorkerClient.t) : nothing_awaited c \/ ~ nothing_awaited c.
Proof.
  unfold nothing_awaited. destruct (WorkerClient.__handleGuilds c) as [guilds |]; [| auto].
  destruct (decide (guilds = ∅)); auto.
Qed.

Section Overlap.
Variable GatewayIntentBits_Guilds : Z.
Variable new_Shard : Z -> Shard.Options -> Shard.t.
Variable js_eval : string -> WorkerClient.t -> EvalOutcome.
Variable workerData : WorkerData.t.
Variable options : WorkerClientOptions.t.

Local Abbreviation step :=
  (WorkerClient.step GatewayIntentBits_Guilds new_Shard js_eval workerData options).
Local Abbreviation run :=
  (WorkerClient.run GatewayIntentBits_Guilds new_Shard js_eval workerData options).
Local Abbreviation turn :=
  (WorkerClient.turn GatewayIntentBits_Guilds new_Shard js_eval workerData options).
Local Abbreviation turns :=
  (WorkerClient.turns GatewayIntentBits_Guilds new_Shard js_eval workerData options).
Local Abbreviation quiet :=
  (undisturbed GatewayIntentBits_Guilds new_Shard js_eval workerData options).
Local Abbreviation settle :=
  (WorkerClient.onReady_settle GatewayIntentBits_Guilds workerData options).
Local Abbreviation resume :=
  (WorkerClient.onReady_resume GatewayIntentBits_Guilds workerData options).
Local Abbreviation finish := (WorkerClient.onReady_finish workerData options).
Local Abbreviation intent := (guilds_intent GatewayIntentBits_Guilds workerData).
Local Abbreviation suspended a fr :=
  {| WorkerClient.at_await := a; WorkerClient.frame_shardId := WorkerClient.frame_shardId fr;
     WorkerClient.frame_username := WorkerClient.frame_username fr |}.

Implicit Types (s : WorkerClient.t * list WorkerClient.Frame) (c : WorkerClient.t).
Implicit Types (fr : WorkerClient.Frame) (o : WorkerClient.Turn) (e : WorkerClient.Event).

Lemma announcements_finish fr c : announcements (finish fr c) = 0.
Proof.
  unfold WorkerClient.onReady_finish.
  destruct (WorkerData.debug workerData),
           (WorkerClientOptions.sendPayloadToParent options); reflexivity.
Qed.

Lemma turns_cons_inv o (os : list WorkerClient.Turn) s s' (out : list Effect) :
  turns (o :: os) s = Some (s', out) ->
  exists s1 out1 out2,
    turn o s = Some (s1, out1) /\ turns os s1 = Some (s', out2) /\ out = out1 ++ out2.
Proof.
  cbn -[WorkerClient.turn]. destruct (turn o s) as [[s1 out1] |]; [| discriminate].
  destruct (turns os s1) as [[s2 out2] |] eqn:Hrun; [| discriminate].
  intros [= <- <-]. exists s1, out1, out2. repeat split. assumption.
Qed.

Lemma turns_app (os1 os2 : list WorkerClient.Turn) s :
  turns (os1 ++ os2) s
  = match turns os1 s with
    | Some (s1, out1) =>
        match turns os2 s1 with
        | Some (s2, out2) => Some (s2, out1 ++ out2)
        | None => None
        end
    | None => None
    end.
Proof.
  revert s. induction os1 as [| o os1 IH]; intros s.
  - cbn -[WorkerClient.turn]. destruct (turns os2 s) as [[s2 out2] |]; reflexivity.
  - cbn -[WorkerClient.turn]. destruct (turn o s) as [[s1 out1] |]; [| reflexivity].
    rewrite IH. destruct (turns os1 s1) as [[s2 out2] |]; [| reflexivity].
    destruct (turns os2 s2) as [[s3 out3] |]; [| reflexivity].
    rewrite app_assoc. reflexivity.
Qed.

(** An event other than a session-start packet is handled in the turn in
    which it arrives, and suspends nothing. *)
Lemma turn_arrive e s s' (out : list Effect) :
  is_READY e = false ->
  turn (WorkerClient.Arrive e) s = Some (s', out) ->
  step e (fst s) = Some (fst s', out) /\ snd s' = snd s.
Proof.
  intros Hnr Hturn.
  assert (match step e (fst s) with
          | Some (c', out) => Some (c', snd s, out)
          | None => None
          end = Some (s', out)) as H.
  { destruct e as [data | shardId packet | w func uuids | dt | shardId f];
      try exact Hturn.
    destruct packet; try exact Hturn. discriminate. }
  destruct (step e (fst s)) as [[c' out'] |]; [| discriminate].
  injection H as <- <-. split; reflexivity.
Qed.

(** The arrival of a session-start packet. *)
Lemma turn_arrive_READY (guilds : list string) (uid un aid : string) (shardId : Z)
    s s' (out : list Effect) :
  turn (WorkerClient.Arrive (WorkerClient.ShardPayload shardId (READY guilds uid un aid))) s
  = Some (s', out) ->
  WorkerClient.__handleGuilds (fst s')
  = Some (list_to_set guilds
          ∪ match WorkerClient.__handleGuilds (fst s) with Some g => g | None => ∅ end)
  /\ WorkerClient.identity (fst s')
     = Some {| botId := uid; applicationId := aid; me := (uid, aid) |}
  /\ WorkerClient.shards (fst s') = WorkerClient.shards (fst s)
  /\ snd s' = snd s ++ [{| WorkerClient.at_await := WorkerClient.await_execute;
                           WorkerClient.frame_shardId := shardId;
                           WorkerClient.frame_username := un |}]
  /\ announcements out = 0.
Proof.
  cbn -[fold_left]. intros [= <- <-]. cbn -[fold_left].
  rewrite fold_add_guilds. repeat split.
  rewrite !announcements_app.
  rewrite !(announcements_events_call options) by reflexivity.
  destruct (WorkerClientOptions.handlePayload options); reflexivity.
Qed.

(** The second test, by what it finds. *)
Lemma onReady_settle_spec fr c :
  (intent = true /\ ~ nothing_awaited c -> settle fr c = (c, finish fr c, None))
  /\ (intent = false \/ nothing_awaited c ->
      settle fr c
      = if WorkerClient.every_session c
        then (c, WorkerClient.announce_ready workerData options,
              Some (suspended WorkerClient.await_worker_ready fr))
        else (WorkerClient.with_handleGuilds None c,
              finish fr (WorkerClient.with_handleGuilds None c), None)).
Proof.
  unfold WorkerClient.onReady_settle. cbv zeta. fold intent.
  pose proof (nothing_awaited_size c) as Hsz.
  destruct (match WorkerClient.__handleGuilds c with
            | Some guilds => negb (Nat.eqb (size guilds) 0)
            | None => false
            end) eqn:E.
  - split.
    + intros [-> _]. reflexivity.
    + intros [-> | Hn]; [reflexivity |]. apply Hsz in Hn. discriminate.
  - split.
    + intros [_ Hn]. exfalso. apply Hn, Hsz. reflexivity.
    + intros _. reflexivity.
Qed.

(** An event other than a session-start packet leaves an absent or empty
    readiness set absent or empty. *)
Lemma step_nothing_awaited e c (c' : WorkerClient.t) (out : list Effect) :
  is_READY e = false ->
  step e c = Some (c', out) ->
  nothing_awaited c -> nothing_awaited c'.
Proof.
  intros Hnr Hstep Hn.
  apply (step_readiness GatewayIntentBits_Guilds new_Shard js_eval workerData options)
    in Hstep.
  assert (forall packet id shardId,
             c' = fst (WorkerClient.onGuild workerData options packet id shardId c) ->
             nothing_awaited c') as Hguild.
  { intros packet id shardId ->.
    pose proof (onGuild_spec workerData options packet id shardId c) as Hs. cbv zeta in Hs.
    unfold nothing_awaited in *.
    destruct (WorkerClient.__handleGuilds c) as [gs |] eqn:Eg.
    - subst gs. destruct (decide (id ∈ (∅ : gset string))) as [Hin | _].
      + apply elem_of_empty in Hin. contradiction.
      + destruct Hs as [-> _]. rewrite Eg. reflexivity.
    - destruct Hs as [-> _]. rewrite Eg. exact I. }
  destruct e as [data | shardId packet | w func uuids | dt | shardId f];
    try (unfold nothing_awaited in *; destruct Hstep as [-> _]; exact Hn).
  destruct packet as [d ch | d ch | id | id | d | d | guilds uid un aid | t d];
    try discriminate;
    try (unfold nothing_awaited in *; destruct Hstep as [-> _]; exact Hn);
    destruct Hstep as [Hc' _]; eapply Hguild; exact Hc'.
Qed.

Lemma elem_of_insert_inv {A : Type} (l : list A) (i : nat) (x y : A) :
  y ∈ <[i := x]> l -> y = x \/ y ∈ l.
Proof.
  intros Hin. apply list_elem_of_lookup_1 in Hin as [j Hj].
  apply list_lookup_insert_Some in Hj as [(_ & -> & _) | (_ & Hj)]; [left; reflexivity |].
  right. eapply list_elem_of_lookup_2. exact Hj.
Qed.

Lemma observed_or_pending_closed (waiting : gset string) (seen : list WorkerClient.Event)
    c (c' : WorkerClient.t) :
  observed_or_pending waiting seen c ->
  nothing_awaited c ->
  (forall g, g ∈ waiting -> observed g seen) /\ observed_or_pending waiting seen c'.
Proof.
  intros Hinv Hn.
  assert (forall g, g ∈ waiting -> observed g seen) as Hobs.
  { intros g Hg. destruct (Hinv g Hg) as [? | (gs & Hgs & Hin)]; [assumption |].
    unfold nothing_awaited in Hn. rewrite Hgs in Hn. subst gs.
    apply elem_of_empty in Hin. contradiction. }
  split; [assumption |]. intros g Hg. left. auto.
Qed.

Lemma turn_window (waiting : gset string) (seen : list WorkerClient.Event) o s s'
    (out : list Effect) :
  intent = true ->
  undisturbed_turn o s = true ->
  turn o s = Some (s', out) ->
  window waiting seen s ->
  window waiting (seen ++ arrivals [o]) s'
  /\ (announcements out <> 0 ->
      (forall g, g ∈ waiting -> observed g (seen ++ arrivals [o]))
      /\ WorkerClient.every_session (fst s) = true).
Proof.
  intros Hint Hq Hturn [Hpend Hlate].
  destruct o as [e | i].
  - change (arrivals [WorkerClient.Arrive e]) with [e].
    destruct (is_READY e) eqn:Hr.
    + destruct e as [| shardId [| | | | | | guilds uid un aid |] | | |]; try discriminate.
      apply turn_arrive_READY in Hturn as (Hset & _ & _ & Hfr & Hout).
      cbn in Hq. destruct (snd s) as [| fr0 frs] eqn:Efr; [| discriminate].
      split; [| intros Hne; contradiction].
      split.
      * intros g Hg. destruct (Hpend g Hg) as [Hobs | (gs & Hgs & Hin)].
        -- left. apply observed_app_l. assumption.
        -- right. rewrite Hset, Hgs. eexists. split; [reflexivity |].
           apply elem_of_union. right. assumption.
      * intros fr Hin. rewrite Hfr in Hin. cbn in Hin.
        apply list_elem_of_singleton in Hin as ->. discriminate.
    + destruct (turn_arrive e s s' out Hr Hturn) as [Hstep Hfr].
      pose proof (step_observed_or_pending GatewayIntentBits_Guilds new_Shard js_eval
                    workerData options waiting seen e (fst s) (fst s') out Hint Hstep Hpend)
        as Hpend'.
      split; [split |].
      * assumption.
      * intros fr Hin Hat. rewrite Hfr in Hin.
        eapply step_nothing_awaited; eauto.
      * intros Hne.
        destruct (step_announces GatewayIntentBits_Guilds new_Shard js_eval workerData options
                    e (fst s) (fst s') out Hstep) as [_ Hclose].
        destruct (Hclose Hne) as [Hnone Hlive]. split; [| assumption].
        intros g Hg. destruct (Hpend' g Hg) as [? | (gs & Hgs & _)]; [assumption |].
        rewrite Hnone in Hgs. discriminate.
  - change (arrivals [WorkerClient.Resume i]) with (@nil WorkerClient.Event).
    rewrite app_nil_r.
    cbn -[WorkerClient.onReady_resume] in Hturn.
    destruct (snd s !! i) as [fr |] eqn:Hi; [| discriminate].
    destruct (resume fr (fst s)) as [[c' out'] next] eqn:Hres.
    injection Hturn as <- <-.
    assert (fr ∈ snd s) as Hfrin by (eapply list_elem_of_lookup_2; exact Hi).
    (* the three ways a resumed handler goes on *)
    assert (forall fr0, settle fr0 (fst s) = (c', out', next) ->
              window waiting seen
                (c', match next with
                     | Some fr' => <[i := fr']> (snd s)
                     | None => delete i (snd s)
                     end)
              /\ (announcements out' <> 0 ->
                  (forall g, g ∈ waiting -> observed g seen)
                  /\ WorkerClient.every_session (fst s) = true)) as Hsettle.
    { intros fr0 Hs.
      destruct (onReady_settle_spec fr0 (fst s)) as [Hopen Hclosed].
      destruct (nothing_awaited_dec (fst s)) as [Hn | Hn].
      - rewrite Hclosed in Hs by (right; assumption).
        destruct (observed_or_pending_closed waiting seen (fst s)
                    (WorkerClient.with_handleGuilds None (fst s)) Hpend Hn) as [Hobs Hpend'].
        destruct (WorkerClient.every_session (fst s)) eqn:Hlive; injection Hs as <- <- <-.
        + split; [split |].
          * assumption.
          * intros fr' _ _. assumption.
          * intros _. split; [assumption | reflexivity].
        + split; [split |].
          * assumption.
          * intros fr' _ _. exact I.
          * rewrite announcements_finish. intros Hne. contradiction.
      - rewrite Hopen in Hs by (split; assumption). injection Hs as <- <- <-.
        split; [split |].
        + assumption.
        + intros fr' Hin Hat. apply list_elem_of_delete_inv in Hin. eauto.
        + rewrite announcements_finish. intros Hne. contradiction. }
    unfold WorkerClient.onReady_resume in Hres.
    destruct (WorkerClient.at_await fr) eqn:Hat.
    + destruct (WorkerClient.every_session (fst s)) eqn:Hlive.
      * injection Hres as <- <- <-. split; [split |].
        -- assumption.
        -- intros fr' Hin Hat'. apply elem_of_insert_inv in Hin as [-> | Hin];
             [discriminate | eauto].
        -- rewrite (announcements_announce_shards_connected workerData options).
           intros Hne. contradiction.
      * eapply Hsettle. exact Hres.
    + eapply Hsettle. exact Hres.
    + injection Hres as <- <- <-.
      destruct (observed_or_pending_closed waiting seen (fst s)
                  (WorkerClient.with_handleGuilds None (fst s)) Hpend (Hlate fr Hfrin Hat))
        as [Hobs Hpend'].
      split; [split |].
      * assumption.
      * intros fr' _ _. exact I.
      * rewrite announcements_finish. intros Hne. contradiction.
Qed.

Lemma turns_window (waiting : gset string) (os : list WorkerClient.Turn) :
  intent = true ->
  forall (seen : list WorkerClient.Event) s s' (out : list Effect),
    turns os s = Some (s', out) ->
    quiet os s = true ->
    window waiting seen s ->
    window waiting (seen ++ arrivals os) s'.
Proof.
  intros Hint. induction os as [| o os IH]; intros seen s s' out Hrun Hq Hinv.
  - injection Hrun as <- <-. cbn. rewrite app_nil_r. assumption.
  - apply turns_cons_inv in Hrun as (s1 & out1 & out2 & Hturn & Hrun & ->).
    cbn -[WorkerClient.turn] in Hq. rewrite Hturn in Hq.
    apply andb_true_iff in Hq as [Hq1 Hq].
    change (o :: os) with ([o] ++ os). rewrite arrivals_app, app_assoc.
    eapply IH; [eassumption | assumption |].
    eapply turn_window; eassumption.
Qed.

(** With no handler suspended and no session-start packet to come, a
    schedule is a run of its events. *)
Lemma turns_sequential (os : list WorkerClient.Turn) :
  forall c s' (out : list Effect),
    turns os (c, []) = Some (s', out) ->
    forallb (fun e => negb (is_READY e)) (arrivals os) = true ->
    run (arrivals os) c = Some (fst s', out) /\ snd s' = [].
Proof.
  induction os as [| o os IH]; intros c s' out Hrun Hnr.
  - injection Hrun as <- <-. split; reflexivity.
  - apply turns_cons_inv in Hrun as (s1 & out1 & out2 & Hturn & Hrun & ->).
    destruct o as [e | i]; [| discriminate].
    change (arrivals (WorkerClient.Arrive e :: os)) with (e :: arrivals os) in *.
    cbn [forallb] in Hnr. apply andb_true_iff in Hnr as [He Hnr].
    apply negb_true_iff in He.
    destruct (turn_arrive e (c, []) s1 out1 He Hturn) as [Hstep Hfr].
    destruct s1 as [c1 frs]. cbn [fst snd] in *. subst frs.
    destruct (IH c1 s' out2 Hrun Hnr) as [Hrun' Hnil].
    split; [| assumption].
    cbn -[WorkerClient.step]. rewrite Hstep, Hrun'. reflexivity.
Qed.

Lemma untouched_readiness e c (c' : WorkerClient.t) (out : list Effect) :
  touches_readiness e = false ->
  step e c = Some (c', out) ->
  WorkerClient.__handleGuilds c' = WorkerClient.__handleGuilds c /\ announcements out = 0.
Proof.
  intros Ht Hstep.
  apply (step_readiness GatewayIntentBits_Guilds new_Shard js_eval workerData options)
    in Hstep.
  destruct e as [data | shardId packet | w func uuids | dt | shardId f]; try exact Hstep.
  destruct packet; try discriminate; exact Hstep.
Qed.

Lemma touches_readiness_READY e : touches_readiness e = false -> is_READY e = false.
Proof. destruct e as [| ? [] | | |]; try reflexivity; discriminate. Qed.

Lemma turns_announce_once (os : list WorkerClient.Turn) :
  intent = true ->
  forall s s' (out : list Effect),
    open_window s ->
    turns os s = Some (s', out) ->
    quiet os s = true ->
    forallb (fun e => negb (is_READY e)) (arrivals os) = true ->
    announcements out <= 1
    /\ (announcements out <> 0 -> WorkerClient.__handleGuilds (fst s') = None).
Proof.
  intros Hint. induction os as [| o os IH]; intros s s' out Hset Hrun Hq Hnr.
  - injection Hrun as <- <-. split; [cbn; lia | intros H; exfalso; apply H; reflexivity].
  - destruct s as [c frs]. unfold open_window in Hset. cbn [fst snd] in Hset.
    destruct frs as [| fr [| fr2 frs]]; [| | contradiction].
    + destruct (turns_sequential (o :: os) c s' out Hrun Hnr) as [Hrun' _].
      apply (run_announces_once GatewayIntentBits_Guilds new_Shard js_eval workerData options
               (arrivals (o :: os)) c (fst s') out Hrun' Hnr).
    + destruct Hset as [Hat Hopen].
      apply turns_cons_inv in Hrun as (s1 & out1 & out2 & Hturn & Hrun & ->).
      cbn -[WorkerClient.turn] in Hq. rewrite Hturn in Hq.
      apply andb_true_iff in Hq as [Hq1 Hq].
      assert (open_window s1 /\ announcements out1 = 0
              /\ forallb (fun e => negb (is_READY e)) (arrivals os) = true) as (Hs1 & H0 & Hnr').
      { destruct o as [e | i].
        - change (arrivals (WorkerClient.Arrive e :: os)) with (e :: arrivals os) in Hnr.
          cbn [forallb] in Hnr. apply andb_true_iff in Hnr as [_ Hnr].
          cbn in Hq1. rewrite orb_false_r in Hq1. apply negb_true_iff in Hq1.
          destruct (turn_arrive e (c, [fr]) s1 out1 (touches_readiness_READY e Hq1) Hturn)
            as [Hstep Hfr].
          destruct (untouched_readiness e c (fst s1) out1 Hq1 Hstep) as [Hg H0].
          split; [| split; assumption].
          unfold open_window. rewrite Hfr. cbn [snd]. split; [assumption |].
          unfold nothing_awaited in *. rewrite Hg. assumption.
        - change (arrivals (WorkerClient.Resume i :: os)) with (arrivals os) in Hnr.
          split; [| split; [| assumption]];
            cbn -[WorkerClient.onReady_resume] in Hturn;
            destruct i as [| i]; try discriminate; cbn [lookup list_lookup] in Hturn;
            destruct (resume fr c) as [[c' out'] next] eqn:Hres;
            injection Hturn as <- <-;
            unfold WorkerClient.onReady_resume in Hres;
            destruct (onReady_settle_spec fr c) as [Hsettle _];
            specialize (Hsettle (conj Hint Hopen));
            destruct (WorkerClient.at_await fr) eqn:Hat'; try contradiction;
            try destruct (WorkerClient.every_session c) eqn:Hlive;
            try (rewrite Hsettle in Hres); injection Hres as <- <- <-.
          all: try exact I.
          all: try (split; [discriminate | exact Hopen]).
          all: try apply announcements_finish.
          all: try apply (announcements_announce_shards_connected workerData options). }
      destruct (IH s1 s' out2 Hs1 Hrun Hq Hnr') as [Hle Hgone].
      rewrite announcements_app, H0. cbn [Nat.add]. split; assumption.
Qed.

Lemma quiet_app (os1 os2 : list WorkerClient.Turn) s s1 (out1 : list Effect) :
  turns os1 s = Some (s1, out1) ->
  quiet (os1 ++ os2) s = (quiet os1 s && quiet os2 s1).
Proof.
  revert s out1. induction os1 as [| o os1 IH]; intros s out1 Hrun.
  - injection Hrun as <- _. reflexivity.
  - apply turns_cons_inv in Hrun as (s0 & o1 & o2 & Hturn & Hrun & _).
    cbn -[WorkerClient.turn]. rewrite Hturn, (IH s0 o2 Hrun), andb_assoc. reflexivity.
Qed.


(** *** The schedule in which every handler finishes at once *)

Lemma turn_resume_only fr c :
  turn (WorkerClient.Resume 0) (c, [fr])
  = (let '(c', out, next) := resume fr c in
     Some (c', match next with Some fr' => [fr'] | None => [] end, out)).
Proof. reflexivity. Qed.

(** A session-start handler that is resumed at once, one to three times,
    is [onReady] inside the [handlePayload] callback. *)
Lemma onReady_uninterrupted (guilds : list string) (uid un aid : string) (shardId : Z) c :
  exists n,
    turns (WorkerClient.Arrive (WorkerClient.ShardPayload shardId (READY guilds uid un aid))
             :: replicate n (WorkerClient.Resume 0)) (c, [])
    = Some (fst (WorkerClient.shard_handlePayload GatewayIntentBits_Guilds workerData options
                   shardId (READY guilds uid un aid) c),
            [],
            snd (WorkerClient.shard_handlePayload GatewayIntentBits_Guilds workerData options
                   shardId (READY guilds uid un aid) c)).
Proof.
  unfold WorkerClient.shard_handlePayload, WorkerClient.onPacket, WorkerClient.onReady.
  cbv zeta. cbn [fst snd packet_t].
  set (set1 := fold_left _ guilds _).
  set (c1 := WorkerClient.with_handleGuilds (Some set1)
               (WorkerClient.with_identity
                  (Some {| botId := uid; applicationId := aid; me := (uid, aid) |}) c)).
  set (hook := if WorkerClientOptions.handlePayload options
               then [options_handlePayload shardId "READY"] else []).
  set (raw := WorkerClient.events_call options (events_runEvent "RAW" shardId)
              ++ [collectors_run "RAW"]).
  set (tail := (if WorkerData.debug workerData then [debugger_debug shardId un uid] else [])
               ++ (if WorkerClientOptions.sendPayloadToParent options
                   then [postMessage (WorkerReceivePayload (WorkerData.workerId workerData)
                                        shardId "READY")]
                   else [])).
  assert (turn (WorkerClient.Arrive
                  (WorkerClient.ShardPayload shardId (READY guilds uid un aid))) (c, [])
          = Some (c1, [{| WorkerClient.at_await := WorkerClient.await_execute;
                          WorkerClient.frame_shardId := shardId;
                          WorkerClient.frame_username := un |}],
                  hook ++ raw
                  ++ WorkerClient.events_call options (events_execute "READY" shardId)))
    as Harrive by reflexivity.
  assert (forall a g,
             finish {| WorkerClient.at_await := a; WorkerClient.frame_shardId := shardId;
                       WorkerClient.frame_username := un |}
               (WorkerClient.with_handleGuilds g c1) = tail) as Hfin by reflexivity.
  assert (forall a,
             finish {| WorkerClient.at_await := a; WorkerClient.frame_shardId := shardId;
                       WorkerClient.frame_username := un |} c1 = tail) as Hfin1 by reflexivity.
  assert (WorkerClient.__handleGuilds c1 = Some set1) as Hg1 by reflexivity.
  assert (WorkerClient.every_session c1 = WorkerClient.every_session c) as Hl1 by reflexivity.
  assert (WorkerClient.with_handleGuilds None c1
          = WorkerClient.with_handleGuilds None
              (WorkerClient.with_identity
                 (Some {| botId := uid; applicationId := aid; me := (uid, aid) |}) c))
    as Hend by reflexivity.
  clearbody c1 hook raw.
  destruct (WorkerClient.every_session c) eqn:Hlive;
    destruct (Nat.eqb (size set1) 0) eqn:Hsz;
    destruct (Z.eqb (js_band (WorkerData.intents workerData) GatewayIntentBits_Guilds)
                GatewayIntentBits_Guilds) eqn:Hint;
    cbn [negb andb];
    [exists 3 | exists 3 | exists 2 | exists 3 | exists 1 | exists 1 | exists 1 | exists 1];
    cbn [WorkerClient.turns replicate]; rewrite Harrive;
    repeat (rewrite turn_resume_only;
            unfold WorkerClient.onReady_resume, WorkerClient.onReady_settle;
            cbn [WorkerClient.at_await WorkerClient.frame_shardId
                 WorkerClient.frame_username];
            rewrite ?Hg1, ?Hl1, ?Hlive, ?Hsz, ?Hint, ?Hfin, ?Hfin1; cbn [negb andb];
            cbv beta iota zeta);
    subst tail; cbn [fst snd]; rewrite <- ?Hend, ?app_nil_r, <- ?app_assoc; reflexivity.
Qed.

Lemma turn_arrive_step e c (c' : WorkerClient.t) (frs : list WorkerClient.Frame)
    (out : list Effect) :
  is_READY e = false ->
  step e c = Some (c', out) ->
  turn (WorkerClient.Arrive e) (c, frs) = Some (c', frs, out).
Proof.
  intros Hnr Hstep.
  assert (turn (WorkerClient.Arrive e) (c, frs)
          = match step e c with
            | Some (c', out) => Some (c', frs, out)
            | None => None
            end) as ->.
  { destruct e as [data | shardId packet | w func uuids | dt | shardId f]; try reflexivity.
    destruct packet; try reflexivity. discriminate. }
  rewrite Hstep. reflexivity.
Qed.

Lemma quiet_resumes (n : nat) (i : nat) s : quiet (replicate n (WorkerClient.Resume i)) s = true.
Proof.
  revert s. induction n as [| n IH]; intros s; [reflexivity |].
  cbn -[WorkerClient.turn]. destruct (turn (WorkerClient.Resume i) s) as [[s1 out1] |]; auto.
Qed.

Lemma arrivals_resumes (n : nat) (i : nat) : arrivals (replicate n (WorkerClient.Resume i)) = [].
Proof. induction n as [| n IH]; [reflexivity | exact IH]. Qed.

(** Every run is a schedule: the one in which each session-start handler
    is resumed to its end before the next event is taken.  Such a
    schedule is undisturbed. *)
Lemma run_is_turns (evs : list WorkerClient.Event) :
  forall c (c' : WorkerClient.t) (out : list Effect),
    run evs c = Some (c', out) ->
    exists os,
      arrivals os = evs
      /\ quiet os (c, []) = true
      /\ turns os (c, []) = Some (c', [], out).
Proof.
  induction evs as [| e evs IH]; intros c c' out Hrun.
  - injection Hrun as <- <-. exists []. repeat split.
  - apply (run_cons_inv GatewayIntentBits_Guilds new_Shard js_eval workerData options)
      in Hrun as (c1 & out1 & out2 & Hstep & Hrun & ->).
    destruct (IH c1 c' out2 Hrun) as (os & Harr & Hq & Hturns).
    assert (exists os1,
               arrivals os1 = [e]
               /\ quiet os1 (c, []) = true
               /\ turns os1 (c, []) = Some (c1, [], out1)) as (os1 & Harr1 & Hq1 & Hturns1).
    { destruct (is_READY e) eqn:Hr.
      - destruct e as [| shardId [| | | | | | guilds uid un aid |] | | |]; try discriminate.
        destruct (onReady_uninterrupted guilds uid un aid shardId c) as [n Hn].
        assert (WorkerClient.shard_handlePayload GatewayIntentBits_Guilds workerData options
                  shardId (READY guilds uid un aid) c = (c1, out1)) as Hs
            by (cbn -[WorkerClient.shard_handlePayload] in Hstep; congruence).
        rewrite Hs in Hn. cbn [fst snd] in Hn.
        eexists. split; [| split; [| exact Hn]].
        + change (?o :: replicate n ?r) with ([o] ++ replicate n r).
          rewrite arrivals_app, arrivals_resumes. reflexivity.
        + cbn -[WorkerClient.turn].
          destruct (turn _ (c, [])) as [[s1 o1] |]; [| reflexivity].
          apply quiet_resumes.
      - exists [WorkerClient.Arrive e].
        pose proof (turn_arrive_step e c c1 [] out1 Hr Hstep) as Ht.
        split; [reflexivity |]. split.
        + cbn -[WorkerClient.turn]. rewrite Ht. rewrite orb_true_r. reflexivity.
        + cbn -[WorkerClient.turn]. rewrite Ht, app_nil_r. reflexivity. }
    exists (os1 ++ os). split; [| split].
    + rewrite arrivals_app, Harr1, Harr. reflexivity.
    + rewrite (quiet_app os1 os (c, []) (c1, []) out1 Hturns1), Hq1, Hq. reflexivity.
    + rewrite turns_app, Hturns1, Hturns. reflexivity.
Qed.

End Overlap.

(** *** Instances and counterexamples *)



(** The same packets as in [Sample.overlapping], each handled to its end
    before the next is taken, announce once. *)
Example readiness_announced_once_in_turn :
  option_map (fun r => posted (snd r))
    (WorkerClient.turns 1 Sample.new_Shard Sample.js_eval Sample.workerData Sample.options
       [ WorkerClient.Arrive (WorkerClient.ShardPayload 0 Sample.ready1);
         WorkerClient.Resume 0; WorkerClient.Resume 0;
         WorkerClient.Arrive (WorkerClient.ShardPayload 0 (GUILD_CREATE "g1")) ]
       (Sample.connected, []))
  = Some [WorkerShardsConnected 7; WorkerReady 7].
Proof. vm_compute. reflexivity. Qed.

(** ** The pending-call table *)

Lemma elem_of_map_fst (l : list (nat * Timer)) (h : nat) (tm : Timer) :
  (h, tm) ∈ l -> h ∈ map fst l.
Proof.
  induction l as [| [h' tm'] l IH]; intros Hin.
  - inversion Hin.
  - apply elem_of_cons in Hin as [[= -> ->] | Hin]; simpl; [left | right; auto].
Qed.

Lemma elem_of_map_fst_inv (l : list (nat * Timer)) (h : nat) :
  h ∈ map fst l -> exists tm, (h, tm) ∈ l.
Proof.
  induction l as [| [h' tm'] l IH]; intros Hin.
  - inversion Hin.
  - simpl in Hin. apply elem_of_cons in Hin as [-> | Hin].
    + exists tm'. left.
    + destruct (IH Hin) as [tm Htm]. exists tm. right. assumption.
Qed.

Lemma timers_fst_inj (l : list (nat * Timer)) (h : nat) (t1 t2 : Timer) :
  NoDup (map fst l) -> (h, t1) ∈ l -> (h, t2) ∈ l -> t1 = t2.
Proof.
  induction l as [| [h' tm'] l IH]; intros Hnd H1 H2.
  - inversion H1.
  - simpl in Hnd. apply NoDup_cons in Hnd as [Hnotin Hnd].
    apply elem_of_cons in H1 as [[= -> ->] | H1];
      apply elem_of_cons in H2 as [[= ?] | H2]; subst.
    + reflexivity.
    + exfalso. apply Hnotin. eapply elem_of_map_fst. eassumption.
    + exfalso. apply Hnotin. eapply elem_of_map_fst. eassumption.
    + auto.
Qed.

Lemma NoDup_fst_filter (P : nat * Timer -> Prop) `{forall x, Decision (P x)}
    (l : list (nat * Timer)) :
  NoDup (map fst l) -> NoDup (map fst (filter P l)).
Proof.
  induction l as [| [h tm] l IH]; intros Hnd; [constructor |].
  simpl in Hnd. apply NoDup_cons in Hnd as [Hnotin Hnd].
  rewrite filter_cons. destruct (decide (P (h, tm))); [| auto].
  simpl. apply NoDup_cons. split; [| auto].
  intros Hin. apply Hnotin. clear -Hin.
  induction l as [| [h' tm'] l IH]; [inversion Hin |].
  rewrite filter_cons in Hin. destruct (decide (P (h', tm'))).
  - simpl in Hin. apply elem_of_cons in Hin as [-> | Hin]; simpl; [left | right; auto].
  - simpl. right. auto.
Qed.

Lemma settle_other (p q : nat) (s : PromiseState) (fs : gmap nat PromiseState) :
  p <> q -> settle q s fs !! p = fs !! p.
Proof.
  intros Hne. unfold settle. destruct (fs !! q) as [[| |] |]; try reflexivity.
  apply lookup_insert_ne. congruence.
Qed.

Lemma settle_pending (p : nat) (s : PromiseState) (fs : gmap nat PromiseState) :
  fs !! p = Some Pending -> settle p s fs !! p = Some s.
Proof. intros H. unfold settle. rewrite H. apply lookup_insert_eq. Qed.

Lemma settle_settled (p q : nat) (s : PromiseState) (m : string)
    (fs : gmap nat PromiseState) :
  fs !! p = Some (Rejected m) -> settle q s fs !! p = Some (Rejected m).
Proof.
  intros H. destruct (decide (p = q)) as [<- | Hne].
  - unfold settle. rewrite H. assumption.
  - rewrite settle_other; assumption.
Qed.

Lemma wf_create (adapter rest : option (gset string)) :
  wf (WorkerClient.create adapter rest).
Proof.
  unfold wf. simpl. split; [constructor |]. split; [| split].
  - intros h tm Hin. inversion Hin.
  - intros n e Hn. rewrite lookup_empty in Hn. discriminate.
  - intros n1 n2 e1 e2 Hn. rewrite lookup_empty in Hn. discriminate.
Qed.

(** A step that leaves the table and the runtime alone keeps both properties. *)
Lemma wf_frame (c c' : WorkerClient.t) :
  WorkerClient.promises c' = WorkerClient.promises c ->
  WorkerClient.runtime c' = WorkerClient.runtime c ->
  wf c -> wf c'.
Proof. unfold wf. intros -> ->. auto. Qed.

Lemma waiting_call_frame (n : string) (p h : nat) (tm : Timer) (c c' : WorkerClient.t) :
  WorkerClient.promises c' = WorkerClient.promises c ->
  WorkerClient.runtime c' = WorkerClient.runtime c ->
  waiting_call n p h tm c -> waiting_call n p h tm c'.
Proof. unfold waiting_call. intros -> ->. auto. Qed.

(** [generateSendPromise] on a free nonce. *)
Lemma wf_generateSendPromise (nonce message : string) (c : WorkerClient.t) :
  wf c ->
  WorkerClient.promises c !! nonce = None ->
  wf (fst (WorkerClient.generateSendPromise nonce message c)).
Proof.
  intros (Hnd & Htm & Hbound & Hinj) Hfree.
  unfold wf, WorkerClient.generateSendPromise. cbn.
  split; [| split; [| split]].
  - rewrite map_app. simpl. apply NoDup_app. split; [assumption |]. split.
    + intros x Hx Hin. apply list_elem_of_singleton in Hin as ->.
      apply elem_of_map_fst_inv in Hx as [tm Hx].
      destruct (Htm _ tm Hx) as [Hlt _]. lia.
    + apply NoDup_singleton.
  - intros h tm Hin. apply elem_of_app in Hin as [Hin | Hin].
    + destruct (Htm h tm Hin) as [Hlt Hentry]. split; [lia |].
      rewrite lookup_insert_ne; [assumption |]. congruence.
    + apply list_elem_of_singleton in Hin. injection Hin as -> ->. simpl.
      split; [lia |]. apply lookup_insert_eq.
  - intros n e Hn. apply lookup_insert_Some in Hn as [[<- <-] | [Hne Hn]]; simpl.
    + lia.
    + destruct (Hbound n e Hn). lia.
  - intros n1 n2 e1 e2 H1 H2 Heq.
    apply lookup_insert_Some in H1 as [[<- <-] | [Hne1 H1]];
      apply lookup_insert_Some in H2 as [[<- <-] | [Hne2 H2]]; simpl in *.
    + reflexivity.
    + destruct (Hbound n2 e2 H2). lia.
    + destruct (Hbound n1 e1 H1). lia.
    + eapply Hinj; eassumption.
Qed.

(** An eval response that finds its entry. *)
Lemma wf_eval_response (nonce : string) (entry : PendingCall.t) (s : PromiseState)
    (c : WorkerClient.t) :
  wf c ->
  WorkerClient.promises c !! nonce = Some entry ->
  wf (WorkerClient.with_promises (delete nonce (WorkerClient.promises c))
        (WorkerClient.with_runtime
           {| timers := clearTimeout (PendingCall.timeout entry)
                          (timers (WorkerClient.runtime c));
              next_timer := next_timer (WorkerClient.runtime c);
              futures := settle (PendingCall.resolve entry) s
                           (futures (WorkerClient.runtime c));
              next_promise := next_promise (WorkerClient.runtime c);
              clock := clock (WorkerClient.runtime c) |} c)).
Proof.
  intros (Hnd & Htm & Hbound & Hinj) Hentry.
  unfold wf. cbn. split; [| split; [| split]].
  - apply NoDup_fst_filter. assumption.
  - intros h tm Hin. apply list_elem_of_filter in Hin as [Hne Hin]. simpl in Hne.
    destruct (Htm h tm Hin) as [Hlt Hlook]. split; [assumption |].
    rewrite lookup_delete_ne; [assumption |].
    intros Heq. rewrite <- Heq, Hentry in Hlook. injection Hlook as ->.
    apply Hne. reflexivity.
  - intros n e Hn. apply lookup_delete_Some in Hn as [_ Hn]. eauto.
  - intros n1 n2 e1 e2 H1 H2.
    apply lookup_delete_Some in H1 as [_ H1]. apply lookup_delete_Some in H2 as [_ H2].
    eauto.
Qed.

Lemma generateNonce_free (large : bool) (uuids rest : list string) (nonce : string)
    (table : gmap string PendingCall.t) :
  WorkerClient.generateNonce large uuids table = Some (nonce, rest) ->
  table !! nonce = None.
Proof.
  induction uuids as [| uuid uuids IH]; simpl; [discriminate |].
  destruct (decide (is_Some (table !! (if large then uuid else split_first "-" uuid))))
    as [Hlive | Hfree]; [exact IH |].
  intros [= <- <-].
  destruct (table !! (if large then uuid else split_first "-" uuid)) eqn:E; [| reflexivity].
  exfalso. apply Hfree. eauto.
Qed.

(** *** Timeouts that run *)

Section Timeouts.
Implicit Types (due : list (nat * Timer)) (c : WorkerClient.t).

Local Abbreviation fire l x :=
  (fold_left (fun c' ht => WorkerClient.on_timeout (snd ht) c') l x).

Lemma fire_runtime due c :
  timers (WorkerClient.runtime (fire due c)) = timers (WorkerClient.runtime c)
  /\ next_timer (WorkerClient.runtime (fire due c)) = next_timer (WorkerClient.runtime c)
  /\ next_promise (WorkerClient.runtime (fire due c)) = next_promise (WorkerClient.runtime c)
  /\ clock (WorkerClient.runtime (fire due c)) = clock (WorkerClient.runtime c).
Proof.
  revert c. induction due as [| ht due IH]; intros c; simpl; [repeat split |].
  destruct (IH (WorkerClient.on_timeout ht.2 c)) as (-> & -> & -> & ->). repeat split.
Qed.

Lemma fire_promises_sub due c (k : string) (e : PendingCall.t) :
  WorkerClient.promises (fire due c) !! k = Some e -> WorkerClient.promises c !! k = Some e.
Proof.
  revert c. induction due as [| ht due IH]; intros c; simpl; [auto |].
  intros H. apply IH in H. cbn in H. apply lookup_delete_Some in H as [_ H]. exact H.
Qed.

Lemma fire_promises_other due c (k : string) :
  (forall ht, ht ∈ due -> timer_nonce ht.2 <> k) ->
  WorkerClient.promises (fire due c) !! k = WorkerClient.promises c !! k.
Proof.
  revert c. induction due as [| ht due IH]; intros c Hother; simpl; [reflexivity |].
  rewrite IH by (intros ht' Hin; apply Hother; right; assumption).
  cbn. apply lookup_delete_ne. apply Hother. left.
Qed.

Lemma fire_futures_other due c (p : nat) :
  (forall ht, ht ∈ due -> timer_reject ht.2 <> p) ->
  futures (WorkerClient.runtime (fire due c)) !! p = futures (WorkerClient.runtime c) !! p.
Proof.
  revert c. induction due as [| ht due IH]; intros c Hother; simpl; [reflexivity |].
  rewrite IH by (intros ht' Hin; apply Hother; right; assumption).
  cbn. apply settle_other. intros Heq. eapply Hother; [left | symmetry; exact Heq].
Qed.

(** Once the call for [n] has timed out, later callbacks change nothing for it. *)
Lemma fire_fired due c (n : string) (p : nat) (m : string) :
  WorkerClient.promises c !! n = None ->
  futures (WorkerClient.runtime c) !! p = Some (Rejected m) ->
  WorkerClient.promises (fire due c) !! n = None
  /\ futures (WorkerClient.runtime (fire due c)) !! p = Some (Rejected m).
Proof.
  revert c. induction due as [| ht due IH]; intros c Hn Hp; simpl; [auto |].
  apply IH; cbn.
  - apply lookup_delete_None. right. assumption.
  - apply settle_settled. assumption.
Qed.

(** The callback of the call for [n] is among those that run. *)
Lemma fire_fires due c (n : string) (p h : nat) (tm : Timer) :
  timer_nonce tm = n ->
  timer_reject tm = p ->
  (h, tm) ∈ due ->
  (forall ht, ht ∈ due -> ht = (h, tm) \/ timer_reject ht.2 <> p) ->
  futures (WorkerClient.runtime c) !! p = Some Pending ->
  WorkerClient.promises (fire due c) !! n = None
  /\ futures (WorkerClient.runtime (fire due c)) !! p = Some (Rejected (timer_message tm)).
Proof.
  intros Hn Hp. revert c.
  induction due as [| ht due IH]; intros c Hin Hothers Hpending; [inversion Hin |].
  simpl. destruct (Hothers ht) as [-> | Hne]; [left | |].
  - apply fire_fired; cbn.
    + rewrite Hn. apply lookup_delete_eq.
    + rewrite Hp. apply settle_pending. assumption.
  - apply elem_of_cons in Hin as [<- | Hin].
    + apply fire_fired; cbn.
      * rewrite Hn. apply lookup_delete_eq.
      * rewrite Hp. apply settle_pending. assumption.
    + apply IH; [assumption | |].
      * intros ht' Hin'. apply Hothers. right. assumption.
      * cbn. rewrite settle_other; [assumption | congruence].
Qed.
End Timeouts.

Section PendingCalls.
Variable GatewayIntentBits_Guilds : Z.
Variable new_Shard : Z -> Shard.Options -> Shard.t.
Variable js_eval : string -> WorkerClient.t -> EvalOutcome.
Variable workerData : WorkerData.t.
Variable options : WorkerClientOptions.t.

Local Abbreviation handle :=
  (WorkerClient.handleManagerMessages new_Shard js_eval workerData options).
Local Abbreviation step :=
  (WorkerClient.step GatewayIntentBits_Guilds new_Shard js_eval workerData options).
Local Abbreviation run :=
  (WorkerClient.run GatewayIntentBits_Guilds new_Shard js_eval workerData options).

(** A pending timeout identifies its entry. *)
Lemma timer_of_entry (c : WorkerClient.t) (n : string) (p h : nat) (tm : Timer) :
  wf c ->
  WorkerClient.promises c !! n
  = Some {| PendingCall.resolve := p; PendingCall.timeout := h |} ->
  forall ht, ht ∈ timers (WorkerClient.runtime c) ->
    (h, tm) ∈ timers (WorkerClient.runtime c) ->
    timer_nonce ht.2 = n \/ timer_reject ht.2 = p \/ ht.1 = h -> ht = (h, tm).
Proof.
  intros (Hnd & Htm & _ & Hinj) Hentry [h' tm'] Hin Hmine Hsame. simpl in Hsame.
  destruct (Htm h' tm' Hin) as [_ Hlook].
  assert (h' = h) as ->.
  { destruct Hsame as [Hn | [Hp | ?]]; [| | assumption].
    - rewrite Hn, Hentry in Hlook. congruence.
    - assert (timer_nonce tm' = n) as Hn by (eapply Hinj; eauto).
      rewrite Hn, Hentry in Hlook. congruence. }
  f_equal. eapply timers_fst_inj; eassumption.
Qed.

Lemma wf_elapse (dt : N) (c : WorkerClient.t) : wf c -> wf (WorkerClient.elapse dt c).
Proof.
  intros Hwf. pose proof Hwf as (Hnd & Htm & Hbound & Hinj).
  unfold WorkerClient.elapse. cbv zeta.
  set (now := (clock (WorkerClient.runtime c) + dt)%N).
  set (due := filter _ (timers (WorkerClient.runtime c))).
  set (c0 := WorkerClient.with_runtime _ c).
  destruct (fire_runtime due c0) as (Ht & Hnt & Hnp & _).
  unfold wf. rewrite Ht, Hnt, Hnp. cbn.
  split; [| split; [| split]].
  - apply NoDup_fst_filter. assumption.
  - intros h tm Hin. apply list_elem_of_filter in Hin as [Hlate Hin]. simpl in Hlate.
    destruct (Htm h tm Hin) as [Hlt Hlook]. split; [assumption |].
    rewrite fire_promises_other; [exact Hlook |].
    intros ht Hdue Heq. apply list_elem_of_filter in Hdue as [Hearly Hdue].
    assert (ht = (h, tm)) as ->.
    { eapply timer_of_entry; eauto. }
    apply Hlate. exact Hearly.
  - intros n e Hn. apply fire_promises_sub in Hn. eauto.
  - intros n1 n2 e1 e2 H1 H2. apply fire_promises_sub in H1, H2. eauto.
Qed.

(** Time passes but the deadline of the call is not reached. *)
Lemma waiting_call_elapse (dt : N) (c : WorkerClient.t) (n : string) (p h : nat)
    (tm : Timer) :
  wf c ->
  waiting_call n p h tm c ->
  (clock (WorkerClient.runtime c) + dt < deadline tm)%N ->
  waiting_call n p h tm (WorkerClient.elapse dt c).
Proof.
  intros Hwf (Hentry & Hin & Hpending & _) Hbefore.
  unfold WorkerClient.elapse. cbv zeta.
  set (now := (clock (WorkerClient.runtime c) + dt)%N) in *.
  set (due := filter _ (timers (WorkerClient.runtime c))).
  set (c0 := WorkerClient.with_runtime _ c).
  destruct (fire_runtime due c0) as (Ht & _ & _ & Hclock).
  assert (forall ht, ht ∈ due -> timer_nonce ht.2 <> n /\ timer_reject ht.2 <> p) as Hothers.
  { intros ht Hdue. apply list_elem_of_filter in Hdue as [Hearly Hdue].
    split; intros Heq;
      (assert (ht = (h, tm)) as -> by (eapply timer_of_entry; eauto));
      simpl in Hearly; lia. }
  unfold waiting_call. rewrite Ht, Hclock. cbn.
  split; [| split; [| split]].
  - rewrite fire_promises_other; [exact Hentry |]. intros ht Hdue. apply Hothers. assumption.
  - apply list_elem_of_filter. split; [simpl; lia | assumption].
  - rewrite fire_futures_other; [exact Hpending |]. intros ht Hdue. apply Hothers. assumption.
  - exact Hbefore.
Qed.

(** Time passes and the deadline of the call is reached. *)
Lemma waiting_call_times_out (dt : N) (c : WorkerClient.t) (n : string) (p h : nat)
    (tm : Timer) :
  wf c ->
  waiting_call n p h tm c ->
  (deadline tm <= clock (WorkerClient.runtime c) + dt)%N ->
  WorkerClient.promises (WorkerClient.elapse dt c) !! n = None
  /\ futures (WorkerClient.runtime (WorkerClient.elapse dt c)) !! p
     = Some (Rejected (timer_message tm)).
Proof.
  intros Hwf (Hentry & Hin & Hpending & _) Hafter.
  pose proof Hwf as (_ & Htm & _ & Hinj).
  destruct (Htm h tm Hin) as [_ Hlook].
  assert (timer_nonce tm = n) as Hn by (eapply Hinj; eauto).
  assert (timer_reject tm = p) as Hp by (rewrite Hn, Hentry in Hlook; congruence).
  unfold WorkerClient.elapse. cbv zeta.
  apply (fire_fires _ _ n p h tm Hn Hp).
  - apply list_elem_of_filter. split; [exact Hafter | assumption].
  - intros ht Hdue. apply list_elem_of_filter in Hdue as [_ Hdue].
    destruct (decide (timer_reject ht.2 = p)) as [Heq | Hne]; [left | right; assumption].
    apply (timer_of_entry c n p h tm Hwf Hentry); auto.
  - exact Hpending.
Qed.

(** The packet dispatcher does not touch the table or the runtime. *)
Lemma shard_handlePayload_frame (shardId : Z) (packet : Packet) (c : WorkerClient.t) :
  WorkerClient.promises
    (fst (WorkerClient.shard_handlePayload GatewayIntentBits_Guilds workerData options
            shardId packet c)) = WorkerClient.promises c
  /\ WorkerClient.runtime
       (fst (WorkerClient.shard_handlePayload GatewayIntentBits_Guilds workerData options
               shardId packet c)) = WorkerClient.runtime c.
Proof.
  unfold WorkerClient.shard_handlePayload, WorkerClient.onPacket,
    WorkerClient.onGuild, WorkerClient.onReady.
  cbv zeta. cbn [fst snd].
  destruct packet; repeat case_match; split; reflexivity.
Qed.

(** Of the manager's messages only an eval response touches them. *)
Lemma handleManagerMessages_frame (data : ManagerMessages) (c : WorkerClient.t) :
  (forall nonce response, data <> EVAL_RESPONSE nonce response) ->
  WorkerClient.promises (fst (fst (handle data c))) = WorkerClient.promises c
  /\ WorkerClient.runtime (fst (fst (handle data c))) = WorkerClient.runtime c.
Proof.
  intros Hne.
  destruct data; cbn -[fold_left]; repeat case_match; try (split; reflexivity).
  exfalso. eapply Hne. reflexivity.
Qed.

Lemma shard_change_frame (shardId : Z) (f : Shard.t -> Shard.t) (c : WorkerClient.t) :
  WorkerClient.promises (WorkerClient.shard_change shardId f c) = WorkerClient.promises c
  /\ WorkerClient.runtime (WorkerClient.shard_change shardId f c) = WorkerClient.runtime c.
Proof.
  unfold WorkerClient.shard_change.
  destruct (JsMap.get shardId (WorkerClient.shards c)); split; reflexivity.
Qed.

Lemma eval_response_dec (data : ManagerMessages) :
  (exists nonce response, data = EVAL_RESPONSE nonce response)
  \/ (forall nonce response, data <> EVAL_RESPONSE nonce response).
Proof. destruct data; (left; eauto; fail) || (right; discriminate). Qed.

(** Every event keeps the instance consistent. *)
Lemma step_wf (e : WorkerClient.Event) (c c' : WorkerClient.t) (out : list Effect) :
  wf c -> step e c = Some (c', out) -> wf c'.
Proof.
  intros Hwf Hstep.
  destruct e as [data | shardId packet | w func uuids | dt | shardId f].
  - cbn -[WorkerClient.handleManagerMessages] in Hstep.
    destruct (handle data c) as [[c1 o1] k] eqn:Hh. injection Hstep as <- <-.
    destruct (eval_response_dec data) as [(nonce & response & ->) | Hne].
    + cbn in Hh. destruct (WorkerClient.promises c !! nonce) as [entry |] eqn:Hentry.
      * injection Hh as <- _ _. apply wf_eval_response; assumption.
      * injection Hh as <- _ _. assumption.
    + destruct (handleManagerMessages_frame data c Hne) as [Hp Hr].
      rewrite Hh in Hp, Hr. eapply wf_frame; eassumption.
  - assert (WorkerClient.shard_handlePayload GatewayIntentBits_Guilds workerData options
              shardId packet c = (c', out)) as Hs
        by (cbn -[WorkerClient.shard_handlePayload] in Hstep; congruence).
    destruct (shard_handlePayload_frame shardId packet c) as [Hp Hr].
    assert (c' = fst (WorkerClient.shard_handlePayload GatewayIntentBits_Guilds workerData
                        options shardId packet c)) as -> by (rewrite Hs; reflexivity).
    eapply wf_frame; eassumption.
  - cbn -[WorkerClient.generateSendPromise] in Hstep. unfold WorkerClient.tellWorker in Hstep.
    destruct (WorkerClient.generateNonce true uuids (WorkerClient.promises c))
      as [[nonce rest] |] eqn:Hg; [| discriminate].
    injection Hstep as <- _. apply wf_generateSendPromise; [assumption |].
    eapply generateNonce_free. eassumption.
  - injection Hstep as <- _. apply wf_elapse. assumption.
  - injection Hstep as <- _.
    destruct (shard_change_frame shardId f c) as [Hp Hr]. eapply wf_frame; eassumption.
Qed.

Lemma run_wf (evs : list WorkerClient.Event) :
  forall (c c' : WorkerClient.t) (out : list Effect),
    wf c -> run evs c = Some (c', out) -> wf c'.
Proof.
  induction evs as [| e evs IH]; intros c c' out Hwf Hrun.
  - injection Hrun as <- _. assumption.
  - cbn -[WorkerClient.step] in Hrun.
    destruct (step e c) as [[c1 out1] |] eqn:Hstep; [| discriminate].
    destruct (run evs c1) as [[c2 out2] |] eqn:Hrest; [| discriminate].
    injection Hrun as <- _. eapply IH; [| eassumption]. eapply step_wf; eassumption.
Qed.

(** An event that is not the response to [n] and does not reach the
    deadline leaves the call for [n] waiting. *)
Lemma step_waiting_call (e : WorkerClient.Event) (c c' : WorkerClient.t)
    (out : list Effect) (n : string) (p h : nat) (tm : Timer) :
  wf c ->
  waiting_call n p h tm c ->
  step e c = Some (c', out) ->
  responds n e = false ->
  (clock (WorkerClient.runtime c) + elapsed [e] < deadline tm)%N ->
  waiting_call n p h tm c'
  /\ clock (WorkerClient.runtime c') = (clock (WorkerClient.runtime c) + elapsed [e])%N.
Proof.
  intros Hwf Hwait Hstep Hresp Htime.
  pose proof Hwf as (_ & _ & Hbound & Hinj).
  pose proof Hwait as (Hentry & Hin & Hpending & Hclock).
  destruct e as [data | shardId packet | w func uuids | dt | shardId f];
    cbn [elapsed fold_right] in *; rewrite ?N.add_0_r in *.
  - cbn -[WorkerClient.handleManagerMessages] in Hstep.
    destruct (handle data c) as [[c1 o1] k] eqn:Hh. injection Hstep as <- <-.
    destruct (eval_response_dec data) as [(nonce & response & ->) | Hne].
    + cbn in Hh, Hresp. apply String.eqb_neq in Hresp.
      destruct (WorkerClient.promises c !! nonce) as [entry |] eqn:Hother;
        injection Hh as <- _ _; [| split; [assumption | reflexivity]].
      split; [| reflexivity]. unfold waiting_call. cbn.
      assert (PendingCall.resolve entry <> p /\ PendingCall.timeout entry <> h) as [Hp Hh].
      { split; intros Heq; apply Hresp;
          eapply (Hinj nonce n); eauto. }
      split; [| split; [| split]].
      * rewrite lookup_delete_ne; [assumption | congruence].
      * apply list_elem_of_filter. split; [simpl; congruence | assumption].
      * rewrite settle_other; [assumption | congruence].
      * assumption.
    + destruct (handleManagerMessages_frame data c Hne) as [Hp Hr].
      rewrite Hh in Hp, Hr. cbn [fst] in Hp, Hr. rewrite Hr.
      split; [| reflexivity]. eapply waiting_call_frame; eassumption.
  - assert (WorkerClient.shard_handlePayload GatewayIntentBits_Guilds workerData options
              shardId packet c = (c', out)) as Hs
        by (cbn -[WorkerClient.shard_handlePayload] in Hstep; congruence).
    destruct (shard_handlePayload_frame shardId packet c) as [Hp Hr].
    assert (c' = fst (WorkerClient.shard_handlePayload GatewayIntentBits_Guilds workerData
                        options shardId packet c)) as -> by (rewrite Hs; reflexivity).
    rewrite Hr. split; [| reflexivity]. eapply waiting_call_frame; eassumption.
  - cbn -[WorkerClient.generateSendPromise] in Hstep. unfold WorkerClient.tellWorker in Hstep.
    destruct (WorkerClient.generateNonce true uuids (WorkerClient.promises c))
      as [[nonce rest] |] eqn:Hg; [| discriminate].
    injection Hstep as <- _. apply generateNonce_free in Hg.
    split; [| reflexivity]. unfold waiting_call. cbn.
    destruct (Hbound n _ Hentry) as [Hlt _]. cbn in Hlt.
    split; [| split; [| split]].
    + rewrite lookup_insert_ne; [assumption | congruence].
    + apply elem_of_app. left. assumption.
    + rewrite lookup_insert_ne; [assumption | lia].
    + assumption.
  - injection Hstep as <- _. split.
    + apply waiting_call_elapse; assumption.
    + unfold WorkerClient.elapse. cbv zeta.
      match goal with |- context [fold_left _ ?due ?c0] =>
        destruct (fire_runtime due c0) as (_ & _ & _ & ->) end.
      reflexivity.
  - injection Hstep as <- _.
    destruct (shard_change_frame shardId f c) as [Hp Hr]. rewrite Hr.
    split; [| reflexivity]. eapply waiting_call_frame; eassumption.
Qed.

Lemma elapsed_cons (e : WorkerClient.Event) (evs : list WorkerClient.Event) :
  elapsed (e :: evs) = (elapsed [e] + elapsed evs)%N.
Proof. unfold elapsed. destruct e; simpl; lia. Qed.

Lemma run_waiting_call (evs : list WorkerClient.Event) (n : string) (p h : nat)
    (tm : Timer) :
  forall (c c' : WorkerClient.t) (out : list Effect),
    wf c ->
    waiting_call n p h tm c ->
    run evs c = Some (c', out) ->
    forallb (fun e => negb (responds n e)) evs = true ->
    (clock (WorkerClient.runtime c) + elapsed evs < deadline tm)%N ->
    wf c'
    /\ waiting_call n p h tm c'
    /\ clock (WorkerClient.runtime c') = (clock (WorkerClient.runtime c) + elapsed evs)%N.
Proof.
  induction evs as [| e evs IH]; intros c c' out Hwf Hwait Hrun Hresp Htime.
  - injection Hrun as <- _. cbn. rewrite N.add_0_r. auto.
  - cbn -[WorkerClient.step] in Hrun.
    destruct (step e c) as [[c1 out1] |] eqn:Hstep; [| discriminate].
    destruct (run evs c1) as [[c2 out2] |] eqn:Hrest; [| discriminate].
    injection Hrun as <- _.
    simpl in Hresp. apply andb_true_iff in Hresp as [He Hresp].
    apply negb_true_iff in He. rewrite elapsed_cons in *.
    destruct (step_waiting_call e c c1 out1 n p h tm Hwf Hwait Hstep He) as [Hwait1 Hclock1];
      [lia |].
    destruct (IH c1 c2 out2) as (Hwf2 & Hwait2 & Hclock2); auto.
    + eapply step_wf; eassumption.
    + lia.
    + split; [assumption |]. split; [assumption | lia].
Qed.

(** Only [tellWorker] can fail to return, and only when every draw of the
    oracle is a live nonce. *)
Lemma step_returns (e : WorkerClient.Event) (c : WorkerClient.t) :
  (forall w func uuids,
      e = WorkerClient.TellWorker w func uuids ->
      Exists (fun uuid => WorkerClient.promises c !! uuid = None) uuids) ->
  is_Some (step e c).
Proof.
  intros Hdraws.
  destruct e as [data | shardId packet | w func uuids | dt | shardId f];
    try (cbn -[WorkerClient.handleManagerMessages WorkerClient.shard_handlePayload];
         eauto; fail).
  - cbn -[WorkerClient.handleManagerMessages].
    destruct (handle data c) as [[c1 o1] k]. eauto.
  - specialize (Hdraws w func uuids eq_refl).
    cbn -[WorkerClient.generateSendPromise]. unfold WorkerClient.tellWorker.
    assert (is_Some (WorkerClient.generateNonce true uuids (WorkerClient.promises c)))
      as [[nonce rest] ->].
    { induction Hdraws as [uuid uuids Hfree | uuid uuids _ IH]; simpl.
      - rewrite Hfree. destruct (decide (is_Some None)) as [[? ?] | _]; [discriminate | eauto].
      - destruct (decide (is_Some (WorkerClient.promises c !! uuid))); [exact IH | eauto]. }
    eauto.
Qed.

(** C4: a call registered by [generateSendPromise] under a free nonce (as
    [tellWorker] does, with the message ["Timeout"]) stays in the table
    with its promise pending while less than 60000 ms have passed and no
    response for its nonce has come; when the 60000th millisecond passes,
    the entry is removed and the promise is rejected with the message; a
    response for the nonce that comes afterwards changes nothing and sends
    nothing. *)
Theorem pending_call_times_out (c0 : WorkerClient.t) (nonce message : string)
    (evs : list WorkerClient.Event) (c2 : WorkerClient.t) (out2 : list Effect)
    (dt : N) (response : Value) :
  wf c0 ->
  WorkerClient.promises c0 !! nonce = None ->
  run evs (fst (WorkerClient.generateSendPromise nonce message c0)) = Some (c2, out2) ->
  forallb (fun e => negb (responds nonce e)) evs = true ->
  (elapsed evs < 60000)%N ->
  (60000 <= elapsed evs + dt)%N ->
  (forall toWorkerId func uuids c1 out p,
      WorkerClient.tellWorker workerData toWorkerId func uuids c0 = Some (c1, out, p) ->
      exists nonce',
        WorkerClient.promises c0 !! nonce' = None
        /\ WorkerClient.generateSendPromise nonce' "Timeout" c0 = (c1, p))
  /\ is_Some (WorkerClient.promises c2 !! nonce)
  /\ futures (WorkerClient.runtime c2)
       !! snd (WorkerClient.generateSendPromise nonce message c0) = Some Pending
  /\ WorkerClient.promises (WorkerClient.elapse dt c2) !! nonce = None
  /\ futures (WorkerClient.runtime (WorkerClient.elapse dt c2))
       !! snd (WorkerClient.generateSendPromise nonce message c0) = Some (Rejected message)
  /\ handle (EVAL_RESPONSE nonce response) (WorkerClient.elapse dt c2)
     = (WorkerClient.elapse dt c2, [], Normal).
Proof.
  intros Hwf Hfree Hrun Hresp Hbefore Hafter.
  split.
  { intros toWorkerId func uuids c1 out p. unfold WorkerClient.tellWorker.
    destruct (WorkerClient.generateNonce true uuids (WorkerClient.promises c0))
      as [[nonce' rest] |] eqn:Hg; [| discriminate].
    intros [= <- _ <-]. exists nonce'. split; [eapply generateNonce_free; eassumption |].
    reflexivity. }
  set (p := next_promise (WorkerClient.runtime c0)).
  set (h := next_timer (WorkerClient.runtime c0)).
  set (tm := {| deadline := (clock (WorkerClient.runtime c0) + 60000)%N;
                timer_nonce := nonce; timer_message := message; timer_reject := p |}).
  set (c1 := fst (WorkerClient.generateSendPromise nonce message c0)) in *.
  assert (wf c1) as Hwf1 by (apply wf_generateSendPromise; assumption).
  assert (waiting_call nonce p h tm c1) as Hwait1.
  { unfold waiting_call, c1, WorkerClient.generateSendPromise. cbn.
    split; [apply lookup_insert_eq |]. split; [| split].
    - apply elem_of_app. right. left.
    - apply lookup_insert_eq.
    - lia. }
  assert (clock (WorkerClient.runtime c1) = clock (WorkerClient.runtime c0)) as Hclock1
      by reflexivity.
  destruct (run_waiting_call evs nonce p h tm c1 c2 out2 Hwf1 Hwait1 Hrun Hresp)
    as (Hwf2 & Hwait2 & Hclock2).
  { rewrite Hclock1. cbn. lia. }
  destruct (waiting_call_times_out dt c2 nonce p h tm Hwf2 Hwait2) as [Hgone Hrejected].
  { rewrite Hclock2, Hclock1. cbn. lia. }
  destruct Hwait2 as (Hentry2 & _ & Hpending2 & _).
  split; [eauto |]. split; [exact Hpending2 |]. split; [exact Hgone |].
  split; [exact Hrejected |].
  cbn. rewrite Hgone. reflexivity.
Qed.
End PendingCalls.

(** *** Instances *)

Lemma pending_call_times_out_witness :
  WorkerClient.promises (WorkerClient.elapse 1 Sample.before_deadline) !! "n1" = None
  /\ futures (WorkerClient.runtime (WorkerClient.elapse 1 Sample.before_deadline)) !! 0
     = Some (Rejected "Timeout")
  /\ WorkerClient.handleManagerMessages Sample.new_Shard Sample.js_eval Sample.workerData
       Sample.options (EVAL_RESPONSE "n1" (VString "late"))
       (WorkerClient.elapse 1 Sample.before_deadline)
     = (WorkerClient.elapse 1 Sample.before_deadline, [], Normal).
Proof.
  refine (proj2 (proj2 (proj2
           (pending_call_times_out 1 Sample.new_Shard Sample.js_eval Sample.workerData
              Sample.options Sample.fresh "n1" "Timeout" Sample.quiet
              Sample.before_deadline
              (match Sample.quiet_run with Some r => snd r | None => [] end)
              1 (VString "late") (wf_create None None) _ _ _ _ _)))).
  - reflexivity.
  - vm_compute. reflexivity.
  - reflexivity.
  - reflexivity.
  - vm_compute. discriminate.
Defined.

Lemma unknown_shard_dropped_witness :
  exists msg,
    WorkerClient.handleManagerMessages Sample.new_Shard Sample.js_eval Sample.workerData
      Sample.options (ALLOW_CONNECT 5 "presence") Sample.connected
    = (Sample.connected, [logger_fatal msg], Normal).
Proof.
  destruct (unknown_shard_dropped Sample.new_Shard Sample.js_eval Sample.workerData
              Sample.options 1 Sample.connected (ALLOW_CONNECT 5 "presence") 5
              eq_refl eq_refl) as (msg & H & _).
  exists msg. exact H.
Defined.

Lemma shard_info_reply_matches_shard_witness :
  exists info,
    WorkerClient.handleManagerMessages Sample.new_Shard Sample.js_eval Sample.workerData
      Sample.options (SHARD_INFO 1 "q1") Sample.connected
    = (Sample.connected, [postMessage (WorkerSendShardInfo info "q1" 7)], Normal)
    /\ WorkerShardInfo.open info = true
    /\ WorkerShardInfo.shardId info = 1%Z
    /\ WorkerShardInfo.latency info = 30%float
    /\ WorkerShardInfo.resumable info = true.
Proof.
  exact (proj1 (shard_info_reply_matches_shard Sample.new_Shard Sample.js_eval
                  Sample.workerData Sample.options Sample.connected 1 "q1")
           (Sample.shard 1 30%float (Some "s1")) eq_refl).
Defined.

Example execute_eval_throwing :
  WorkerClient.handleManagerMessages Sample.new_Shard Sample.js_eval Sample.workerData
    Sample.options (EXECUTE_EVAL "throw" "e1") Sample.connected
  = (Sample.connected, [postMessage (WorkerSendEvalResponse (VError "boom") 7 "e1")], Normal).
Proof. reflexivity. Qed.

Example spawn_twice_requests_twice :
  option_map (fun r => (JsMap.keys (WorkerClient.shards (fst r)), snd r))
    (WorkerClient.run 1 Sample.new_Shard Sample.js_eval Sample.workerData Sample.options
       [WorkerClient.ManagerMessage (SPAWN_SHARDS "a" false);
        WorkerClient.ManagerMessage (SPAWN_SHARDS "b" true)] Sample.fresh)
  = Some ([0; 1]%Z,
          [postMessage (WorkerRequestConnect 0 7); postMessage (WorkerRequestConnect 1 7);
           postMessage (WorkerRequestConnect 0 7); postMessage (WorkerRequestConnect 1 7)]).
Proof. vm_compute. reflexivity. Qed.

(** * Further properties *)

(** ** Pending calls: responses, time and reuse *)

Lemma settle_keeps (p q : nat) (s s' : PromiseState) (fs : gmap nat PromiseState) :
  fs !! p = Some s -> s <> Pending -> settle q s' fs !! p = Some s.
Proof.
  intros H Hs. destruct (decide (p = q)) as [<- | Hne].
  - unfold settle. rewrite H. destruct s; [contradiction | assumption..].
  - rewrite settle_other; assumption.
Qed.

Lemma fire_settled (due : list (nat * Timer)) (c : WorkerClient.t) (p : nat)
    (s : PromiseState) :
  settled_with p s c ->
  settled_with p s (fold_left (fun c' ht => WorkerClient.on_timeout (snd ht) c') due c).
Proof.
  revert c. induction due as [| ht due IH]; intros c H; simpl; [assumption |].
  apply IH. destruct H as (Hp & Hs & Hlt). unfold settled_with. cbn.
  split; [apply settle_keeps; assumption | split; assumption].
Qed.

Lemma fire_deletes (due : list (nat * Timer)) (c : WorkerClient.t) (ht : nat * Timer) :
  ht ∈ due ->
  WorkerClient.promises (fold_left (fun c' ht => WorkerClient.on_timeout (snd ht) c') due c)
    !! timer_nonce ht.2 = None.
Proof.
  revert c. induction due as [| ht0 due IH]; intros c Hin; [inversion Hin |].
  simpl. apply elem_of_cons in Hin as [-> | Hin]; [| apply IH; assumption].
  destruct (WorkerClient.promises (fold_left _ due _) !! timer_nonce ht0.2) as [e |] eqn:E;
    [| reflexivity].
  apply fire_promises_sub in E. cbn in E. rewrite lookup_delete_eq in E. discriminate.
Qed.

Lemma filter_none {A} (P : A -> Prop) `{forall x, Decision (P x)} (l : list A) :
  (forall x, x ∈ l -> ~ P x) -> filter P l = [].
Proof.
  induction l as [| x l IH]; intros Hall; [reflexivity |].
  rewrite filter_cons. destruct (decide (P x)) as [HP | _].
  - exfalso. eapply Hall; [left | exact HP].
  - apply IH. intros y Hy. apply Hall. right. assumption.
Qed.

Section Calls.
Variable GatewayIntentBits_Guilds : Z.
Variable new_Shard : Z -> Shard.Options -> Shard.t.
Variable js_eval : string -> WorkerClient.t -> EvalOutcome.
Variable workerData : WorkerData.t.
Variable options : WorkerClientOptions.t.

Local Abbreviation handle :=
  (WorkerClient.handleManagerMessages new_Shard js_eval workerData options).
Local Abbreviation step :=
  (WorkerClient.step GatewayIntentBits_Guilds new_Shard js_eval workerData options).
Local Abbreviation run :=
  (WorkerClient.run GatewayIntentBits_Guilds new_Shard js_eval workerData options).
Local Abbreviation tellWorker := (WorkerClient.tellWorker workerData).

(** A settled promise is never settled again. *)
Lemma step_settled (e : WorkerClient.Event) (c c' : WorkerClient.t) (out : list Effect)
    (p : nat) (s : PromiseState) :
  settled_with p s c -> step e c = Some (c', out) -> settled_with p s c'.
Proof.
  intros Hset Hstep. pose proof Hset as (Hp & Hs & Hlt).
  destruct e as [data | shardId packet | w func uuids | dt | shardId f].
  - cbn -[WorkerClient.handleManagerMessages] in Hstep.
    destruct (handle data c) as [[c1 o1] k] eqn:Hh. injection Hstep as <- <-.
    destruct (eval_response_dec data) as [(nonce & response & ->) | Hne].
    + cbn in Hh. destruct (WorkerClient.promises c !! nonce) as [entry |];
        injection Hh as <- _ _; [| assumption].
      unfold settled_with. cbn. split; [apply settle_keeps; assumption | split; assumption].
    + destruct (handleManagerMessages_frame new_Shard js_eval workerData options data c Hne)
        as [_ Hr].
      rewrite Hh in Hr. cbn [fst] in Hr. unfold settled_with. rewrite Hr. assumption.
  - assert (WorkerClient.shard_handlePayload GatewayIntentBits_Guilds workerData options
              shardId packet c = (c', out)) as Hs'
        by (cbn -[WorkerClient.shard_handlePayload] in Hstep; congruence).
    destruct (shard_handlePayload_frame GatewayIntentBits_Guilds workerData options
                shardId packet c) as [_ Hr].
    rewrite Hs' in Hr. cbn [fst] in Hr. unfold settled_with. rewrite Hr. assumption.
  - cbn -[WorkerClient.generateSendPromise] in Hstep. unfold WorkerClient.tellWorker in Hstep.
    destruct (WorkerClient.generateNonce true uuids (WorkerClient.promises c))
      as [[nonce rest] |]; [| discriminate].
    injection Hstep as <- _. unfold settled_with. cbn.
    split; [| split; [assumption | lia]].
    rewrite lookup_insert_ne; [assumption | lia].
  - injection Hstep as <- _. unfold WorkerClient.elapse. cbv zeta.
    apply fire_settled. unfold settled_with. cbn. auto.
  - injection Hstep as <- _.
    destruct (shard_change_frame shardId f c) as [_ Hr].
    unfold settled_with. rewrite Hr. assumption.
Qed.

Lemma run_settled (evs : list WorkerClient.Event) (p : nat) (s : PromiseState) :
  forall (c c' : WorkerClient.t) (out : list Effect),
    settled_with p s c -> run evs c = Some (c', out) -> settled_with p s c'.
Proof.
  induction evs as [| e evs IH]; intros c c' out Hset Hrun.
  - injection Hrun as <- _. assumption.
  - cbn -[WorkerClient.step] in Hrun.
    destruct (step e c) as [[c1 out1] |] eqn:Hstep; [| discriminate].
    destruct (run evs c1) as [[c2 out2] |] eqn:Hrest; [| discriminate].
    injection Hrun as <- _. eapply IH; [| eassumption]. eapply step_settled; eassumption.
Qed.

(** X1: a response that arrives before the deadline wins for good.  For a
    call registered under a free nonce, after any events without a
    response for it and less than 60000 ms, the eval response for the nonce
    removes the entry, cancels its timeout and fulfils the promise with the
    response value, posting nothing; and whatever happens afterwards, time
    passing included, the promise stays fulfilled with that value. *)
Theorem response_before_timeout_wins (c0 : WorkerClient.t) (nonce message : string)
    (evs later : list WorkerClient.Event) (c2 c4 : WorkerClient.t)
    (out2 out4 : list Effect) (response : Value) :
  wf c0 ->
  WorkerClient.promises c0 !! nonce = None ->
  run evs (fst (WorkerClient.generateSendPromise nonce message c0)) = Some (c2, out2) ->
  forallb (fun e => negb (responds nonce e)) evs = true ->
  (elapsed evs < 60000)%N ->
  run later (fst (fst (handle (EVAL_RESPONSE nonce response) c2))) = Some (c4, out4) ->
  snd (fst (handle (EVAL_RESPONSE nonce response) c2)) = []
  /\ snd (handle (EVAL_RESPONSE nonce response) c2) = Normal
  /\ WorkerClient.promises (fst (fst (handle (EVAL_RESPONSE nonce response) c2))) !! nonce
     = None
  /\ Forall (fun ht => timer_nonce ht.2 <> nonce)
       (timers (WorkerClient.runtime (fst (fst (handle (EVAL_RESPONSE nonce response) c2)))))
  /\ futures (WorkerClient.runtime (fst (fst (handle (EVAL_RESPONSE nonce response) c2))))
       !! snd (WorkerClient.generateSendPromise nonce message c0)
     = Some (Fulfilled response)
  /\ futures (WorkerClient.runtime c4)
       !! snd (WorkerClient.generateSendPromise nonce message c0)
     = Some (Fulfilled response).
Proof.
  intros Hwf Hfree Hrun Hresp Hbefore Hlater.
  set (p := next_promise (WorkerClient.runtime c0)).
  set (h := next_timer (WorkerClient.runtime c0)).
  set (tm := {| deadline := (clock (WorkerClient.runtime c0) + 60000)%N;
                timer_nonce := nonce; timer_message := message; timer_reject := p |}).
  set (c1 := fst (WorkerClient.generateSendPromise nonce message c0)) in *.
  assert (wf c1) as Hwf1 by (apply wf_generateSendPromise; assumption).
  assert (waiting_call nonce p h tm c1) as Hwait1.
  { unfold waiting_call, c1, WorkerClient.generateSendPromise. cbn.
    split; [apply lookup_insert_eq |]. split; [| split].
    - apply elem_of_app. right. left.
    - apply lookup_insert_eq.
    - lia. }
  destruct (run_waiting_call GatewayIntentBits_Guilds new_Shard js_eval workerData options
              evs nonce p h tm c1 c2 out2 Hwf1 Hwait1 Hrun Hresp)
    as (Hwf2 & Hwait2 & _).
  { change (clock (WorkerClient.runtime c1)) with (clock (WorkerClient.runtime c0)).
    cbn. lia. }
  destruct Hwait2 as (Hentry & Hin & Hpending & _).
  pose proof Hwf2 as (_ & _ & Hbound & _).
  destruct (Hbound _ _ Hentry) as [Hlt _]. cbn in Hlt.
  revert Hlater. cbn. rewrite Hentry. cbn. intros Hlater.
  assert (settled_with p (Fulfilled response)
            (WorkerClient.with_promises (delete nonce (WorkerClient.promises c2))
               (WorkerClient.with_runtime
                  {| timers := clearTimeout h (timers (WorkerClient.runtime c2));
                     next_timer := next_timer (WorkerClient.runtime c2);
                     futures := settle p (Fulfilled response)
                                  (futures (WorkerClient.runtime c2));
                     next_promise := next_promise (WorkerClient.runtime c2);
                     clock := clock (WorkerClient.runtime c2) |} c2))) as Hset.
  { unfold settled_with. cbn. split; [apply settle_pending; assumption |].
    split; [discriminate | assumption]. }
  split; [reflexivity |]. split; [reflexivity |].
  split; [apply lookup_delete_eq |]. split.
  - apply Forall_forall. intros ht Hht Heq.
    apply list_elem_of_filter in Hht as [Hne Hht].
    assert (ht = (h, tm)) as -> by (apply (timer_of_entry c2 nonce p h tm Hwf2 Hentry); auto).
    apply Hne. reflexivity.
  - split; [apply Hset |].
    apply (run_settled later p (Fulfilled response) _ c4 out4 Hset Hlater).
Qed.

Lemma calls_covered_frame (c c' : WorkerClient.t) :
  WorkerClient.promises c' = WorkerClient.promises c ->
  WorkerClient.runtime c' = WorkerClient.runtime c ->
  calls_covered c -> calls_covered c'.
Proof. unfold calls_covered. intros -> ->. auto. Qed.

Lemma calls_covered_create (adapter rest : option (gset string)) :
  calls_covered (WorkerClient.create adapter rest).
Proof.
  split.
  - intros n e Hn. cbn in Hn. rewrite lookup_empty in Hn. discriminate.
  - intros h tm Hin. inversion Hin.
Qed.

Lemma calls_covered_generateSendPromise (nonce : string) (c : WorkerClient.t) :
  wf c ->
  calls_covered c ->
  WorkerClient.promises c !! nonce = None ->
  calls_covered (fst (WorkerClient.generateSendPromise nonce "Timeout" c)).
Proof.
  intros (_ & _ & Hbound & _) [Hentries Htimers] Hfree.
  unfold calls_covered, WorkerClient.generateSendPromise. cbn. split.
  - intros n e Hn. apply lookup_insert_Some in Hn as [[<- <-] | [Hne Hn]]; cbn.
    + split; [apply lookup_insert_eq |].
      eexists. split; [apply elem_of_app; right; left | reflexivity].
    + destruct (Hentries n e Hn) as [Hp (tm & Hin & Htm)].
      destruct (Hbound n e Hn) as [Hlt _].
      split; [rewrite lookup_insert_ne; [assumption | lia] |].
      exists tm. split; [apply elem_of_app; left; assumption | assumption].
  - intros h tm Hin. apply elem_of_app in Hin as [Hin | Hin]; [apply Htimers in Hin; exact Hin |].
    apply list_elem_of_singleton in Hin. injection Hin as -> ->. cbn. split; [lia | reflexivity].
Qed.

Lemma calls_covered_eval_response (nonce : string) (entry : PendingCall.t)
    (s : PromiseState) (c : WorkerClient.t) :
  wf c ->
  calls_covered c ->
  WorkerClient.promises c !! nonce = Some entry ->
  calls_covered
    (WorkerClient.with_promises (delete nonce (WorkerClient.promises c))
       (WorkerClient.with_runtime
          {| timers := clearTimeout (PendingCall.timeout entry)
                         (timers (WorkerClient.runtime c));
             next_timer := next_timer (WorkerClient.runtime c);
             futures := settle (PendingCall.resolve entry) s
                          (futures (WorkerClient.runtime c));
             next_promise := next_promise (WorkerClient.runtime c);
             clock := clock (WorkerClient.runtime c) |} c)).
Proof.
  intros (_ & _ & _ & Hinj) [Hentries Htimers] Hentry.
  unfold calls_covered. cbn. split.
  - intros n e Hn. apply lookup_delete_Some in Hn as [Hne Hn].
    destruct (Hentries n e Hn) as [Hp (tm & Hin & Htm)].
    assert (PendingCall.resolve entry <> PendingCall.resolve e
            /\ PendingCall.timeout entry <> PendingCall.timeout e) as [Hr Ht].
    { split; intros Heq; apply Hne; eapply (Hinj nonce n); eauto. }
    split; [rewrite settle_other; [assumption | congruence] |].
    exists tm. split; [| assumption].
    apply list_elem_of_filter. split; [cbn; congruence | assumption].
  - intros h tm Hin. apply list_elem_of_filter in Hin as [_ Hin].
    apply (Htimers h tm). assumption.
Qed.

Lemma calls_covered_elapse (dt : N) (c : WorkerClient.t) :
  wf c -> calls_covered c -> calls_covered (WorkerClient.elapse dt c).
Proof.
  intros Hwf [Hentries Htimers]. pose proof Hwf as (_ & Htm & _ & Hinj).
  unfold WorkerClient.elapse. cbv zeta.
  set (now := (clock (WorkerClient.runtime c) + dt)%N).
  set (due := filter _ (timers (WorkerClient.runtime c))).
  set (c0 := WorkerClient.with_runtime _ c).
  destruct (fire_runtime due c0) as (Ht & _ & _ & Hclock).
  unfold calls_covered. rewrite Ht, Hclock. cbn. split.
  - intros n e Hn. pose proof (fire_promises_sub due c0 n e Hn) as Hn0. cbn in Hn0.
    destruct (Hentries n e Hn0) as [Hp (tm & Hin & Hnonce)].
    assert (forall ht, ht ∈ due -> timer_nonce ht.2 <> n) as Hother.
    { intros ht Hdue Heq. pose proof (fire_deletes due c0 ht Hdue) as Hgone.
      rewrite Heq, Hn in Hgone. discriminate. }
    split.
    + rewrite fire_futures_other; [exact Hp |].
      intros ht Hdue Heq. apply (Hother ht Hdue).
      apply list_elem_of_filter in Hdue as [_ Hdue].
      destruct ht as [h' tm']. destruct (Htm h' tm' Hdue) as [_ Hlook].
      eapply (Hinj (timer_nonce tm') n); eauto.
    + exists tm. split; [| assumption].
      apply list_elem_of_filter. split; [| assumption].
      intros Hearly. apply (Hother (PendingCall.timeout e, tm)); [| assumption].
      apply list_elem_of_filter. split; assumption.
  - intros h tm Hin. apply list_elem_of_filter in Hin as [_ Hin].
    destruct (Htimers h tm Hin). split; [lia | assumption].
Qed.

Lemma step_calls_covered (e : WorkerClient.Event) (c c' : WorkerClient.t)
    (out : list Effect) :
  wf c -> calls_covered c -> step e c = Some (c', out) -> calls_covered c'.
Proof.
  intros Hwf Hcov Hstep.
  destruct e as [data | shardId packet | w func uuids | dt | shardId f].
  - cbn -[WorkerClient.handleManagerMessages] in Hstep.
    destruct (handle data c) as [[c1 o1] k] eqn:Hh. injection Hstep as <- <-.
    destruct (eval_response_dec data) as [(nonce & response & ->) | Hne].
    + cbn in Hh. destruct (WorkerClient.promises c !! nonce) as [entry |] eqn:Hentry;
        injection Hh as <- _ _; [| assumption].
      apply calls_covered_eval_response; assumption.
    + destruct (handleManagerMessages_frame new_Shard js_eval workerData options data c Hne)
        as [Hp Hr].
      rewrite Hh in Hp, Hr. eapply calls_covered_frame; eassumption.
  - assert (WorkerClient.shard_handlePayload GatewayIntentBits_Guilds workerData options
              shardId packet c = (c', out)) as Hs
        by (cbn -[WorkerClient.shard_handlePayload] in Hstep; congruence).
    destruct (shard_handlePayload_frame GatewayIntentBits_Guilds workerData options
                shardId packet c) as [Hp Hr].
    rewrite Hs in Hp, Hr. eapply calls_covered_frame; eassumption.
  - cbn -[WorkerClient.generateSendPromise] in Hstep. unfold WorkerClient.tellWorker in Hstep.
    destruct (WorkerClient.generateNonce true uuids (WorkerClient.promises c))
      as [[nonce rest] |] eqn:Hg; [| discriminate].
    injection Hstep as <- _. apply calls_covered_generateSendPromise; [assumption.. |].
    eapply generateNonce_free. eassumption.
  - injection Hstep as <- _. apply calls_covered_elapse; assumption.
  - injection Hstep as <- _.
    destruct (shard_change_frame shardId f c) as [Hp Hr].
    eapply calls_covered_frame; eassumption.
Qed.

Lemma run_calls_covered (evs : list WorkerClient.Event) :
  forall (c c' : WorkerClient.t) (out : list Effect),
    wf c -> calls_covered c -> run evs c = Some (c', out) -> wf c' /\ calls_covered c'.
Proof.
  induction evs as [| e evs IH]; intros c c' out Hwf Hcov Hrun.
  - injection Hrun as <- _. auto.
  - cbn -[WorkerClient.step] in Hrun.
    destruct (step e c) as [[c1 out1] |] eqn:Hstep; [| discriminate].
    destruct (run evs c1) as [[c2 out2] |] eqn:Hrest; [| discriminate].
    injection Hrun as <- _. eapply IH; [| | eassumption].
    + eapply (step_wf GatewayIntentBits_Guilds new_Shard js_eval workerData options);
        eassumption.
    + eapply step_calls_covered; eassumption.
Qed.

(** X2: no call is left waiting for more than the bound.  In any state
    reached from a new instance, once 60000 ms (or more) pass the table of
    pending calls is empty, no timeout is left, and the promise of every
    call that was still in the table is rejected with ["Timeout"]. *)
Theorem outstanding_calls_settle_within_bound (adapter rest : option (gset string))
    (evs : list WorkerClient.Event) (c : WorkerClient.t) (out : list Effect) (dt : N) :
  run evs (WorkerClient.create adapter rest) = Some (c, out) ->
  (60000 <= dt)%N ->
  WorkerClient.promises (WorkerClient.elapse dt c) = ∅
  /\ timers (WorkerClient.runtime (WorkerClient.elapse dt c)) = []
  /\ (forall n e,
        WorkerClient.promises c !! n = Some e ->
        futures (WorkerClient.runtime (WorkerClient.elapse dt c)) !! PendingCall.resolve e
        = Some (Rejected "Timeout")).
Proof.
  intros Hrun Hdt.
  destruct (run_calls_covered evs _ c out (wf_create adapter rest)
              (calls_covered_create adapter rest) Hrun) as [Hwf [Hentries Htimers]].
  pose proof Hwf as (_ & Htm & _ & _).
  assert (forall ht, ht ∈ timers (WorkerClient.runtime c) ->
                     (deadline ht.2 <= clock (WorkerClient.runtime c) + dt)%N) as Hdue.
  { intros [h tm] Hin. destruct (Htimers h tm Hin) as [Hle _]. cbn. lia. }
  assert (forall n e, WorkerClient.promises c !! n = Some e ->
            WorkerClient.promises (WorkerClient.elapse dt c) !! n = None
            /\ futures (WorkerClient.runtime (WorkerClient.elapse dt c))
                 !! PendingCall.resolve e = Some (Rejected "Timeout")) as Hfired.
  { intros n [p h] Hn. destruct (Hentries n _ Hn) as [Hp (tm & Hin & Hnonce)].
    cbn in Hp, Hin. destruct (Htimers h tm Hin) as [_ Hmsg].
    destruct (Htm h tm Hin) as [_ Hlook]. rewrite Hnonce, Hn in Hlook.
    injection Hlook as Hreject. rewrite <- Hmsg.
    unfold WorkerClient.elapse. cbv zeta.
    apply (fire_fires _ _ n p h tm Hnonce (eq_sym Hreject)).
    - apply list_elem_of_filter. split; [apply (Hdue (h, tm) Hin) | assumption].
    - intros ht Hht. apply list_elem_of_filter in Hht as [_ Hht].
      destruct (decide (timer_reject ht.2 = p)) as [Heq | Hne]; [left | right; assumption].
      apply (timer_of_entry c n p h tm Hwf Hn); auto.
    - exact Hp. }
  split; [| split].
  - apply map_empty. intros n.
    destruct (WorkerClient.promises c !! n) as [e |] eqn:Hn; [apply (Hfired n e Hn) |].
    destruct (WorkerClient.promises (WorkerClient.elapse dt c) !! n) as [e |] eqn:E;
      [| reflexivity].
    unfold WorkerClient.elapse in E. cbv zeta in E. apply fire_promises_sub in E.
    cbn in E. congruence.
  - unfold WorkerClient.elapse. cbv zeta.
    match goal with |- context [fold_left _ ?due ?c0] =>
      destruct (fire_runtime due c0) as (-> & _) end.
    cbn. apply filter_none. intros ht Hin Hlate. apply Hlate. apply Hdue. assumption.
  - intros n e Hn. apply (Hfired n e Hn).
Qed.

(** X3: two calls in a row never share a nonce or a promise, whatever
    [randomUUID] returns: after two [tellWorker] calls with nothing in
    between, the two eval requests posted carry different nonces and both
    calls are in the table, each with its own promise. *)
Theorem tellWorker_twice_distinct (c0 c1 c2 : WorkerClient.t) (w1 w2 : Z)
    (func1 func2 : string) (uuids1 uuids2 : list string) (out1 out2 : list Effect)
    (p1 p2 : nat) :
  tellWorker w1 func1 uuids1 c0 = Some (c1, out1, p1) ->
  tellWorker w2 func2 uuids2 c1 = Some (c2, out2, p2) ->
  exists n1 n2 h1 h2,
    out1 = [postMessage (WorkerSendEval func1 w1 (WorkerData.workerId workerData) n1)]
    /\ out2 = [postMessage (WorkerSendEval func2 w2 (WorkerData.workerId workerData) n2)]
    /\ n1 <> n2
    /\ p1 <> p2
    /\ WorkerClient.promises c2 !! n1
       = Some {| PendingCall.resolve := p1; PendingCall.timeout := h1 |}
    /\ WorkerClient.promises c2 !! n2
       = Some {| PendingCall.resolve := p2; PendingCall.timeout := h2 |}.
Proof.
  unfold WorkerClient.tellWorker.
  destruct (WorkerClient.generateNonce true uuids1 (WorkerClient.promises c0))
    as [[n1 rest1] |] eqn:Hg1; [| discriminate].
  intros [= <- <- <-].
  destruct (WorkerClient.generateNonce true uuids2 _) as [[n2 rest2] |] eqn:Hg2;
    [| discriminate].
  intros [= <- <- <-].
  apply generateNonce_free in Hg2. cbn in Hg2.
  assert (n1 <> n2) as Hne.
  { intros ->. rewrite lookup_insert_eq in Hg2. discriminate. }
  exists n1, n2. eexists. eexists. cbn.
  split; [reflexivity |]. split; [reflexivity |]. split; [assumption |].
  split; [lia |]. split.
  - rewrite lookup_insert_ne by congruence. apply lookup_insert_eq.
  - apply lookup_insert_eq.
Qed.

(** X4: a correlated response is delivered at most once.  When a cache
    result, an API response or an eval response has been handled without
    throwing, handling the same message again changes nothing and calls
    nothing. *)
Theorem duplicate_response_ignored (data : ManagerMessages) (c : WorkerClient.t) :
  is_response data = true ->
  snd (handle data c) = Normal ->
  handle data (fst (fst (handle data c))) = (fst (fst (handle data c)), [], Normal).
Proof.
  intros Hresp Hnormal.
  destruct data as [nonce result | | | | | | | nonce response error | | nonce response];
    try discriminate; cbn in *.
  - destruct (WorkerClient.adapter_promises c) as [table |] eqn:Ha; cbn; [| rewrite Ha; reflexivity].
    destruct (decide (nonce ∈ table)) as [Hin | Hnotin]; cbn.
    + destruct (decide (nonce ∈ table ∖ {[nonce]})) as [Hagain | _]; [| reflexivity].
      exfalso. apply elem_of_difference in Hagain as [_ Hagain].
      apply Hagain. apply elem_of_singleton. reflexivity.
    + rewrite Ha. destruct (decide (nonce ∈ table)); [contradiction | reflexivity].
  - destruct (WorkerClient.rest_workerPromises c) as [table |] eqn:Ha; [| discriminate].
    destruct (decide (nonce ∈ table)) as [Hin | Hnotin]; cbn.
    + destruct (decide (nonce ∈ table ∖ {[nonce]})) as [Hagain | _]; [| reflexivity].
      exfalso. apply elem_of_difference in Hagain as [_ Hagain].
      apply Hagain. apply elem_of_singleton. reflexivity.
    + rewrite Ha. destruct (decide (nonce ∈ table)); [contradiction | reflexivity].
  - destruct (WorkerClient.promises c !! nonce) as [entry |] eqn:He; cbn.
    + rewrite lookup_delete_eq. reflexivity.
    + rewrite He. reflexivity.
Qed.
End Calls.

(** ** Packet dispatch: what a packet can and cannot do *)

Lemma forallb_values_set {V : Type} (f : V -> bool) (m : list (Z * V)) (k : Z) (v v0 : V) :
  JsMap.get k m = Some v0 ->
  f v = f v0 ->
  forallb f (JsMap.values (JsMap.set k v m)) = forallb f (JsMap.values m).
Proof.
  induction m as [| [k' v'] m IH]; simpl; [discriminate |].
  destruct (Z.eqb_spec k k') as [-> | Hne]; simpl.
  - intros [= ->] ->. reflexivity.
  - intros Hget Hf. rewrite IH by assumption. reflexivity.
Qed.

Section Dispatch.
Variable GatewayIntentBits_Guilds : Z.
Variable new_Shard : Z -> Shard.Options -> Shard.t.
Variable js_eval : string -> WorkerClient.t -> EvalOutcome.
Variable workerData : WorkerData.t.
Variable options : WorkerClientOptions.t.

Local Abbreviation handle :=
  (WorkerClient.handleManagerMessages new_Shard js_eval workerData options).
Local Abbreviation onPacket :=
  (WorkerClient.onPacket GatewayIntentBits_Guilds workerData options).
Local Abbreviation onGuild := (WorkerClient.onGuild workerData options).
Local Abbreviation onReady :=
  (WorkerClient.onReady GatewayIntentBits_Guilds workerData options).
Local Abbreviation handlePayload :=
  (WorkerClient.shard_handlePayload GatewayIntentBits_Guilds workerData options).
Local Abbreviation step :=
  (WorkerClient.step GatewayIntentBits_Guilds new_Shard js_eval workerData options).
Local Abbreviation run :=
  (WorkerClient.run GatewayIntentBits_Guilds new_Shard js_eval workerData options).
Local Abbreviation intent := (guilds_intent GatewayIntentBits_Guilds workerData).
Local Abbreviation wid := (WorkerData.workerId workerData).

(** The packet dispatcher leaves the registry alone. *)
Lemma shard_handlePayload_shards (shardId : Z) (packet : Packet) (c : WorkerClient.t) :
  WorkerClient.shards (fst (handlePayload shardId packet c)) = WorkerClient.shards c.
Proof.
  unfold WorkerClient.shard_handlePayload, WorkerClient.onPacket,
    WorkerClient.onGuild, WorkerClient.onReady.
  cbv zeta. cbn [fst snd]. destruct packet; repeat case_match; reflexivity.
Qed.

(** Events that neither spawn nor change a shard keep the sessions as they are. *)
Lemma step_sessions (e : WorkerClient.Event) (c c' : WorkerClient.t) (out : list Effect) :
  step e c = Some (c', out) ->
  settles_quietly e = true ->
  WorkerClient.every_session c' = WorkerClient.every_session c.
Proof.
  intros Hstep Hq.
  destruct e as [data | shardId packet | w func uuids | dt | shardId f]; try discriminate.
  - cbn -[WorkerClient.handleManagerMessages] in Hstep.
    destruct (handle data c) as [[c1 o1] k] eqn:Hh. injection Hstep as <- <-.
    destruct data; try discriminate; cbn in Hh;
      repeat case_match; injection Hh as <- _ _; try reflexivity.
    unfold WorkerClient.every_session. cbn.
    eapply forallb_values_set; [eassumption | reflexivity].
  - assert (handlePayload shardId packet c = (c', out)) as Hs
        by (cbn -[WorkerClient.shard_handlePayload] in Hstep; congruence).
    assert (c' = fst (handlePayload shardId packet c)) as -> by (rewrite Hs; reflexivity).
    unfold WorkerClient.every_session. rewrite shard_handlePayload_shards. reflexivity.
  - cbn -[WorkerClient.generateSendPromise] in Hstep. unfold WorkerClient.tellWorker in Hstep.
    destruct (WorkerClient.generateNonce true uuids (WorkerClient.promises c))
      as [[nonce rest] |]; [| discriminate].
    injection Hstep as <- _. reflexivity.
  - injection Hstep as <- _. unfold WorkerClient.every_session, WorkerClient.elapse.
    cbv zeta. rewrite (proj2 (fold_on_timeout_handleGuilds _ _)). reflexivity.
Qed.

Lemma settles_quietly_not_READY (e : WorkerClient.Event) :
  settles_quietly e = true -> is_READY e = false.
Proof. destruct e as [| ? [] | | |]; try reflexivity; discriminate. Qed.

(** One quiet event in a settling window whose shards all have a session:
    it ends the window with one announcement, or leaves a smaller or equal
    non-empty set whose guilds it did not observe. *)
Lemma step_settling (e : WorkerClient.Event) (c c' : WorkerClient.t) (out : list Effect)
    (waiting : gset string) :
  step e c = Some (c', out) ->
  WorkerClient.__handleGuilds c = Some waiting ->
  waiting <> ∅ ->
  WorkerClient.every_session c = true ->
  is_READY e = false ->
  (WorkerClient.__handleGuilds c' = None /\ announcements out = 1)
  \/ (exists waiting',
        WorkerClient.__handleGuilds c' = Some waiting'
        /\ waiting' <> ∅
        /\ announcements out = 0
        /\ forall g, g ∈ waiting' -> g ∈ waiting /\ observes g e = false).
Proof.
  intros Hstep Hw Hne Hlive Hnr.
  pose proof (step_readiness GatewayIntentBits_Guilds new_Shard js_eval workerData options
                e c c' out Hstep) as H.
  assert (forall id shardId packet,
             e = WorkerClient.ShardPayload shardId packet ->
             packet = GUILD_DELETE id \/ packet = GUILD_CREATE id ->
             c' = fst (onGuild packet id shardId c)
             /\ announcements out = announcements (snd (onGuild packet id shardId c)) ->
             (WorkerClient.__handleGuilds c' = None /\ announcements out = 1)
             \/ (exists waiting',
                    WorkerClient.__handleGuilds c' = Some waiting'
                    /\ waiting' <> ∅
                    /\ announcements out = 0
                    /\ forall g, g ∈ waiting' -> g ∈ waiting /\ observes g e = false))
    as Hguild.
  { intros id shardId packet -> Hp [-> ->].
    pose proof (onGuild_spec workerData options packet id shardId c) as Hs.
    cbv zeta in Hs. rewrite Hw in Hs.
    assert (forall g, g <> id ->
               observes g (WorkerClient.ShardPayload shardId packet) = false) as Hobs.
    { intros g Hg. destruct Hp as [-> | ->]; cbn; apply String.eqb_neq; congruence. }
    destruct (decide (id ∈ waiting)) as [Hin | Hnotin].
    - destruct Hs as [-> ->]. destruct (decide (waiting ∖ {[id]} = ∅)) as [He | Hne'].
      + left. rewrite Hlive. auto.
      + right. exists (waiting ∖ {[id]}). repeat split; try assumption.
        * apply elem_of_difference in H0 as [? _]. assumption.
        * apply Hobs. apply elem_of_difference in H0 as [_ Hg].
          rewrite elem_of_singleton in Hg. assumption.
    - destruct Hs as [-> ->]. right. exists waiting. repeat split; try assumption.
      apply Hobs. intros ->. contradiction. }
  destruct e as [data | shardId packet | w func uuids | dt | shardId f];
    try (destruct H as [Hg ->]; right; exists waiting; rewrite Hg;
         repeat split; auto; fail).
  destruct packet as [d ch | d ch | id | id | d | d | guilds uid un aid | t d];
    try discriminate;
    try (destruct H as [Hg ->]; right; exists waiting; rewrite Hg;
         repeat split; auto; fail).
  - eapply Hguild; eauto.
  - eapply Hguild; eauto.
Qed.


Lemma shards_connected_requests (ids : list Z) :
  shards_connected
    (map (fun id : Z => postMessage (WorkerRequestConnect id wid)) ids) = 0.
Proof. induction ids as [| i ids IH]; [reflexivity | exact IH]. Qed.

Lemma handleManagerMessages_shards_connected (data : ManagerMessages) (c : WorkerClient.t) :
  shards_connected (snd (fst (handle data c))) = 0.
Proof.
  destruct data as [nonce result | shardId nonce payload | shardId presence | info compress
                   | shardId nonce | nonce | | nonce response error | func nonce
                   | nonce response];
    try (cbn; unfold WorkerClient.events_call; repeat case_match; reflexivity).
  cbn -[fold_left].
  destruct (spawn_fold new_Shard workerData info compress (WorkerData.shards workerData)
              (WorkerClient.shards c) []) as (Hout & _).
  cbv zeta in Hout. rewrite Hout. apply shards_connected_requests.
Qed.

(** X6: the "shards connected" milestone is announced by session-start
    handling and by nothing else: an event posts it exactly once when it is
    a session-start packet and every shard of the registry has a session
    id, and not at all otherwise; and session-start handling never
    announces readiness without having announced the milestone. *)
Theorem shards_connected_only_on_ready (e : WorkerClient.Event) (c c' : WorkerClient.t)
    (out : list Effect) :
  step e c = Some (c', out) ->
  shards_connected out = (if is_READY e && WorkerClient.every_session c then 1 else 0)
  /\ (is_READY e = true -> announcements out <= shards_connected out).
Proof.
  intros Hstep.
  destruct e as [data | shardId packet | w func uuids | dt | shardId f].
  - cbn -[WorkerClient.handleManagerMessages] in Hstep.
    pose proof (handleManagerMessages_shards_connected data c) as H0.
    destruct (handle data c) as [[c1 o1] k]. injection Hstep as <- <-. cbn in H0.
    unfold shards_connected in *. rewrite List.filter_app, length_app, H0.
    split; [destruct k; reflexivity | discriminate].
  - assert (handlePayload shardId packet c = (c', out)) as Hs
        by (cbn -[WorkerClient.shard_handlePayload] in Hstep; congruence).
    assert (out = snd (handlePayload shardId packet c)) as -> by (rewrite Hs; reflexivity).
    clear Hstep Hs.
    unfold WorkerClient.shard_handlePayload, WorkerClient.onPacket,
      WorkerClient.onGuild, WorkerClient.onReady, WorkerClient.announce_ready,
      WorkerClient.announce_shards_connected, WorkerClient.events_call.
    cbv zeta. cbn [fst snd].
    destruct packet; cbn [is_READY andb];
      repeat case_match; (split; [reflexivity | try discriminate; cbn; lia]).
  - cbn -[WorkerClient.generateSendPromise] in Hstep. unfold WorkerClient.tellWorker in Hstep.
    destruct (WorkerClient.generateNonce true uuids (WorkerClient.promises c))
      as [[nonce rest] |]; [| discriminate].
    injection Hstep as <- <-. split; [reflexivity | discriminate].
  - injection Hstep as <- <-. split; [reflexivity | discriminate].
  - injection Hstep as <- <-. split; [reflexivity | discriminate].
Qed.

(** X8: while a guild is awaited, its create or delete packet goes to the
    cache and is not dispatched as an event; a guild packet for a guild
    that is not awaited is dispatched as an event (when there is an event
    handler) and is not handed to the cache by the worker; and after its
    packet a guild is no longer awaited. *)
Theorem guild_packet_cache_or_event (c : WorkerClient.t) (id : string) (shardId : Z)
    (packet : Packet) :
  packet = GUILD_CREATE id \/ packet = GUILD_DELETE id ->
  existsb is_cache_onPacket (snd (handlePayload shardId packet c)) = awaits id c
  /\ existsb is_events_execute (snd (handlePayload shardId packet c))
     = WorkerClientOptions.has_events options && negb (awaits id c)
  /\ awaits id (fst (handlePayload shardId packet c)) = false.
Proof.
  intros Hp. unfold awaits.
  unfold WorkerClient.shard_handlePayload, WorkerClient.onPacket,
    WorkerClient.onGuild, WorkerClient.announce_ready, WorkerClient.events_call.
  cbv zeta. cbn [fst snd].
  destruct Hp as [-> | ->];
    (destruct (WorkerClient.__handleGuilds c) as [guilds |] eqn:Hg;
     [ destruct (decide (id ∈ guilds)) as [Hin | Hnotin];
       [ rewrite (bool_decide_eq_true_2 _ Hin)
       | rewrite (bool_decide_eq_false_2 _ Hnotin) ]
     | ]);
    repeat case_match; cbn in *; simplify_eq; rewrite ?Hg;
    repeat split; try reflexivity;
    try (apply bool_decide_eq_false_2;
         first [ assumption
               | intros Hx; apply elem_of_difference in Hx as [_ Hx];
                 apply Hx; apply elem_of_singleton; reflexivity ]).
Qed.

(** X9: packet dispatch touches nothing but the readiness set and the
    recorded identity: registry, pending calls, timers and the foreign
    response tables are as before, and only a session-start packet changes
    the identity.  An update event that the duplicate filter rejects leaves
    the whole instance as it was and triggers no event execution, yet the
    payload hook, the raw observers and the forward to the manager still
    see it. *)
Theorem packet_dispatch_frame (c : WorkerClient.t) (shardId : Z) (packet : Packet) :
  fst (handlePayload shardId packet c)
  = WorkerClient.with_identity
      (WorkerClient.identity (fst (handlePayload shardId packet c)))
      (WorkerClient.with_handleGuilds
         (WorkerClient.__handleGuilds (fst (handlePayload shardId packet c))) c)
  /\ (is_READY (WorkerClient.ShardPayload shardId packet) = false ->
      WorkerClient.identity (fst (handlePayload shardId packet c))
      = WorkerClient.identity c)
  /\ (forall d,
        packet = GUILD_MEMBER_UPDATE d false \/ packet = PRESENCE_UPDATE d false ->
        handlePayload shardId packet c
        = (c,
           (if WorkerClientOptions.handlePayload options
            then [options_handlePayload shardId (packet_t packet)] else [])
           ++ WorkerClient.events_call options (events_runEvent "RAW" shardId)
           ++ [collectors_run "RAW"]
           ++ (if WorkerClientOptions.sendPayloadToParent options
               then [postMessage (WorkerReceivePayload wid shardId (packet_t packet))]
               else []))).
Proof.
  unfold WorkerClient.shard_handlePayload, WorkerClient.onPacket,
    WorkerClient.onGuild, WorkerClient.onReady.
  cbv zeta. cbn [fst snd].
  split; [| split].
  - destruct c. destruct packet; repeat case_match; reflexivity.
  - intros Hnr. destruct packet; try discriminate; repeat case_match; reflexivity.
  - intros d [-> | ->]; cbn; rewrite <- !app_assoc; reflexivity.
Qed.
End Dispatch.

(** ** The registry and the messages to the manager *)

Lemma posted_app (o1 o2 : list Effect) : posted (o1 ++ o2) = posted o1 ++ posted o2.
Proof. unfold posted. apply flat_map_app. Qed.

Section Registry.
Variable GatewayIntentBits_Guilds : Z.
Variable new_Shard : Z -> Shard.Options -> Shard.t.
Variable js_eval : string -> WorkerClient.t -> EvalOutcome.
Variable workerData : WorkerData.t.
Variable options : WorkerClientOptions.t.

Local Abbreviation handle :=
  (WorkerClient.handleManagerMessages new_Shard js_eval workerData options).
Local Abbreviation handlePayload :=
  (WorkerClient.shard_handlePayload GatewayIntentBits_Guilds workerData options).
Local Abbreviation step :=
  (WorkerClient.step GatewayIntentBits_Guilds new_Shard js_eval workerData options).
Local Abbreviation run :=
  (WorkerClient.run GatewayIntentBits_Guilds new_Shard js_eval workerData options).
Local Abbreviation wid := (WorkerData.workerId workerData).
Local Abbreviation assigned := (fun id : Z => id ∈ WorkerData.shards workerData).

Lemma spawn_keys (info : Payload) (compress : bool) (ids : list Z) :
  forall (reg : list (Z * Shard.t)) (out : list Effect),
    exists more,
      JsMap.keys (fst (fold_left (WorkerClient.spawn_shard new_Shard workerData info compress)
                         ids (reg, out)))
      = JsMap.keys reg ++ more
      /\ Forall (fun id => id ∈ ids) more.
Proof.
  induction ids as [| i ids IH]; intros reg out.
  - exists []. simpl. rewrite app_nil_r. split; [reflexivity | constructor].
  - simpl. unfold WorkerClient.spawn_shard at 2. cbn [fst snd].
    match goal with |- context [fold_left _ ids (?reg1, ?out1)] =>
      destruct (IH reg1 out1) as (more & Hkeys & Hmore) end.
    assert (Forall (fun id => id ∈ i :: ids) more) as Hmore'.
    { eapply Forall_impl; [exact Hmore |]. intros id Hid. right. assumption. }
    rewrite Hkeys. destruct (JsMap.get i reg) eqn:Hget.
    + exists more. split; [reflexivity | assumption].
    + rewrite (keys_set_absent reg i _ Hget). unfold JsMap.keys. rewrite map_app. simpl.
      exists (i :: more). rewrite <- app_assoc. split; [reflexivity |].
      constructor; [left | assumption].
Qed.

(** The worker's own handlers add assigned shards at the end of the
    registry and remove none.  An execute-eval instruction is left out:
    the callable it evaluates is handed the instance, registry included. *)
Lemma step_registry (e : WorkerClient.Event) (c c' : WorkerClient.t) (out : list Effect) :
  is_EXECUTE_EVAL e = false ->
  step e c = Some (c', out) ->
  exists more,
    JsMap.keys (WorkerClient.shards c') = JsMap.keys (WorkerClient.shards c) ++ more
    /\ Forall assigned more
    /\ (NoDup (JsMap.keys (WorkerClient.shards c))
        -> NoDup (JsMap.keys (WorkerClient.shards c'))).
Proof.
  intros Hne Hstep.
  assert (forall reg' : list (Z * Shard.t),
             reg' = WorkerClient.shards c ->
             exists more,
               JsMap.keys reg' = JsMap.keys (WorkerClient.shards c) ++ more
               /\ Forall assigned more
               /\ (NoDup (JsMap.keys (WorkerClient.shards c)) -> NoDup (JsMap.keys reg')))
    as Hsame.
  { intros reg' ->. exists []. rewrite app_nil_r. repeat split; [constructor | auto]. }
  assert (forall (reg' : list (Z * Shard.t)) k v,
             is_Some (JsMap.get k (WorkerClient.shards c)) ->
             reg' = JsMap.set k v (WorkerClient.shards c) ->
             exists more,
               JsMap.keys reg' = JsMap.keys (WorkerClient.shards c) ++ more
               /\ Forall assigned more
               /\ (NoDup (JsMap.keys (WorkerClient.shards c)) -> NoDup (JsMap.keys reg')))
    as Hset.
  { intros reg' k v Hk ->. exists []. rewrite app_nil_r, keys_set_present by assumption.
    repeat split; [constructor | auto]. }
  destruct e as [data | shardId packet | w func uuids | dt | shardId f].
  - cbn -[WorkerClient.handleManagerMessages] in Hstep.
    destruct (handle data c) as [[c1 o1] k] eqn:Hh. injection Hstep as <- <-.
    destruct data as [nonce result | shardId nonce payload | shardId presence | info compress
                     | shardId nonce | nonce | | nonce response error | func nonce
                     | nonce response];
      try discriminate;
      try (cbn in Hh; repeat case_match; injection Hh as <- _ _; apply Hsame; reflexivity).
    + cbn in Hh. destruct (JsMap.get shardId (WorkerClient.shards c)) as [shard |] eqn:Hget;
        injection Hh as <- _ _; [| apply Hsame; reflexivity].
      eapply Hset; [rewrite Hget; eauto | reflexivity].
    + cbn -[fold_left] in Hh. injection Hh as <- _ _. cbn -[fold_left].
      destruct (spawn_keys info compress (WorkerData.shards workerData)
                  (WorkerClient.shards c) []) as (more & Hkeys & Hmore).
      destruct (spawn_fold new_Shard workerData info compress (WorkerData.shards workerData)
                  (WorkerClient.shards c) []) as (_ & _ & Hnd & _).
      exists more. repeat split; assumption.
  - assert (handlePayload shardId packet c = (c', out)) as Hs
        by (cbn -[WorkerClient.shard_handlePayload] in Hstep; congruence).
    apply Hsame.
    pose proof (shard_handlePayload_shards GatewayIntentBits_Guilds workerData options
                  shardId packet c) as H.
    rewrite Hs in H. exact H.
  - cbn -[WorkerClient.generateSendPromise] in Hstep. unfold WorkerClient.tellWorker in Hstep.
    destruct (WorkerClient.generateNonce true uuids (WorkerClient.promises c))
      as [[nonce rest] |]; [| discriminate].
    injection Hstep as <- _. apply Hsame. reflexivity.
  - injection Hstep as <- _. apply Hsame. unfold WorkerClient.elapse. cbv zeta.
    rewrite (proj2 (fold_on_timeout_handleGuilds _ _)). reflexivity.
  - injection Hstep as <- _. unfold WorkerClient.shard_change.
    destruct (JsMap.get shardId (WorkerClient.shards c)) as [shard |] eqn:Hget;
      [| apply Hsame; reflexivity].
    eapply Hset; [rewrite Hget; eauto | reflexivity].
Qed.

Lemma run_registry (evs : list WorkerClient.Event) :
  forall (c c' : WorkerClient.t) (out : list Effect),
    run evs c = Some (c', out) ->
    forallb (fun e => negb (is_EXECUTE_EVAL e)) evs = true ->
    (exists more,
        JsMap.keys (WorkerClient.shards c') = JsMap.keys (WorkerClient.shards c) ++ more
        /\ Forall assigned more)
    /\ (NoDup (JsMap.keys (WorkerClient.shards c))
        -> NoDup (JsMap.keys (WorkerClient.shards c')))
    /\ (forall id,
          is_Some (JsMap.get id (WorkerClient.shards c))
          -> is_Some (JsMap.get id (WorkerClient.shards c'))).
Proof.
  induction evs as [| e evs IH]; intros c c' out Hrun Hne.
  - injection Hrun as <- _. split; [| split; auto].
    exists []. rewrite app_nil_r. split; [reflexivity | constructor].
  - apply (run_cons_inv GatewayIntentBits_Guilds new_Shard js_eval workerData options)
      in Hrun as (c1 & out1 & out2 & Hstep & Hrun & ->).
    cbn [forallb] in Hne. apply andb_true_iff in Hne as [He Hne].
    apply negb_true_iff in He.
    destruct (step_registry e c c1 out1 He Hstep) as (more1 & Hk1 & Hm1 & Hnd1).
    destruct (IH c1 c' out2 Hrun Hne) as ((more2 & Hk2 & Hm2) & Hnd2 & _).
    assert (JsMap.keys (WorkerClient.shards c')
            = JsMap.keys (WorkerClient.shards c) ++ (more1 ++ more2)) as Hk
        by (rewrite Hk2, Hk1, app_assoc; reflexivity).
    split; [| split].
    + exists (more1 ++ more2). split; [assumption | apply Forall_app; auto].
    + auto.
    + intros id Hid.
      destruct (JsMap.get id (WorkerClient.shards c')) eqn:E; [eauto |].
      exfalso. apply get_None_keys in E. apply E. rewrite Hk. apply elem_of_app. left.
      destruct (decide (id ∈ JsMap.keys (WorkerClient.shards c))) as [? | Hn]; [assumption |].
      apply get_None_keys in Hn. rewrite Hn in Hid. destruct Hid. discriminate.
Qed.

(** X10: the worker's own code never removes a shard from the registry
    and never reorders it.  Over any run that holds no execute-eval
    instruction (the callable such an instruction evaluates is handed the
    instance and can do anything to the registry), the list of registered
    shard ids only grows at its end, everything added is an assigned shard
    id, and ids stay unique; so a shard that is registered stays
    registered. *)
Theorem registry_only_grows (evs : list WorkerClient.Event) (c c' : WorkerClient.t)
    (out : list Effect) :
  run evs c = Some (c', out) ->
  forallb (fun e => negb (is_EXECUTE_EVAL e)) evs = true ->
  (exists more,
      JsMap.keys (WorkerClient.shards c') = JsMap.keys (WorkerClient.shards c) ++ more
      /\ Forall assigned more)
  /\ (NoDup (JsMap.keys (WorkerClient.shards c))
      -> NoDup (JsMap.keys (WorkerClient.shards c')))
  /\ (forall id,
        is_Some (JsMap.get id (WorkerClient.shards c))
        -> is_Some (JsMap.get id (WorkerClient.shards c'))).
Proof. apply run_registry. Qed.

(** X11: after a spawn-shards instruction, and as long as no execute-eval
    instruction is handled, no instruction that names an assigned shard is
    dropped.  Whatever else follows the spawn, every assigned shard id is
    in the registry, and a send-payload, allow-connect or shard-info
    instruction for it logs no fatal message. *)
Theorem assigned_shard_never_unknown (info : Payload) (compress : bool)
    (evs : list WorkerClient.Event) (c c' : WorkerClient.t) (out : list Effect)
    (data : ManagerMessages) (id : Z) :
  run (WorkerClient.ManagerMessage (SPAWN_SHARDS info compress) :: evs) c = Some (c', out) ->
  forallb (fun e => negb (is_EXECUTE_EVAL e)) evs = true ->
  id ∈ WorkerData.shards workerData ->
  names_shard data = Some id ->
  is_Some (JsMap.get id (WorkerClient.shards c'))
  /\ existsb is_fatal (snd (fst (handle data c'))) = false.
Proof.
  intros Hrun Hne Hid Hname.
  apply (run_cons_inv GatewayIntentBits_Guilds new_Shard js_eval workerData options)
    in Hrun as (c1 & out1 & out2 & Hstep & Hrun & ->).
  assert (is_Some (JsMap.get id (WorkerClient.shards c1))) as H1.
  { cbn -[fold_left] in Hstep. injection Hstep as <- _. cbn -[fold_left].
    destruct (spawn_fold new_Shard workerData info compress (WorkerData.shards workerData)
                (WorkerClient.shards c) []) as (_ & Hget & _).
    cbv zeta in Hget. rewrite Hget.
    destruct (JsMap.get id (WorkerClient.shards c)); [eauto |].
    destruct (decide (id ∈ WorkerData.shards workerData)); [eauto | contradiction]. }
  destruct (run_registry evs c1 c' out2 Hrun Hne) as (_ & _ & Hkeep).
  destruct (Hkeep id H1) as [shard Hshard]. split; [eauto |].
  destruct data; try discriminate; injection Hname as ->; cbn; rewrite Hshard; reflexivity.
Qed.

(** X12: a permitted connect sets the presence of the named shard and of
    no other: after an allow-connect for a registered shard, that shard is
    the same shard with the presence of the instruction, every other shard
    and the order of the registry are as before, what the shard reports
    about itself is unchanged, and the only call made is [connect] on it. *)
Theorem allow_connect_sets_presence (c : WorkerClient.t) (shardId : Z) (presence : Payload)
    (shard : Shard.t) :
  JsMap.get shardId (WorkerClient.shards c) = Some shard ->
  snd (fst (handle (ALLOW_CONNECT shardId presence) c)) = [shard_connect shardId]
  /\ snd (handle (ALLOW_CONNECT shardId presence) c) = Normal
  /\ JsMap.get shardId (WorkerClient.shards (fst (fst (handle (ALLOW_CONNECT shardId presence) c))))
     = Some (Shard.set_presence presence shard)
  /\ Shard.presence (Shard.options (Shard.set_presence presence shard)) = Some presence
  /\ generateShardInfo (Shard.set_presence presence shard) = generateShardInfo shard
  /\ (forall id, id <> shardId ->
        JsMap.get id (WorkerClient.shards (fst (fst (handle (ALLOW_CONNECT shardId presence) c))))
        = JsMap.get id (WorkerClient.shards c))
  /\ JsMap.keys (WorkerClient.shards (fst (fst (handle (ALLOW_CONNECT shardId presence) c))))
     = JsMap.keys (WorkerClient.shards c).
Proof.
  intros Hget. cbn. rewrite Hget. cbn.
  split; [reflexivity |]. split; [reflexivity |]. split; [apply get_set_eq |].
  split; [reflexivity |]. split; [reflexivity |]. split.
  - intros id Hne. apply get_set_ne. congruence.
  - apply keys_set_present. eauto.
Qed.

Lemma posted_requests (ids : list Z) :
  posted (map (fun id : Z => postMessage (WorkerRequestConnect id wid)) ids)
  = map (fun id : Z => WorkerRequestConnect id wid) ids.
Proof. induction ids as [| i ids IH]; [reflexivity |]. cbn. rewrite <- IH. reflexivity. Qed.

Lemma step_identifies_worker (e : WorkerClient.Event) (c c' : WorkerClient.t)
    (out : list Effect) :
  step e c = Some (c', out) ->
  Forall (fun m => message_workerId m = wid) (posted out).
Proof.
  intros Hstep.
  destruct e as [data | shardId packet | w func uuids | dt | shardId f].
  - cbn -[WorkerClient.handleManagerMessages] in Hstep.
    destruct (handle data c) as [[c1 o1] k] eqn:Hh. injection Hstep as <- <-.
    rewrite posted_app. apply Forall_app. split; [| destruct k; constructor].
    destruct data as [nonce result | shardId nonce payload | shardId presence | info compress
                     | shardId nonce | nonce | | nonce response error | func nonce
                     | nonce response];
      try (cbn in Hh; unfold WorkerClient.events_call in Hh; repeat case_match;
           injection Hh as _ <- _; repeat constructor; fail).
    cbn -[fold_left] in Hh. injection Hh as _ <- _.
    destruct (spawn_fold new_Shard workerData info compress (WorkerData.shards workerData)
                (WorkerClient.shards c) []) as (Hout & _).
    cbv zeta in Hout. rewrite Hout. cbn [app]. rewrite posted_requests.
    apply Forall_forall. intros m Hm. apply list_elem_of_In, in_map_iff in Hm as (id & <- & _).
    reflexivity.
  - assert (handlePayload shardId packet c = (c', out)) as Hs
        by (cbn -[WorkerClient.shard_handlePayload] in Hstep; congruence).
    assert (out = snd (handlePayload shardId packet c)) as -> by (rewrite Hs; reflexivity).
    unfold WorkerClient.shard_handlePayload, WorkerClient.onPacket,
      WorkerClient.onGuild, WorkerClient.onReady, WorkerClient.announce_ready,
      WorkerClient.announce_shards_connected, WorkerClient.events_call.
    cbv zeta. cbn [fst snd].
    destruct packet; repeat case_match; cbn; repeat constructor.
  - cbn -[WorkerClient.generateSendPromise] in Hstep. unfold WorkerClient.tellWorker in Hstep.
    destruct (WorkerClient.generateNonce true uuids (WorkerClient.promises c))
      as [[nonce rest] |]; [| discriminate].
    injection Hstep as _ <-. repeat constructor.
  - injection Hstep as _ <-. constructor.
  - injection Hstep as _ <-. constructor.
Qed.

(** X13: every message the worker posts identifies the worker: over any
    run, each message to the manager (replies, connect requests, eval
    requests, announcements, forwarded packets) carries [workerData.workerId]
    in its [workerId] field. *)
Theorem every_message_identifies_worker (evs : list WorkerClient.Event) :
  forall (c c' : WorkerClient.t) (out : list Effect),
    run evs c = Some (c', out) ->
    Forall (fun m => message_workerId m = wid) (posted out).
Proof.
  induction evs as [| e evs IH]; intros c c' out Hrun.
  - injection Hrun as _ <-. constructor.
  - apply (run_cons_inv GatewayIntentBits_Guilds new_Shard js_eval workerData options)
      in Hrun as (c1 & out1 & out2 & Hstep & Hrun & ->).
    rewrite posted_app. apply Forall_app. split.
    + eapply step_identifies_worker. eassumption.
    + eapply IH. eassumption.
Qed.

(** X14: a reply carries the nonce of the instruction it answers.  Every
    instruction other than spawn-shards makes the worker post at most one
    message, and a posted message that has a nonce has the nonce of the
    instruction; spawn-shards posts only messages without a nonce. *)
Theorem reply_carries_instruction_nonce (data : ManagerMessages) (c : WorkerClient.t) :
  Forall (fun m => message_nonce m = None \/ message_nonce m = instruction_nonce data)
    (posted (snd (fst (handle data c))))
  /\ ((forall info compress, data <> SPAWN_SHARDS info compress) ->
      length (posted (snd (fst (handle data c)))) <= 1).
Proof.
  destruct data as [nonce result | shardId nonce payload | shardId presence | info compress
                   | shardId nonce | nonce | | nonce response error | func nonce
                   | nonce response];
    try (cbn; unfold WorkerClient.events_call; repeat case_match; cbn;
         (split;
          [ repeat first [ apply List.Forall_nil
                         | apply List.Forall_cons;
                           [first [left; reflexivity | right; reflexivity] |] ]
          | intros _; lia ]); fail).
  cbn -[fold_left].
  destruct (spawn_fold new_Shard workerData info compress (WorkerData.shards workerData)
              (WorkerClient.shards c) []) as (Hout & _).
  cbv zeta in Hout. rewrite Hout. cbn [app]. rewrite posted_requests. split.
  - apply Forall_forall. intros m Hm. apply list_elem_of_In, in_map_iff in Hm as (id & <- & _).
    left. reflexivity.
  - intros Hne. exfalso. eapply Hne. reflexivity.
Qed.
End Registry.

(** ** Nonces, intents and the environment *)

Lemma split_nonempty (sep : ascii) (s : string) : split sep s <> [].
Proof.
  destruct s as [| c s]; simpl; [discriminate |].
  destruct (Ascii.eqb c sep); [discriminate |].
  destruct (split sep s); discriminate.
Qed.

Lemma split_first_head (sep : ascii) (s : string) :
  split_first sep s = hd EmptyString (split sep s).
Proof.
  induction s as [| c s IH]; simpl; [reflexivity |].
  destruct (Ascii.eqb c sep); [reflexivity |].
  rewrite IH. pose proof (split_nonempty sep s).
  destruct (split sep s); [contradiction | reflexivity].
Qed.

Lemma split_first_prefix (sep : ascii) (s : string) :
  contains sep (split_first sep s) = false
  /\ exists tail,
      s = String.append (split_first sep s) tail
      /\ (tail = EmptyString \/ exists t, tail = String sep t).
Proof.
  induction s as [| c s (IHc & tail & IHs & IHt)]; simpl.
  - split; [reflexivity |]. exists EmptyString. auto.
  - destruct (Ascii.eqb_spec c sep) as [-> | Hne]; simpl.
    + split; [reflexivity |]. exists (String sep s). eauto.
    + apply Ascii.eqb_neq in Hne. rewrite Hne, IHc. split; [reflexivity |].
      exists tail. split; [| assumption].
      change (String c s = String c (String.append (split_first sep s) tail)).
      f_equal. exact IHs.
Qed.

Lemma generateNonce_draw (large : bool) (uuids rest : list string) (nonce : string)
    (table : gmap string PendingCall.t) :
  WorkerClient.generateNonce large uuids table = Some (nonce, rest) ->
  exists uuid, In uuid uuids /\ nonce = nonce_of large uuid.
Proof.
  induction uuids as [| uuid uuids IH]; simpl; [discriminate |].
  fold (nonce_of large uuid).
  destruct (decide (is_Some (table !! nonce_of large uuid))).
  - intros H. destruct (IH H) as (u & Hin & ->). eauto.
  - intros [= <- <-]. eauto.
Qed.

(** X15: the nonce comes from a draw of [randomUUID]: a large nonce is one
    of the values drawn; a short nonce is the first element of one of them
    split at ["-"], that is the part of it before its first dash (all of
    it when it has none), and so never contains a dash. *)
Theorem nonce_is_uuid_or_its_first_segment (large : bool) (uuids rest : list string)
    (nonce : string) (table : gmap string PendingCall.t) :
  WorkerClient.generateNonce large uuids table = Some (nonce, rest) ->
  exists uuid,
    In uuid uuids
    /\ if large then nonce = uuid
       else nonce = hd EmptyString (split "-" uuid)
            /\ contains "-" nonce = false
            /\ exists tail,
                uuid = String.append nonce tail
                /\ (tail = EmptyString \/ exists t, tail = String "-" t).
Proof.
  intros H. destruct (generateNonce_draw large uuids rest nonce table H) as (uuid & Hin & ->).
  exists uuid. split; [assumption |]. destruct large; cbn; [reflexivity |].
  split; [apply split_first_head |]. apply split_first_prefix.
Qed.

Lemma ToInt32_low_bits (z : Z) (k : Z) :
  (0 <= k < 31)%Z -> Z.testbit (ToInt32 z) k = Z.testbit z k.
Proof.
  intros Hk. unfold ToInt32.
  rewrite <- (Z.mod_pow2_bits_low _ 31 k) by lia.
  rewrite <- (Z.mod_pow2_bits_low z 31 k) by lia.
  f_equal.
  replace (((z + 2 ^ 31) mod 2 ^ 32 - 2 ^ 31) mod 2 ^ 31)%Z
    with (((z + 2 ^ 31) mod 2 ^ 32) mod 2 ^ 31)%Z.
  - rewrite Z.mod_mod_divide by (exists 2%Z; reflexivity).
    replace (z + 2 ^ 31)%Z with (z + 1 * 2 ^ 31)%Z by lia.
    apply Z.mod_add. lia.
  - set (y := ((z + 2 ^ 31) mod 2 ^ 32)%Z).
    replace (y - 2 ^ 31)%Z with (y + (-1) * 2 ^ 31)%Z by lia.
    rewrite Z.mod_add by lia. reflexivity.
Qed.

Lemma land_pow2 (x k : Z) :
  (0 <= k)%Z -> Z.land x (2 ^ k) = if Z.testbit x k then (2 ^ k)%Z else 0%Z.
Proof.
  intros Hk. apply Z.bits_inj'. intros n Hn.
  rewrite Z.land_spec, Z.pow2_bits_eqb by assumption.
  destruct (Z.eqb_spec k n) as [-> | Hne].
  - rewrite andb_true_r. destruct (Z.testbit x n); [| apply eq_sym, Z.bits_0].
    rewrite Z.pow2_bits_eqb by assumption. rewrite Z.eqb_refl. reflexivity.
  - rewrite andb_false_r. destruct (Z.testbit x k); [| apply eq_sym, Z.bits_0].
    rewrite Z.pow2_bits_eqb by assumption. apply eq_sym, Z.eqb_neq. assumption.
Qed.

(** X16: the intent test is a bit test.  When the guilds flag is a single
    bit below bit 31 (it is bit 0), [(intents & flag) === flag] holds
    exactly when that bit of [intents] is set, for every integer
    [intents], also one outside the 32-bit range that [&] works on. *)
Theorem guilds_intent_tests_bit (k : Z) (workerData : WorkerData.t) :
  (0 <= k < 31)%Z ->
  guilds_intent (2 ^ k) workerData = Z.testbit (WorkerData.intents workerData) k.
Proof.
  intros Hk. unfold guilds_intent, js_band.
  assert (ToInt32 (2 ^ k) = 2 ^ k)%Z as ->.
  { unfold ToInt32.
    assert (0 < 2 ^ k < 2 ^ 31)%Z.
    { split; [apply Z.pow_pos_nonneg; lia | apply Z.pow_lt_mono_r; lia]. }
    rewrite Z.mod_small; lia. }
  rewrite land_pow2 by lia. rewrite ToInt32_low_bits by assumption.
  assert (0 < 2 ^ k)%Z by (apply Z.pow_pos_nonneg; lia).
  destruct (Z.testbit (WorkerData.intents workerData) k).
  - apply Z.eqb_refl.
  - apply Z.eqb_neq. lia.
Qed.

Lemma split_length (sep : ascii) (s : string) :
  length (split sep s) = S (occurrences sep s).
Proof.
  induction s as [| c s IH]; simpl; [reflexivity |].
  destruct (Ascii.eqb c sep); simpl; [rewrite IH; reflexivity |].
  pose proof (split_nonempty sep s).
  destruct (split sep s); [contradiction | exact IH].
Qed.

Lemma join_split (sep : ascii) (s : string) : join sep (split sep s) = s.
Proof.
  induction s as [| c s IH]; simpl; [reflexivity |].
  pose proof (split_nonempty sep s) as Hne.
  destruct (split sep s) as [| x l] eqn:E; [contradiction |].
  destruct (Ascii.eqb_spec c sep) as [-> | _].
  - change (String.append EmptyString (String sep (join sep (x :: l))) = String sep s).
    rewrite IH. reflexivity.
  - destruct l as [| y l].
    + cbn in *. rewrite IH. reflexivity.
    + change (String c (join sep (x :: y :: l)) = String c s). rewrite IH. reflexivity.
Qed.

(** X17: the worker's configuration is read from the environment if and
    only if [SEYFERT_WORKER_SHARDS] is set: no other unset variable
    prevents it, and without that one nothing is read at all.  When it is
    read, the shard list has one entry per comma-separated piece of the
    variable, in order (joining the pieces with commas gives the variable
    back), so it has one entry more than there are commas and is never
    empty; and a flag is on only for the exact text ["true"]. *)
Theorem workerData_read_iff_shards_set (Num : Type) (parseInt Number : option string -> Num)
    (env : string -> option string) :
  match Env.load Num parseInt Number env with
  | None => env "SEYFERT_WORKER_SHARDS" = None
  | Some data =>
      exists list,
        env "SEYFERT_WORKER_SHARDS" = Some list
        /\ Env.shards Num data = map (fun id => parseInt (Some id)) (split "," list)
        /\ join "," (split "," list) = list
        /\ length (Env.shards Num data) = S (occurrences "," list)
        /\ (Env.debug Num data = true <-> env "SEYFERT_WORKER_DEBUG" = Some "true")
        /\ (Env.workerProxy Num data = true
            <-> env "SEYFERT_WORKER_WORKERPROXY" = Some "true")
  end.
Proof.
  assert (forall x, Env.is_true x = true <-> x = Some "true") as Htrue.
  { intros [s |]; cbn; [| split; discriminate].
    rewrite String.eqb_eq. split; [intros -> | intros [= ->]]; reflexivity. }
  unfold Env.load. destruct (env "SEYFERT_WORKER_SHARDS") as [list |]; [| reflexivity].
  exists list. cbn. split; [reflexivity |]. split; [reflexivity |].
  split; [apply join_split |]. split; [rewrite length_map; apply split_length |].
  split; apply Htrue.
Qed.

(** ** Message requests and the cache *)

Section Shorter.
Import MessageShorter.
Variable client : Client.

Lemma then_cache_rejects (request : list Call) (response : Outcome APIMessage)
    (cache : APIMessage -> Call) (e : Value) :
  existsb touches_local_state request = false ->
  snd (then_cache client request response cache) = Rejects e ->
  existsb touches_local_state (fst (then_cache client request response cache)) = false.
Proof. destruct response; cbn; [discriminate | auto]. Qed.

(** X18: a failed request leaves the message cache alone.  For [write],
    [edit], [crosspost], [delete], [fetch] and [purge]: when the method
    rejects (the body could not be transformed, or the REST call failed) it
    has neither written to nor removed from the message cache nor notified
    the component handler; when the body cannot be transformed no REST
    request is made at all; and [endPoll] never touches the cache. *)
Theorem failed_request_leaves_cache (e : Value) :
  (forall channelId body transformed response,
      snd (write client channelId body transformed response) = Rejects e ->
      existsb touches_local_state (fst (write client channelId body transformed response))
      = false)
  /\ (forall messageId channelId body transformed response,
        snd (edit client messageId channelId body transformed response) = Rejects e ->
        existsb touches_local_state
          (fst (edit client messageId channelId body transformed response)) = false)
  /\ (forall messageId channelId reason response,
        snd (crosspost client messageId channelId reason response) = Rejects e ->
        existsb touches_local_state
          (fst (crosspost client messageId channelId reason response)) = false)
  /\ (forall messageId channelId reason response,
        snd (delete client messageId channelId reason response) = Rejects e ->
        existsb touches_local_state
          (fst (delete client messageId channelId reason response)) = false)
  /\ (forall messageId channelId response,
        snd (fetch client messageId channelId response) = Rejects e ->
        existsb touches_local_state (fst (fetch client messageId channelId response)) = false)
  /\ (forall messages channelId reason response,
        snd (purge client messages channelId reason response) = Rejects e ->
        existsb touches_local_state
          (fst (purge client messages channelId reason response)) = false)
  /\ (forall channelId messageId body response,
        existsb is_request (fst (write client channelId body (Rejects e) response)) = false
        /\ existsb is_request
             (fst (edit client messageId channelId body (Rejects e) response)) = false)
  /\ (forall channelId messageId response,
        existsb touches_local_state (fst (endPoll client channelId messageId response))
        = false).
Proof.
  repeat split.
  - intros channelId body [[files tb] | e'] response; cbn; [| reflexivity].
    apply then_cache_rejects. reflexivity.
  - intros messageId channelId body [[files tb] | e'] response; cbn; [| reflexivity].
    apply then_cache_rejects. reflexivity.
  - intros messageId channelId reason response. apply then_cache_rejects. reflexivity.
  - intros messageId channelId reason [[] | e']; cbn; [discriminate | reflexivity].
  - intros messageId channelId response. apply then_cache_rejects. reflexivity.
  - intros messages channelId reason [[] | e']; cbn; [discriminate | reflexivity].
  - intros channelId messageId response. destruct response; reflexivity.
Qed.

Lemma then_cache_resolves (request : list Call) (response : Outcome APIMessage)
    (cache : APIMessage -> Call) (m : APIMessage) :
  omap cached request = [] ->
  (forall x, cached (cache x) = Some (id x, channel_id x, x)) ->
  snd (then_cache client request response cache) = Resolves m ->
  omap cached (fst (then_cache client request response cache))
  = if has_cache_messages client then [(id m, channel_id m, m)] else [].
Proof.
  intros Hreq Hcache. destruct response as [message | e]; cbn; [| discriminate].
  intros [= ->]. rewrite omap_app, Hreq. unfold cache_call.
  destruct (has_cache_messages client); cbn; [rewrite Hcache |]; reflexivity.
Qed.

(** X19: what is cached is what is returned.  When [write], [edit],
    [crosspost] or [fetch] resolves with a message, the message cache (if
    the client has one) has received exactly one write: that same message,
    stored under the id and the channel id of the message itself, not under
    the ids the method was called with. *)
Theorem cached_message_is_returned_message (m : APIMessage) :
  (forall channelId body transformed response,
      snd (write client channelId body transformed response) = Resolves m ->
      omap cached (fst (write client channelId body transformed response))
      = if has_cache_messages client then [(id m, channel_id m, m)] else [])
  /\ (forall messageId channelId body transformed response,
        snd (edit client messageId channelId body transformed response) = Resolves m ->
        omap cached (fst (edit client messageId channelId body transformed response))
        = if has_cache_messages client then [(id m, channel_id m, m)] else [])
  /\ (forall messageId channelId reason response,
        snd (crosspost client messageId channelId reason response) = Resolves m ->
        omap cached (fst (crosspost client messageId channelId reason response))
        = if has_cache_messages client then [(id m, channel_id m, m)] else [])
  /\ (forall messageId channelId response,
        snd (fetch client messageId channelId response) = Resolves m ->
        omap cached (fst (fetch client messageId channelId response))
        = if has_cache_messages client then [(id m, channel_id m, m)] else []).
Proof.
  repeat split.
  - intros channelId body [[files tb] | e'] response; cbn; [| discriminate].
    apply then_cache_resolves; reflexivity.
  - intros messageId channelId body [[files tb] | e'] response; cbn; [| discriminate].
    apply then_cache_resolves; reflexivity.
  - intros messageId channelId reason response. apply then_cache_resolves; reflexivity.
  - intros messageId channelId response. apply then_cache_resolves; reflexivity.
Qed.
End Shorter.

(** ** Instances of the further properties *)

Lemma response_before_timeout_wins_witness :
  futures
    (WorkerClient.runtime
       (WorkerClient.elapse 100000
          (fst (fst (WorkerClient.handleManagerMessages Sample.new_Shard Sample.js_eval
                       Sample.workerData Sample.options
                       (EVAL_RESPONSE "n1" (VString "done")) Sample.before_deadline)))))
    !! 0
  = Some (Fulfilled (VString "done")).
Proof.
  refine (proj2 (proj2 (proj2 (proj2 (proj2
           (response_before_timeout_wins 1 Sample.new_Shard Sample.js_eval Sample.workerData
              Sample.options Sample.fresh "n1" "Timeout" Sample.quiet
              [WorkerClient.Elapse 100000]
              Sample.before_deadline _
              (match Sample.quiet_run with Some r => snd r | None => [] end) _
              (VString "done") (wf_create None None) _ _ _ _ eq_refl)))))).
  - reflexivity.
  - vm_compute. reflexivity.
  - reflexivity.
  - reflexivity.
Defined.

Lemma outstanding_calls_settle_within_bound_witness :
  WorkerClient.promises (WorkerClient.elapse 60000 Sample.before_deadline) = ∅
  /\ timers (WorkerClient.runtime (WorkerClient.elapse 60000 Sample.before_deadline)) = [].
Proof.
  destruct (outstanding_calls_settle_within_bound 1 Sample.new_Shard Sample.js_eval
              Sample.workerData Sample.options None None
              (WorkerClient.TellWorker 1 "f" ["n1"] :: Sample.quiet)
              Sample.before_deadline
              (postMessage (WorkerSendEval "f" 1 7 "n1")
                 :: match Sample.quiet_run with Some r => snd r | None => [] end)
              60000) as (H1 & H2 & _).
  - vm_compute. reflexivity.
  - vm_compute. discriminate.
  - split; assumption.
Defined.

Lemma tellWorker_twice_distinct_witness :
  exists n1 n2 h1 h2,
    [postMessage (WorkerSendEval "f" 1 7 "u")] = [postMessage (WorkerSendEval "f" 1 7 n1)]
    /\ [postMessage (WorkerSendEval "g" 2 7 "v")] = [postMessage (WorkerSendEval "g" 2 7 n2)]
    /\ n1 <> n2
    /\ 0 <> 1
    /\ WorkerClient.promises
         (fst (WorkerClient.generateSendPromise "v" "Timeout"
                 (fst (WorkerClient.generateSendPromise "u" "Timeout" Sample.fresh)))) !! n1
       = Some {| PendingCall.resolve := 0; PendingCall.timeout := h1 |}
    /\ WorkerClient.promises
         (fst (WorkerClient.generateSendPromise "v" "Timeout"
                 (fst (WorkerClient.generateSendPromise "u" "Timeout" Sample.fresh)))) !! n2
       = Some {| PendingCall.resolve := 1; PendingCall.timeout := h2 |}.
Proof.
  exact (tellWorker_twice_distinct Sample.workerData Sample.fresh _ _ 1 2 "f" "g"
           ["u"] ["u"; "v"] _ _ 0 1 eq_refl eq_refl).
Defined.

Lemma duplicate_response_ignored_witness :
  WorkerClient.handleManagerMessages Sample.new_Shard Sample.js_eval Sample.workerData
    Sample.options (EVAL_RESPONSE "n1" (VString "done"))
    (fst (fst (WorkerClient.handleManagerMessages Sample.new_Shard Sample.js_eval
                 Sample.workerData Sample.options
                 (EVAL_RESPONSE "n1" (VString "done")) Sample.issued)))
  = (fst (fst (WorkerClient.handleManagerMessages Sample.new_Shard Sample.js_eval
                 Sample.workerData Sample.options
                 (EVAL_RESPONSE "n1" (VString "done")) Sample.issued)), [], Normal).
Proof.
  exact (duplicate_response_ignored Sample.new_Shard Sample.js_eval Sample.workerData
           Sample.options (EVAL_RESPONSE "n1" (VString "done")) Sample.issued
           eq_refl eq_refl).
Defined.


Lemma shards_connected_only_on_ready_witness :
  shards_connected
    (snd (WorkerClient.shard_handlePayload 1 Sample.workerData Sample.options 0
            Sample.ready1 Sample.connected)) = 1.
Proof.
  exact (proj1 (shards_connected_only_on_ready 1 Sample.new_Shard Sample.js_eval
                  Sample.workerData Sample.options
                  (WorkerClient.ShardPayload 0 Sample.ready1) Sample.connected _ _ eq_refl)).
Defined.


Lemma guild_packet_cache_or_event_witness :
  existsb is_cache_onPacket
    (snd (WorkerClient.shard_handlePayload 1 Sample.workerData Sample.options 0
            (GUILD_CREATE "g1") Sample.settling)) = awaits "g1" Sample.settling.
Proof.
  exact (proj1 (guild_packet_cache_or_event 1 Sample.workerData Sample.options
                  Sample.settling "g1" 0 (GUILD_CREATE "g1") (or_introl eq_refl))).
Defined.

Lemma registry_only_grows_witness :
  is_Some (JsMap.get 1
             (WorkerClient.shards
                (WorkerClient.shard_change 1 (fun _ => Sample.shard 1 5%float None)
                   Sample.connected))).
Proof.
  refine (proj2 (proj2 (registry_only_grows 1 Sample.new_Shard Sample.js_eval
                          Sample.workerData Sample.options
                          [WorkerClient.ShardChange 1 (fun _ => Sample.shard 1 5%float None)]
                          Sample.connected _ _ eq_refl eq_refl)) 1%Z _).
  vm_compute. eauto.
Defined.

Lemma assigned_shard_never_unknown_witness :
  existsb is_fatal
    (snd (fst (WorkerClient.handleManagerMessages Sample.new_Shard Sample.js_eval
                 Sample.workerData Sample.options (SHARD_INFO 1 "q")
                 (fst (fst (WorkerClient.handleManagerMessages Sample.new_Shard Sample.js_eval
                              Sample.workerData Sample.options
                              (SPAWN_SHARDS "info" false) Sample.fresh))))))
  = false.
Proof.
  refine (proj2 (assigned_shard_never_unknown 1 Sample.new_Shard Sample.js_eval
                   Sample.workerData Sample.options "info" false [] Sample.fresh _ _
                   (SHARD_INFO 1 "q") 1 eq_refl eq_refl _ eq_refl)).
  right. left.
Defined.

Lemma allow_connect_sets_presence_witness :
  JsMap.get 0
    (WorkerClient.shards
       (fst (fst (WorkerClient.handleManagerMessages Sample.new_Shard Sample.js_eval
                    Sample.workerData Sample.options (ALLOW_CONNECT 0 "online")
                    Sample.connected))))
  = Some (Shard.set_presence "online" (Sample.shard 0 10%float (Some "s0"))).
Proof.
  exact (proj1 (proj2 (proj2
           (allow_connect_sets_presence Sample.new_Shard Sample.js_eval Sample.workerData
              Sample.options Sample.connected 0 "online"
              (Sample.shard 0 10%float (Some "s0")) eq_refl)))).
Defined.

Lemma every_message_identifies_worker_witness :
  Forall (fun m => message_workerId m = 7%Z)
    (posted
       (match WorkerClient.run 1 Sample.new_Shard Sample.js_eval Sample.workerData
                Sample.options Sample.first_shard_only Sample.fresh with
        | Some r => snd r
        | None => []
        end)).
Proof.
  refine (every_message_identifies_worker 1 Sample.new_Shard Sample.js_eval
            Sample.workerData Sample.options Sample.first_shard_only Sample.fresh
            (match WorkerClient.run 1 Sample.new_Shard Sample.js_eval Sample.workerData
                     Sample.options Sample.first_shard_only Sample.fresh with
             | Some r => fst r
             | None => Sample.fresh
             end) _ _).
  vm_compute. reflexivity.
Defined.

Lemma nonce_is_uuid_or_its_first_segment_witness :
  exists uuid,
    In uuid ["1b9d6bcd-bbfd-4b2d-9b5d-ab8dfbbd4bed"]
    /\ "1b9d6bcd" = hd EmptyString (split "-" uuid)
    /\ contains "-" "1b9d6bcd" = false
    /\ exists tail,
        uuid = String.append "1b9d6bcd" tail
        /\ (tail = EmptyString \/ exists t, tail = String "-" t).
Proof.
  exact (nonce_is_uuid_or_its_first_segment false
           ["1b9d6bcd-bbfd-4b2d-9b5d-ab8dfbbd4bed"] [] "1b9d6bcd" ∅ eq_refl).
Defined.

Lemma guilds_intent_tests_bit_witness :
  guilds_intent (2 ^ 0) Sample.workerData_no_guilds
  = Z.testbit (WorkerData.intents Sample.workerData_no_guilds) 0.
Proof.
  apply (guilds_intent_tests_bit 0 Sample.workerData_no_guilds). lia.
Defined.
